(** * Whiteboard session coordination: the socket coordinator and the board client

    The development embeds two halves of the repository:

    - [Coordinator]: the Socket.IO event handlers of [backend/src/socket.js]
      (the in-memory room registry [roomUsers] and the relay handlers);
    - [Board]: the canvas component of [frontend/src/pages/Auth.tsx] (object
      model per page, undo/redo stacks, mouse handlers, peer listeners), and
      [Whiteboard], the single-page canvas component with the same undo
      engine.

    Handlers are state-passing functions that return the new state together
    with the list of events they emit. *)

From stdpp Require Import gmap strings pretty list fin_maps sorting.

(** ** JavaScript idioms shared by both halves *)

(** Truthiness of a string: only the empty string is falsy. *)
Definition truthy_str (s : string) : bool := negb (String.eqb s "").

(** Truthiness of a possibly [undefined] string. *)
Definition truthy (o : option string) : bool :=
  match o with
  | Some s => truthy_str s
  | None => false
  end.

(** [o || d] for a possibly [undefined] string [o]. *)
Definition js_or (o : option string) (d : string) : string :=
  match o with
  | Some s => if truthy_str s then s else d
  | None => d
  end.

(** A plain object used as a map from string keys, in insertion order (the
    order [Object.values] and [Object.keys] enumerate non-numeric keys in).
    Keys that name inherited members of [Object.prototype] are outside the
    model. *)
Section JsObject.
Context {V : Type}.

(** [o[k] = v]: an existing key keeps its position, a new key is appended. *)
Fixpoint obj_set (k : string) (v : V) (o : list (string * V)) : list (string * V) :=
  match o with
  | [] => [(k, v)]
  | (k', v') :: o' =>
      if decide (k = k') then (k, v) :: o' else (k', v') :: obj_set k v o'
  end.

(** [o[k]] *)
Fixpoint obj_get (k : string) (o : list (string * V)) : option V :=
  match o with
  | [] => None
  | (k', v') :: o' => if decide (k = k') then Some v' else obj_get k o'
  end.

(** [delete o[k]] *)
Fixpoint obj_delete (k : string) (o : list (string * V)) : list (string * V) :=
  match o with
  | [] => []
  | (k', v') :: o' =>
      if decide (k = k') then obj_delete k o' else (k', v') :: obj_delete k o'
  end.

Definition obj_keys (o : list (string * V)) : list string := o.*1.
Definition obj_values (o : list (string * V)) : list V := o.*2.

End JsObject.

(** ** The coordinator: [backend/src/socket.js] *)
Module Coordinator.

(** The member summary stored in the registry and sent in [roomUsers]. *)
Record user := User {
  user_id : string;
  user_name : string;
  user_color : string
}.

(** The server-side socket object: the three properties the handlers set on
    it, and the rooms it was added to by [socket.join]. Socket.IO also keeps
    every socket in a room named by its own id; that room is accounted for in
    [in_room] below. *)
Record socket := Socket {
  currentRoom : option string;
  userName : option string;
  userColor : option string;
  rooms : gset string
}.

(** Connected sockets by id, and the module-level [roomUsers] registry. *)
Record state := State {
  sockets : gmap string socket;
  roomUsers : gmap string (list (string * user))
}.

Definition init : state := {| sockets := ∅; roomUsers := ∅ |}.

Section Handlers.
(** Payloads the coordinator never inspects (strokes, objects, chat bodies,
    cursor coordinates) are values of an arbitrary type. *)
Context {data : Type}.

(** Events a client can emit. [Connection] is the transport's connection
    event; the last five are emitted by the board client but have no
    listener in [setupSocket]. *)
Inductive event :=
  | Connection
  | JoinRoom (boardId : string) (name color : option string)
  | CursorMove (x y : data) (name color : option string)
  | Draw (d : data)
  | AddObject (d : data)
  | ChatMessage (boardId : option string) (m : data)
  | Disconnect
  | SetDrawPermission (targetUserId : string) (granted : bool) (boardId : option string)
  | StickyUpdate (d : data)
  | Typing (d : data)
  | BoardNameChange (d : data)
  | PresenceUpdate (d : data).

(** Events a client listens for. The coordinator constructs only the first
    eight. *)
Inductive message :=
  | UserJoined (name : string)
  | RoomUsers (users : list user)
  | CursorUpdate (userId name color : string) (x y : data)
  | DrawUpdate (d : data)
  | ObjectAdded (d : data)
  | ChatMessageOut (m : data)
  | CursorRemove (userId : string)
  | UserLeft (name : string)
  | DrawPermission (granted : bool)
  | AllowedUsers (ids : list string)
  | StickyUpdated (d : data)
  | TypingOut (d : data)
  | BoardNameChanged (d : data).

(** One [emit]: [io.to(room)] when [except] is [None], [socket.to(room)]
    (everyone in the room but the emitting socket) when it names the
    socket. *)
Record emission := Emission {
  room : string;
  except : option string;
  msg : message
}.

Definition io_to (b : string) (m : message) : emission :=
  {| room := b; except := None; msg := m |}.
Definition socket_to (c b : string) (m : message) : emission :=
  {| room := b; except := Some c; msg := m |}.

(** Socket [c] is in room [b]: its own id room, or a room it joined. *)
Definition in_room (b c : string) (sk : socket) : Prop := b = c ∨ b ∈ rooms sk.

#[local] Instance in_room_dec b c sk : Decision (in_room b c sk).
Proof. unfold in_room. apply _. Defined.

(** The connected sockets in the transport's room [b]. *)
Definition room_sockets (st : state) (b : string) : gset string :=
  dom (filter (λ p, in_room b p.1 p.2) (sockets st)).

(** The connections that joined [b] through [joinRoom] and are still
    connected. *)
Definition joined (st : state) (b : string) : gset string :=
  dom (filter (λ p : string * socket, b ∈ rooms p.2) (sockets st)).

(** The connections an emission made in state [st] is delivered to. *)
Definition recipients (st : state) (e : emission) : gset string :=
  match except e with
  | Some c => room_sockets st (room e) ∖ {[c]}
  | None => room_sockets st (room e)
  end.

(** [socket.on('joinRoom', ...)] *)
Definition joinRoom (st : state) (c : string) (sk : socket)
    (boardId : string) (name color : option string) : state * list emission :=
  let members := default [] (roomUsers st !! boardId) in
  let u := {| user_id := c;
              user_name := js_or name ("User-" +:+ String.substring 0 4 c);
              user_color := js_or color "#00d4ff" |} in
  let members' := obj_set c u members in
  let sk' := {| currentRoom := Some boardId;
                userName := Some (user_name u);
                userColor := Some (user_color u);
                rooms := rooms sk ∪ {[boardId]} |} in
  ({| sockets := <[c := sk']> (sockets st);
      roomUsers := <[boardId := members']> (roomUsers st) |},
   [socket_to c boardId (UserJoined (user_name u));
    io_to boardId (RoomUsers (obj_values members'))]).

(** [socket.on('cursorMove', ...)] *)
Definition cursorMove (st : state) (c : string) (sk : socket)
    (x y : data) (name color : option string) : state * list emission :=
  match currentRoom sk with
  | Some boardId =>
      if truthy_str boardId then
        (st, [socket_to c boardId
                (CursorUpdate c
                   (js_or name (js_or (userName sk) "Anonymous"))
                   (js_or color (js_or (userColor sk) "#00d4ff"))
                   x y)])
      else (st, [])
  | None => (st, [])
  end.

(** [socket.on('draw', ...)] *)
Definition draw (st : state) (c : string) (sk : socket) (d : data)
    : state * list emission :=
  match currentRoom sk with
  | Some boardId =>
      if truthy_str boardId then (st, [socket_to c boardId (DrawUpdate d)])
      else (st, [])
  | None => (st, [])
  end.

(** [socket.on('addObject', ...)] *)
Definition addObject (st : state) (c : string) (sk : socket) (d : data)
    : state * list emission :=
  match currentRoom sk with
  | Some boardId =>
      if truthy_str boardId then (st, [socket_to c boardId (ObjectAdded d)])
      else (st, [])
  | None => (st, [])
  end.

(** [socket.on('chatMessage', ...)]: the room id comes from the payload and
    is stripped from what is relayed. *)
Definition chatMessage (st : state) (c : string) (boardId : option string)
    (m : data) : state * list emission :=
  match boardId with
  | Some b =>
      if truthy_str b then (st, [socket_to c b (ChatMessageOut m)])
      else (st, [])
  | None => (st, [])
  end.

(** [socket.on('disconnect', ...)]. By the time the listener runs the
    transport has removed the socket from every room. *)
Definition disconnect (st : state) (c : string) (sk : socket)
    : state * list emission :=
  let sockets' := delete c (sockets st) in
  match currentRoom sk with
  | Some boardId =>
      match truthy_str boardId, roomUsers st !! boardId with
      | true, Some members =>
          let name := user_name <$> obj_get c members in
          let members' := obj_delete c members in
          ({| sockets := sockets';
              roomUsers :=
                if decide (length (obj_keys members') = 0)
                then delete boardId (roomUsers st)
                else <[boardId := members']> (roomUsers st) |},
           [io_to boardId (CursorRemove c)]
           ++ match name with
              | Some n => if truthy_str n then [io_to boardId (UserLeft n)] else []
              | None => []
              end
           ++ [io_to boardId (RoomUsers (obj_values members'))])
      | _, _ => ({| sockets := sockets'; roomUsers := roomUsers st |}, [])
      end
  | None => ({| sockets := sockets'; roomUsers := roomUsers st |}, [])
  end.

(** The listeners [setupSocket] registers on a connected socket. An event
    with no listener is ignored by the transport. *)
Definition handle (st : state) (c : string) (sk : socket) (ev : event)
    : state * list emission :=
  match ev with
  | JoinRoom boardId name color => joinRoom st c sk boardId name color
  | CursorMove x y name color => cursorMove st c sk x y name color
  | Draw d => draw st c sk d
  | AddObject d => addObject st c sk d
  | ChatMessage boardId m => chatMessage st c boardId m
  | Disconnect => disconnect st c sk
  | _ => (st, [])
  end.

(** One inbound event of connection [c], processed to completion. A
    connection event creates the socket object (ids are fresh per
    connection, so one under an id in use does not occur and changes
    nothing here); any other event is dispatched to the listeners of the
    connected socket, and is lost when there is none. *)
Definition step (st : state) (c : string) (ev : event) : state * list emission :=
  match ev, sockets st !! c with
  | Connection, None =>
      ({| sockets := <[c := {| currentRoom := None; userName := None;
                               userColor := None; rooms := ∅ |}]> (sockets st);
          roomUsers := roomUsers st |}, [])
  | Connection, Some _ => (st, [])
  | _, None => (st, [])
  | _, Some sk => handle st c sk ev
  end.

(** The state after a sequence of inbound events. *)
Definition exec (st : state) (tr : list (string * event)) : state :=
  foldl (λ s p, (step s p.1 p.2).1) st tr.

(** Connection [c] receives message [m] from the emissions [out] made in
    state [st]. *)
Definition receives (st : state) (out : list emission) (c : string) (m : message) : Prop :=
  ∃ e, e ∈ out ∧ msg e = m ∧ c ∈ recipients st e.

(** *** Properties the handlers are checked against *)

(** The member mapping of room [b]; a room without an entry has none. *)
Definition members (st : state) (b : string) : list (string * user) :=
  default [] (roomUsers st !! b).


(** What [draw], [addObject] and [chatMessage] relay, and under which room
    id. *)
Definition relayed (sk : socket) (ev : event) : option (string * message) :=
  match ev with
  | Draw d => (λ b, (b, DrawUpdate d)) <$> currentRoom sk
  | AddObject d => (λ b, (b, ObjectAdded d)) <$> currentRoom sk
  | ChatMessage boardId m => (λ b, (b, ChatMessageOut m)) <$> boardId
  | _ => None
  end.






End Handlers.
End Coordinator.

(** ** The board client: [frontend/src/pages/Auth.tsx] *)

(** [stack.pop()] on a copy of an array: the remaining array and the popped
    last element; [None] on an empty array. *)
Definition pop {A : Type} (stack : list A) : option (list A * A) :=
  match last stack with
  | Some x => Some (removelast stack, x)
  | None => None
  end.

(** [!s.trim()]: the string is empty once surrounding white space is
    removed. White space is taken over single-byte characters. *)
Definition js_blank (s : string) : bool :=
  forallb (λ a, bool_decide (Ascii.nat_of_ascii a ∈ [32; 9; 10; 11; 12; 13]))
          (String.list_ascii_of_string s).

Module Board.

(** JavaScript numbers with the arithmetic the handlers use; [lit] embeds a
    numeric literal of the source. *)
Class Numeric := {
  number : Type;
  lit : Z → number;
  nadd : number → number → number;
  nsub : number → number → number;
  nmul : number → number → number;
  ndiv : number → number → number;
  nabs : number → number;
  nsqrt : number → number;
  nmin : number → number → number;
  nmax : number → number → number
}.

(** Integer arithmetic, for closed scenarios over integer coordinates. *)
#[export] Instance Z_numeric : Numeric := {|
  number := Z;
  lit := λ z, z;
  nadd := Z.add;
  nsub := Z.sub;
  nmul := Z.mul;
  ndiv := Z.div;
  nabs := Z.abs;
  nsqrt := Z.sqrt;
  nmin := Z.min;
  nmax := Z.max
|}.

Inductive ToolType :=
  | pen | eraser | highlight
  | rectangle | circle | triangle | diamond | arrow | straightline
  | text | sticky | image.

Inductive LineStyle := solid | dashed | dotted.

Section Model.
Context `{Numeric}.

Record point := Point { pt_x : number; pt_y : number }.

(** The [CanvasObject] union; the constructor is the [type] tag. *)
Inductive CanvasObject :=
  | DrawLine (id : string) (points : list number) (color : string)
             (strokeWidth opacity : number) (dash : option (list number))
  | EraserMark (id : string) (points : list number) (strokeWidth : number)
  | HighlightLine (id : string) (points : list number) (color : string)
                  (strokeWidth : number)
  | RectShape (id : string) (x y width height : number) (fill : string)
  | CircleShape (id : string) (x y radius : number) (fill : string)
  | TriangleShape (id : string) (points : list number) (fill : string)
  | DiamondShape (id : string) (x y size : number) (fill : string)
  | ArrowShape (id : string) (points : list number) (color : string)
               (strokeWidth : number)
  | StraightLine (id : string) (points : list number) (color : string)
                 (strokeWidth : number) (dash : option (list number))
  | TextShape (id : string) (x y : number) (text color : string)
              (fontSize : number) (fontFamily : string) (bold italic : bool)
  | StickyNote (id : string) (x y : number) (text bg : string)
  | ImageShape (id : string) (x y width height : number) (src : string).

Definition obj_id (o : CanvasObject) : string :=
  match o with
  | DrawLine id _ _ _ _ _ | EraserMark id _ _ | HighlightLine id _ _ _
  | RectShape id _ _ _ _ _ | CircleShape id _ _ _ _ | TriangleShape id _ _
  | DiamondShape id _ _ _ _ | ArrowShape id _ _ _ | StraightLine id _ _ _ _
  | TextShape id _ _ _ _ _ _ _ _ | StickyNote id _ _ _ _
  | ImageShape id _ _ _ _ _ => id
  end.

Record Page := {
  page_id : string;
  page_name : string;
  page_objects : list CanvasObject
}.

(** The component state ([useState] and [useRef] values), grouped. *)

(** Toolbar selections. *)
Record Toolbar := {
  tool : ToolType;
  color : string;
  strokeWidth : number;
  opacity : number;
  lineStyle : LineStyle;
  stickyColor : string;
  fontFamily : string;
  fontSize : number;
  bold : bool;
  italic : bool
}.

(** The gesture in progress. [isDrawingRef] and [livePointsRef] are refs. *)
Record Gesture := {
  shapeStart : option point;
  preview : option CanvasObject;
  livePoints : list number;
  isLiveDrawing : bool;
  textPos : option point;
  textInput : string;
  isDrawingRef : bool;
  livePointsRef : list number
}.

(** Pages and history. *)
Record Document := {
  pages : list Page;
  currentPageId : string;
  undoStack : list (list CanvasObject);
  redoStack : list (list CanvasObject)
}.

(** Role and connection. [socketRef] tells whether [socketRef.current] is
    set; [userName] is [user?.name]. *)
Record Session := {
  isHost : bool;
  isAllowedToDraw : bool;
  allowedUserIds : gset string;
  socketRef : bool;
  boardId : option string;
  userName : option string;
  myColor : string
}.

Record state := {
  toolbar :> Toolbar;
  gesture :> Gesture;
  document :> Document;
  session :> Session
}.

Definition withToolbar (t : Toolbar) (st : state) : state :=
  {| toolbar := t; gesture := gesture st; document := document st;
     session := session st |}.
Definition withGesture (g : Gesture) (st : state) : state :=
  {| toolbar := toolbar st; gesture := g; document := document st;
     session := session st |}.
Definition withDocument (d : Document) (st : state) : state :=
  {| toolbar := toolbar st; gesture := gesture st; document := d;
     session := session st |}.
Definition withSession (s : Session) (st : state) : state :=
  {| toolbar := toolbar st; gesture := gesture st; document := document st;
     session := s |}.

(** The state setters. *)
Definition setTool (v : ToolType) (st : state) : state :=
  withToolbar {| tool := v; color := color st; strokeWidth := strokeWidth st;
                 opacity := opacity st; lineStyle := lineStyle st;
                 stickyColor := stickyColor st; fontFamily := fontFamily st;
                 fontSize := fontSize st; bold := bold st; italic := italic st |} st.

Definition setShapeStart (v : option point) (st : state) : state :=
  withGesture {| shapeStart := v; preview := preview st;
                 livePoints := livePoints st; isLiveDrawing := isLiveDrawing st;
                 textPos := textPos st; textInput := textInput st;
                 isDrawingRef := isDrawingRef st;
                 livePointsRef := livePointsRef st |} st.
Definition setPreview (v : option CanvasObject) (st : state) : state :=
  withGesture {| shapeStart := shapeStart st; preview := v;
                 livePoints := livePoints st; isLiveDrawing := isLiveDrawing st;
                 textPos := textPos st; textInput := textInput st;
                 isDrawingRef := isDrawingRef st;
                 livePointsRef := livePointsRef st |} st.
Definition setLivePoints (v : list number) (st : state) : state :=
  withGesture {| shapeStart := shapeStart st; preview := preview st;
                 livePoints := v; isLiveDrawing := isLiveDrawing st;
                 textPos := textPos st; textInput := textInput st;
                 isDrawingRef := isDrawingRef st;
                 livePointsRef := livePointsRef st |} st.
Definition setIsLiveDrawing (v : bool) (st : state) : state :=
  withGesture {| shapeStart := shapeStart st; preview := preview st;
                 livePoints := livePoints st; isLiveDrawing := v;
                 textPos := textPos st; textInput := textInput st;
                 isDrawingRef := isDrawingRef st;
                 livePointsRef := livePointsRef st |} st.
Definition setTextPos (v : option point) (st : state) : state :=
  withGesture {| shapeStart := shapeStart st; preview := preview st;
                 livePoints := livePoints st; isLiveDrawing := isLiveDrawing st;
                 textPos := v; textInput := textInput st;
                 isDrawingRef := isDrawingRef st;
                 livePointsRef := livePointsRef st |} st.
Definition setTextInput (v : string) (st : state) : state :=
  withGesture {| shapeStart := shapeStart st; preview := preview st;
                 livePoints := livePoints st; isLiveDrawing := isLiveDrawing st;
                 textPos := textPos st; textInput := v;
                 isDrawingRef := isDrawingRef st;
                 livePointsRef := livePointsRef st |} st.
(** [isDrawingRef.current = v] *)
Definition setIsDrawingRef (v : bool) (st : state) : state :=
  withGesture {| shapeStart := shapeStart st; preview := preview st;
                 livePoints := livePoints st; isLiveDrawing := isLiveDrawing st;
                 textPos := textPos st; textInput := textInput st;
                 isDrawingRef := v;
                 livePointsRef := livePointsRef st |} st.
(** [livePointsRef.current = v] *)
Definition setLivePointsRef (v : list number) (st : state) : state :=
  withGesture {| shapeStart := shapeStart st; preview := preview st;
                 livePoints := livePoints st; isLiveDrawing := isLiveDrawing st;
                 textPos := textPos st; textInput := textInput st;
                 isDrawingRef := isDrawingRef st;
                 livePointsRef := v |} st.

Definition setPages (v : list Page) (st : state) : state :=
  withDocument {| pages := v; currentPageId := currentPageId st;
                  undoStack := undoStack st; redoStack := redoStack st |} st.
Definition setUndoStack (v : list (list CanvasObject)) (st : state) : state :=
  withDocument {| pages := pages st; currentPageId := currentPageId st;
                  undoStack := v; redoStack := redoStack st |} st.
Definition setRedoStack (v : list (list CanvasObject)) (st : state) : state :=
  withDocument {| pages := pages st; currentPageId := currentPageId st;
                  undoStack := undoStack st; redoStack := v |} st.

Definition setIsHost (v : bool) (st : state) : state :=
  withSession {| isHost := v; isAllowedToDraw := isAllowedToDraw st;
                 allowedUserIds := allowedUserIds st; socketRef := socketRef st;
                 boardId := boardId st; userName := userName st;
                 myColor := myColor st |} st.
Definition setIsAllowedToDraw (v : bool) (st : state) : state :=
  withSession {| isHost := isHost st; isAllowedToDraw := v;
                 allowedUserIds := allowedUserIds st; socketRef := socketRef st;
                 boardId := boardId st; userName := userName st;
                 myColor := myColor st |} st.
Definition setAllowedUserIds (v : gset string) (st : state) : state :=
  withSession {| isHost := isHost st; isAllowedToDraw := isAllowedToDraw st;
                 allowedUserIds := v; socketRef := socketRef st;
                 boardId := boardId st; userName := userName st;
                 myColor := myColor st |} st.

(** [const canDraw = isHost || isAllowedToDraw] *)
Definition canDraw (st : state) : bool := isHost st || isAllowedToDraw st.

(** [const [isReadOnly] = useState(false)]: there is no setter. *)
Definition isReadOnly : bool := false.

(** [pages.find(p => p.id === currentPageId) || pages[0]] *)
Definition currentPage (st : state) : option Page :=
  match find (λ p, bool_decide (page_id p = currentPageId st)) (pages st) with
  | Some p => Some p
  | None => head (pages st)
  end.

(** [currentPage.objects]. The page array is never empty (it starts with
    one page, the last page cannot be deleted, and a load replaces it by a
    non-empty array only). *)
Definition objects (st : state) : list CanvasObject :=
  match currentPage st with
  | Some p => page_objects p
  | None => []
  end.

(** [setObjects(upd)] as closed over page id [pid]: the object sequence
    of every page with that id is replaced by [upd] of it. A plain value is
    passed as a constant function. *)
Definition setObjects (pid : string) (upd : list CanvasObject → list CanvasObject)
    (st : state) : state :=
  setPages
    (map (λ p, if bool_decide (page_id p = pid)
               then {| page_id := page_id p; page_name := page_name p;
                       page_objects := upd (page_objects p) |}
               else p)
         (pages st))
    st.

(** [getDash()] *)
Definition getDash (st : state) : option (list number) :=
  match lineStyle st with
  | dashed => Some [lit 12; lit 6]
  | dotted => Some [lit 3; lit 6]
  | solid => None
  end.

(** Events the client emits on its socket. *)
Inductive outbound :=
  | EmitPresenceUpdate (isDrawing : bool)
  | EmitCursorMove (x y : number) (name color : string) (isDrawing : bool)
  | EmitDraw (o : CanvasObject)
  | EmitAddObject (o : CanvasObject)
  | EmitSetDrawPermission (targetUserId : string) (granted : bool)
                          (boardId : option string).

(** [socketRef.current?.emit(...)] *)
Definition emit (st : state) (e : outbound) : list outbound :=
  if socketRef st then [e] else [].

(** *** Undo and redo *)

(** [saveToUndo(cur)] *)
Definition saveToUndo (cur : list CanvasObject) (st : state) : state :=
  setRedoStack [] (setUndoStack (undoStack st ++ [cur]) st).

(** [handleUndo] *)
Definition handleUndo (st : state) : state :=
  match pop (undoStack st) with
  | None => st
  | Some (s, last) =>
      setUndoStack s
        (setObjects (currentPageId st) (λ _, last)
           (setRedoStack (redoStack st ++ [objects st]) st))
  end.

(** [handleRedo] *)
Definition handleRedo (st : state) : state :=
  match pop (redoStack st) with
  | None => st
  | Some (s, next) =>
      setRedoStack s
        (setObjects (currentPageId st) (λ _, next)
           (setUndoStack (undoStack st ++ [objects st]) st))
  end.

(** The statement pair every local mutating action runs,
    [saveToUndo(objects); setObjects(prev => [...prev, obj])]: [objects]
    and the page id are those of the render [r] the handler closes over,
    the updates apply to the state [st] the handler has reached. *)
Definition commit (r : state) (obj : CanvasObject) (st : state) : state :=
  setObjects (currentPageId r) (λ prev, prev ++ [obj]) (saveToUndo (objects r) st).

(** *** Drawing *)

Definition is_freehand (t : ToolType) : bool :=
  match t with pen | eraser | highlight => true | _ => false end.

(** [handleMouseDown]; [pos] is [getPos(e)], [now] is [Date.now()]. *)
Definition handleMouseDown (st : state) (pos : option point) (now : Z)
    : state * list outbound :=
  if negb (canDraw st) || isReadOnly then (st, [])
  else
    match pos with
    | None => (st, [])
    | Some pos =>
        match tool st with
        | pen | eraser | highlight =>
            (setIsLiveDrawing true
               (setLivePoints [pt_x pos; pt_y pos]
                  (setLivePointsRef [pt_x pos; pt_y pos]
                     (setIsDrawingRef true st))),
             emit st (EmitPresenceUpdate true))
        | rectangle | circle | triangle | diamond | arrow | straightline =>
            (setShapeStart (Some pos) st, [])
        | text => (setTextInput "" (setTextPos (Some pos) st), [])
        | sticky =>
            let note := StickyNote ("sticky-" +:+ pretty now) (pt_x pos) (pt_y pos)
                                   "Double-click to edit" (stickyColor st) in
            (commit st note st, emit st (EmitAddObject note))
        | image => (st, [])
        end
    end.

(** The shape [handleMouseMove] previews between [start] and [pos]. *)
Definition previewShape (st : state) (start pos : point) : option CanvasObject :=
  let dx := nsub (pt_x pos) (pt_x start) in
  let dy := nsub (pt_y pos) (pt_y start) in
  match tool st with
  | rectangle =>
      Some (RectShape "preview" (nmin (pt_x pos) (pt_x start))
              (nmin (pt_y pos) (pt_y start)) (nabs dx) (nabs dy) (color st))
  | circle =>
      Some (CircleShape "preview" (pt_x start) (pt_y start)
              (ndiv (nsqrt (nadd (nmul dx dx) (nmul dy dy))) (lit 2)) (color st))
  | arrow =>
      Some (ArrowShape "preview" [pt_x start; pt_y start; pt_x pos; pt_y pos]
              (color st) (strokeWidth st))
  | straightline =>
      Some (StraightLine "preview" [pt_x start; pt_y start; pt_x pos; pt_y pos]
              (color st) (strokeWidth st) None)
  | triangle =>
      Some (TriangleShape "preview"
              [pt_x start; nsub (pt_y start) (nabs dy);
               nsub (pt_x start) (ndiv (nabs dx) (lit 2)); pt_y start;
               nadd (pt_x start) (ndiv (nabs dx) (lit 2)); pt_y start]
              (color st))
  | diamond =>
      Some (DiamondShape "preview" (pt_x start) (pt_y start)
              (nmax (nabs dx) (nabs dy)) (color st))
  | _ => None
  end.

(** [handleMouseMove] *)
Definition handleMouseMove (st : state) (pos : option point)
    : state * list outbound :=
  match pos with
  | None => (st, [])
  | Some pos =>
      let st1 :=
        if is_freehand (tool st) && isDrawingRef st then
          let pts := livePointsRef st ++ [pt_x pos; pt_y pos] in
          setLivePoints pts (setLivePointsRef pts st)
        else st in
      let st2 :=
        match shapeStart st with
        | Some start =>
            match previewShape st start pos with
            | Some o => setPreview (Some o) st1
            | None => st1
            end
        | None => st1
        end in
      (st2, emit st (EmitCursorMove (pt_x pos) (pt_y pos)
                       (js_or (userName st) "Anonymous") (myColor st)
                       (isDrawingRef st)))
  end.

(** The stroke [handleMouseUp] builds from the points [pts]. *)
Definition strokeObject (st : state) (pts : list number) (now : Z) : CanvasObject :=
  match tool st with
  | eraser =>
      EraserMark ("eraser-" +:+ pretty now) pts (nmul (strokeWidth st) (lit 5))
  | highlight =>
      HighlightLine ("hl-" +:+ pretty now) pts (color st)
                    (nmul (strokeWidth st) (lit 4))
  | _ =>
      DrawLine ("line-" +:+ pretty now) pts (color st) (strokeWidth st)
               (ndiv (opacity st) (lit 100)) (getDash st)
  end.

(** The shape [handleMouseUp] builds between [start] and [pos]. *)
Definition finalShape (st : state) (start pos : point) (now : Z)
    : option CanvasObject :=
  let dx := nsub (pt_x pos) (pt_x start) in
  let dy := nsub (pt_y pos) (pt_y start) in
  match tool st with
  | rectangle =>
      Some (RectShape ("rect-" +:+ pretty now) (nmin (pt_x pos) (pt_x start))
              (nmin (pt_y pos) (pt_y start)) (nabs dx) (nabs dy) (color st))
  | circle =>
      Some (CircleShape ("circ-" +:+ pretty now) (pt_x start) (pt_y start)
              (ndiv (nsqrt (nadd (nmul dx dx) (nmul dy dy))) (lit 2)) (color st))
  | arrow =>
      Some (ArrowShape ("arrow-" +:+ pretty now)
              [pt_x start; pt_y start; pt_x pos; pt_y pos]
              (color st) (strokeWidth st))
  | straightline =>
      Some (StraightLine ("sl-" +:+ pretty now)
              [pt_x start; pt_y start; pt_x pos; pt_y pos]
              (color st) (strokeWidth st) (getDash st))
  | triangle =>
      Some (TriangleShape ("tri-" +:+ pretty now)
              [pt_x start; nsub (pt_y start) (nabs dy);
               nsub (pt_x start) (ndiv (nabs dx) (lit 2)); pt_y start;
               nadd (pt_x start) (ndiv (nabs dx) (lit 2)); pt_y start]
              (color st))
  | diamond =>
      Some (DiamondShape ("dia-" +:+ pretty now) (pt_x start) (pt_y start)
              (nmax (nabs dx) (nabs dy)) (color st))
  | _ => None
  end.

(** [handleMouseUp]. State values ([tool], [shapeStart], [objects]) are
    read from the render [st]; the refs are read where the code reads
    them. *)
Definition handleMouseUp (st : state) (pos : option point) (now : Z)
    : state * list outbound :=
  let out0 := emit st (EmitPresenceUpdate false) in
  let '(st1, out1) :=
    if is_freehand (tool st) && isDrawingRef st then
      let sa := setIsLiveDrawing false (setIsDrawingRef false st) in
      let pts := livePointsRef st in
      let '(sb, o) :=
        if bool_decide (2 ≤ length pts) then
          let obj := strokeObject st pts now in
          (commit st obj sa, emit st (EmitDraw obj))
        else (sa, []) in
      (setLivePoints [] (setLivePointsRef [] sb), o)
    else (st, []) in
  let '(st2, out2) :=
    match shapeStart st, pos with
    | Some start, Some pos =>
        let '(sc, o) :=
          match finalShape st start pos now with
          | Some obj => (commit st obj st1, emit st (EmitAddObject obj))
          | None => (st1, [])
          end in
        (setPreview None (setShapeStart None sc), o)
    | _, _ => (st1, [])
    end in
  (st2, out0 ++ out1 ++ out2).

(** [handleTextSubmit] *)
Definition handleTextSubmit (st : state) (now : Z) : state * list outbound :=
  match js_blank (textInput st), textPos st with
  | false, Some pos =>
      let obj := TextShape ("txt-" +:+ pretty now) (pt_x pos) (pt_y pos)
                           (textInput st) (color st) (fontSize st)
                           (fontFamily st) (bold st) (italic st) in
      (setTextInput "" (setTextPos None (commit st obj st)),
       emit st (EmitAddObject obj))
  | _, _ => (st, [])
  end.

(** The Clear button, rendered only when [canDraw]:
    [saveToUndo(objects); setObjects([])]. *)
Definition clearCanvas (st : state) : state :=
  if canDraw st then
    setObjects (currentPageId st) (λ _, []) (saveToUndo (objects st) st)
  else st.

(** A toolbar button: viewers get a toast, the image tool opens the file
    dialog, any other tool is selected. *)
Definition selectTool (t : ToolType) (st : state) : state :=
  if negb (canDraw st) then st
  else match t with image => st | _ => setTool t st end.

(** *** Socket listeners *)

(** The listeners are registered by an effect that does not re-run when the
    page changes; [pid] is the page id of the render whose [setObjects]
    they close over. *)

(** [socket.on('drawUpdate', ...)] and [socket.on('objectAdded', ...)] *)
Definition onDrawUpdate (pid : string) (d : CanvasObject) (st : state) : state :=
  setObjects pid (λ prev, prev ++ [d]) st.
Definition onObjectAdded (pid : string) (d : CanvasObject) (st : state) : state :=
  setObjects pid (λ prev, prev ++ [d]) st.

(** [socket.on('stickyUpdated', ...)] *)
Definition onStickyUpdated (pid : string) (id text : string) (st : state) : state :=
  setObjects pid
    (map (λ o, match o with
               | StickyNote id' x y _ bg =>
                   if bool_decide (id' = id) then StickyNote id' x y text bg else o
               | _ => o
               end))
    st.

(** [socket.on('drawPermission', ...)] *)
Definition onDrawPermission (granted : bool) (st : state) : state :=
  setIsAllowedToDraw granted st.

(** The host-detection effect once the board is fetched: [ownerId] is
    [data.ownerId], [myId] is [user?.id]. *)
Definition hostDetected (ownerId myId : option string) (st : state) : state :=
  let ownerId := js_or ownerId "" in
  let myId := js_or myId "" in
  if truthy_str ownerId && truthy_str myId && bool_decide (ownerId = myId)
  then setIsHost true st
  else st.

(** [toggleAllowUser] *)
Definition toggleAllowUser (userId : string) (st : state) : state * list outbound :=
  let isAllowed := bool_decide (userId ∈ allowedUserIds st) in
  let updated := if isAllowed then allowedUserIds st ∖ {[userId]}
                 else allowedUserIds st ∪ {[userId]} in
  (setAllowedUserIds updated st,
   emit st (EmitSetDrawPermission userId (negb isAllowed) (boardId st))).

(** *** The component as a transition system *)

Inductive event :=
  | MouseDown (pos : option point) (now : Z)
  | MouseMove (pos : option point)
  | MouseUp (pos : option point) (now : Z)
  | TextChange (s : string)
  | TextSubmit (now : Z)
  | ClearCanvas
  | SelectTool (t : ToolType)
  | Undo
  | Redo
  | ToggleAllowUser (userId : string)
  | HostDetected (ownerId myId : option string)
  | DrawUpdate (pid : string) (d : CanvasObject)
  | ObjectAdded (pid : string) (d : CanvasObject)
  | StickyUpdated (pid : string) (id text : string)
  | DrawPermission (granted : bool).

Definition step (st : state) (ev : event) : state * list outbound :=
  match ev with
  | MouseDown pos now => handleMouseDown st pos now
  | MouseMove pos => handleMouseMove st pos
  | MouseUp pos now => handleMouseUp st pos now
  | TextChange s => (setTextInput s st, [])
  | TextSubmit now => handleTextSubmit st now
  | ClearCanvas => (clearCanvas st, [])
  | SelectTool t => (selectTool t st, [])
  | Undo => (handleUndo st, [])
  | Redo => (handleRedo st, [])
  | ToggleAllowUser userId => toggleAllowUser userId st
  | HostDetected ownerId myId => (hostDetected ownerId myId st, [])
  | DrawUpdate pid d => (onDrawUpdate pid d st, [])
  | ObjectAdded pid d => (onObjectAdded pid d st, [])
  | StickyUpdated pid id txt => (onStickyUpdated pid id txt st, [])
  | DrawPermission granted => (onDrawPermission granted st, [])
  end.

Definition exec (st : state) (tr : list event) : state :=
  foldl (λ s ev, (step s ev).1) st tr.


(** The component as first rendered for board [boardId] by a user named
    [userName] with cursor colour [myColor]. *)
Definition init (boardId userName : option string) (myColor : string) : state :=
  {| toolbar := {| tool := pen; color := "#00d4ff"; strokeWidth := lit 3;
                   opacity := lit 100; lineStyle := solid;
                   stickyColor := "#ffd43b"; fontFamily := "DM Sans";
                   fontSize := lit 18; bold := false; italic := false |};
     gesture := {| shapeStart := None; preview := None; livePoints := [];
                   isLiveDrawing := false; textPos := None; textInput := "";
                   isDrawingRef := false; livePointsRef := [] |};
     document := {| pages := [ {| page_id := "page-1"; page_name := "Page 1";
                                  page_objects := [] |} ];
                    currentPageId := "page-1"; undoStack := []; redoStack := [] |};
     session := {| isHost := false; isAllowedToDraw := false;
                   allowedUserIds := ∅; socketRef := truthy boardId;
                   boardId := boardId; userName := userName;
                   myColor := myColor |} |}.

(** *** Properties the handlers are checked against *)


(** An outbound draw or add-object event. *)
Definition is_drawing_event (o : outbound) : Prop :=
  match o with
  | EmitDraw _ | EmitAddObject _ => True
  | _ => False
  end.





(** A local mutating action: stroke or shape completion (mouse up), sticky
    placement (mouse down), text placement (submit). *)
Definition is_local_action (ev : event) : Prop :=
  match ev with
  | MouseDown _ _ | MouseUp _ _ | TextSubmit _ => True
  | _ => False
  end.

(** The outcome [r] of a handler run in state [st] follows the snapshot
    protocol: either pages and both stacks are as before and no draw or
    add-object event is emitted, or the protocol ran for one new object:
    the previous sequence was pushed on the undo stack, the redo stack is
    empty, the object was appended to the current page, and it is the
    object of any draw or add-object event emitted. *)
Definition snapshot_protocol (st : state) (r : state * list outbound) : Prop :=
  (pages r.1 = pages st ∧ undoStack r.1 = undoStack st
   ∧ redoStack r.1 = redoStack st
   ∧ ∀ o, o ∈ r.2 → ¬ is_drawing_event o)
  ∨ ∃ obj, undoStack r.1 = undoStack st ++ [objects st]
           ∧ redoStack r.1 = []
           ∧ pages r.1 = pages (setObjects (currentPageId st)
                                  (λ prev, prev ++ [obj]) st)
           ∧ currentPageId r.1 = currentPageId st
           ∧ ∀ o, o ∈ r.2 → is_drawing_event o →
                  o = EmitDraw obj ∨ o = EmitAddObject obj.

(** The current page id names a page. *)
Definition has_current_page (st : state) : Prop :=
  currentPageId st ∈ page_id <$> pages st.

#[export] Instance has_current_page_dec st : Decision (has_current_page st).
Proof. unfold has_current_page. apply _. Defined.

End Model.
End Board.

(** ** The single-page [Whiteboard] component *)
Module Whiteboard.
Section Model.
(** [CanvasObject = DrawLine | RectShape]; the undo engine never looks
    inside an object. *)
Context {CanvasObject : Type}.

Record state := {
  objects : list CanvasObject;
  undoStack : list (list CanvasObject);
  redoStack : list (list CanvasObject)
}.

(** [saveToUndoStack(currentObjects)] *)
Definition saveToUndoStack (currentObjects : list CanvasObject) (st : state) : state :=
  {| objects := objects st;
     undoStack := undoStack st ++ [currentObjects];
     redoStack := [] |}.

(** [handleUndo] *)
Definition handleUndo (st : state) : state :=
  match pop (undoStack st) with
  | None => st
  | Some (newStack, lastState) =>
      {| objects := lastState;
         undoStack := newStack;
         redoStack := redoStack st ++ [objects st] |}
  end.

(** [handleRedo] *)
Definition handleRedo (st : state) : state :=
  match pop (redoStack st) with
  | None => st
  | Some (newStack, nextState) =>
      {| objects := nextState;
         undoStack := undoStack st ++ [objects st];
         redoStack := newStack |}
  end.

(** [saveToUndoStack(objects); setObjects(prev => [...prev, obj])], the
    statement pair of [handleMouseUp] for a new line or rectangle. *)
Definition commit (obj : CanvasObject) (st : state) : state :=
  let st1 := saveToUndoStack (objects st) st in
  {| objects := objects st1 ++ [obj];
     undoStack := undoStack st1;
     redoStack := redoStack st1 |}.

End Model.
End Whiteboard.

(** ** Pages of the board: [addPage], [deletePage], [renamePage], load and save *)

Definition is_space (a : Ascii.ascii) : bool :=
  bool_decide (Ascii.nat_of_ascii a ∈ [32; 9; 10; 11; 12; 13]).

Fixpoint drop_spaces (l : list Ascii.ascii) : list Ascii.ascii :=
  match l with
  | [] => []
  | a :: l' => if is_space a then drop_spaces l' else l
  end.

(** [s.trim()], over the same white space as [js_blank]. *)
Definition js_trim (s : string) : string :=
  String.string_of_list_ascii
    (rev (drop_spaces (rev (drop_spaces (String.list_ascii_of_string s))))).

Module BoardPages.
Import Board.
Section Model.
Context `{Numeric}.

Definition setCurrentPageId (v : string) (st : state) : state :=
  withDocument {| pages := pages st; currentPageId := v;
                  undoStack := undoStack st; redoStack := redoStack st |} st.

(** [addPage]; [now] is [Date.now()]. *)
Definition addPage (st : state) (now : Z) : state :=
  let p := {| page_id := "page-" +:+ pretty now;
              page_name := "Page " +:+ pretty (length (pages st) + 1);
              page_objects := [] |} in
  setCurrentPageId (page_id p) (setPages (pages st ++ [p]) st).

(** [deletePage]. [None] stands for the [TypeError] of [rest[0].id] when
    no page is left. *)
Definition deletePage (id : string) (st : state) : option state :=
  if bool_decide (length (pages st) = 1) then Some st
  else
    let rest := filter (λ p, page_id p ≠ id) (pages st) in
    if bool_decide (currentPageId st = id) then
      match rest with
      | [] => None
      | p :: _ => Some (setCurrentPageId (page_id p) (setPages rest st))
      end
    else Some (setPages rest st).

(** [renamePage] (the flag that closes the rename box is display state). *)
Definition renamePage (id name : string) (st : state) : state :=
  if truthy_str (js_trim name) then
    setPages (map (λ p, if bool_decide (page_id p = id)
                        then {| page_id := page_id p; page_name := js_trim name;
                                page_objects := page_objects p |}
                        else p)
                  (pages st)) st
  else st.

(** A click on the [i]-th page tab: [setCurrentPageId(page.id)]. *)
Definition selectPage (i : nat) (st : state) : state :=
  match pages st !! i with
  | Some p => setCurrentPageId (page_id p) st
  | None => st
  end.

(** The body of a load response as the client reads it. *)
Record loaded := {
  l_pages : option (list Page);
  l_objects : option (list CanvasObject);
  l_boardName : option string;
  l_ownerId : option string
}.

(** The continuation of the load request in the socket effect; [data] is
    [None] when the response is not ok, [pid] the page id its [setObjects]
    closes over. *)
Definition onBoardLoaded (pid : string) (data : option loaded) (st : state) : state :=
  match data with
  | None => st
  | Some d =>
      match l_pages d with
      | Some (p :: ps) => setCurrentPageId (page_id p) (setPages (p :: ps) st)
      | _ =>
          match l_objects d with
          | Some os => setObjects pid (λ _, os) st
          | None => st
          end
      end
  end.

(** [if (data?.boardName) setBoardName(data.boardName)] *)
Definition loadedBoardName (data : option loaded) (boardName : string) : string :=
  match data with
  | Some d => js_or (l_boardName d) boardName
  | None => boardName
  end.

(** The body [handleSave] posts: [{ objects, pages, boardName }]. *)
Record save_body := {
  b_objects : list CanvasObject;
  b_pages : list Page;
  b_boardName : string
}.

Definition saveBody (st : state) (boardName : string) : save_body :=
  {| b_objects := objects st; b_pages := pages st; b_boardName := boardName |}.

(** Page operations and the events of the canvas, as one transition
    system; [None] is the crash of [deletePage]. *)
Inductive event :=
  | AddPage (now : Z)
  | DeletePage (id : string)
  | RenamePage (id name : string)
  | SelectPage (i : nat)
  | BoardLoaded (pid : string) (data : option loaded)
  | Canvas (ev : Board.event).

Definition step (st : state) (ev : event) : option state :=
  match ev with
  | AddPage now => Some (addPage st now)
  | DeletePage id => deletePage id st
  | RenamePage id name => Some (renamePage id name st)
  | SelectPage i => Some (selectPage i st)
  | BoardLoaded pid data => Some (onBoardLoaded pid data st)
  | Canvas ev => Some (Board.step st ev).1
  end.

Fixpoint exec (st : state) (tr : list event) : option state :=
  match tr with
  | [] => Some st
  | ev :: tr' =>
      match step st ev with
      | Some st' => exec st' tr'
      | None => None
      end
  end.

(** The page array is non-empty, page ids are distinct, and the current
    page id names a page. *)
Definition pages_ok (st : state) : Prop :=
  pages st ≠ [] ∧ NoDup (page_id <$> pages st) ∧ has_current_page st.

(** What the invariant needs from the environment: the clock gives a new
    page a fresh id, and loaded pages have distinct ids. *)
Definition admissible (st : state) (ev : event) : Prop :=
  match ev with
  | AddPage now => "page-" +:+ pretty now ∉ page_id <$> pages st
  | BoardLoaded _ (Some d) =>
      match l_pages d with
      | Some ps => NoDup (page_id <$> ps)
      | None => True
      end
  | _ => True
  end.

Fixpoint admissible_trace (st : state) (tr : list event) : Prop :=
  match tr with
  | [] => True
  | ev :: tr' =>
      admissible st ev
      ∧ match step st ev with
        | Some st' => admissible_trace st' tr'
        | None => True
        end
  end.

End Model.
End BoardPages.

(** ** Sticky-note editing: [handleDblClick], [saveStickyEdit] *)
Module BoardSticky.
Import Board.
Section Model.
Context `{Numeric}.

(** The edit box ([editingStickyId], [stickyEditText]); its screen
    position, computed by the canvas library, is display state. *)
Record edit := {
  editingStickyId : option string;
  stickyEditText : string
}.

(** [objects.find(o => o.id === id)] *)
Definition findObject (id : string) (os : list CanvasObject) : option CanvasObject :=
  find (λ o, bool_decide (obj_id o = id)) os.

(** [handleDblClick]; [target] is [e.target?.id?.()]. *)
Definition handleDblClick (target : option string) (st : state) (ed : edit) : edit :=
  match target with
  | Some id =>
      match findObject id (objects st) with
      | Some (StickyNote _ _ _ txt _) =>
          {| editingStickyId := Some id; stickyEditText := txt |}
      | _ => ed
      end
  | None => ed
  end.

Inductive outbound :=
  | EmitStickyUpdate (id txt : string).

(** [saveStickyEdit] *)
Definition saveStickyEdit (st : state) (ed : edit) : state * edit * list outbound :=
  if truthy (editingStickyId ed) then
    let id := default "" (editingStickyId ed) in
    (setObjects (currentPageId st)
       (map (λ o, match o with
                  | StickyNote id' x y _ bg =>
                      if bool_decide (id' = id)
                      then StickyNote id' x y (stickyEditText ed) bg else o
                  | _ => o
                  end)) st,
     {| editingStickyId := None; stickyEditText := stickyEditText ed |},
     if socketRef st then [EmitStickyUpdate id (stickyEditText ed)] else [])
  else (st, ed, []).

End Model.
End BoardSticky.

(** ** Chat and presence of the board: [sendChat] and the socket listeners *)
Module BoardSocial.
Import Board.
Section Model.
Context `{Numeric}.

Record ChatMessage := {
  cm_userId : string;
  cm_name : string;
  cm_text : string;
  cm_time : string;
  cm_color : string
}.


Inductive outbound :=
  | EmitChatMessage (boardId : option string) (m : ChatMessage).



(** A cursor as the coordinator sends it; [rc_isDrawing] is not part of
    what this coordinator relays. *)
Record RemoteCursor := {
  rc_userId : string;
  rc_name : string;
  rc_color : string;
  rc_x : number;
  rc_y : number
}.

Record presence := {
  remoteCursors : gmap string RemoteCursor;
  roomUsers : list Coordinator.user
}.

(** [socket.on('cursorUpdate', ...)]; moving the stage when the user is
    followed is an effect on the canvas, not on the state. *)
Definition onCursorUpdate (c : RemoteCursor) (pr : presence) : presence :=
  {| remoteCursors := <[rc_userId c := c]> (remoteCursors pr);
     roomUsers := roomUsers pr |}.

(** [socket.on('cursorRemove', ...)] *)
Definition onCursorRemove (userId : string) (pr : presence) : presence :=
  {| remoteCursors := delete userId (remoteCursors pr);
     roomUsers := roomUsers pr |}.

(** [socket.on('roomUsers', ...)] *)
Definition onRoomUsers (users : list Coordinator.user) (pr : presence) : presence :=
  {| remoteCursors := remoteCursors pr; roomUsers := users |}.

End Model.
End BoardSocial.

(** ** Client and coordinator on one wire *)
Module Wire.
Section Model.
Context `{Board.Numeric}.

(** The messages of the emissions [out] that reach connection [c], in
    the order they were emitted. *)
Definition delivered {data : Type} (st : Coordinator.state)
    (out : list (@Coordinator.emission data)) (c : string)
    : list (@Coordinator.message data) :=
  Coordinator.msg <$>
    filter (λ e, c ∈ Coordinator.recipients st e) out.

(** The canvas events of the client as the coordinator receives them. *)
Definition toCoordinator (o : Board.outbound)
    : option (@Coordinator.event Board.CanvasObject) :=
  match o with
  | Board.EmitDraw d => Some (Coordinator.Draw d)
  | Board.EmitAddObject d => Some (Coordinator.AddObject d)
  | Board.EmitSetDrawPermission t g b => Some (Coordinator.SetDrawPermission t g b)
  | _ => None
  end.

(** The canvas listeners of a client whose [setObjects] closes over page
    [pid]. *)
Definition onCanvasMessage (pid : string)
    (m : @Coordinator.message Board.CanvasObject) (st : Board.state) : Board.state :=
  match m with
  | Coordinator.DrawUpdate d => Board.onDrawUpdate pid d st
  | Coordinator.ObjectAdded d => Board.onObjectAdded pid d st
  | Coordinator.DrawPermission g => Board.onDrawPermission g st
  | _ => st
  end.



(** The presence listeners. *)
Definition onPresenceMessage (m : @Coordinator.message Board.number)
    (pr : BoardSocial.presence) : BoardSocial.presence :=
  match m with
  | Coordinator.CursorUpdate u n col x y =>
      BoardSocial.onCursorUpdate
        {| BoardSocial.rc_userId := u; BoardSocial.rc_name := n;
           BoardSocial.rc_color := col; BoardSocial.rc_x := x;
           BoardSocial.rc_y := y |} pr
  | Coordinator.CursorRemove u => BoardSocial.onCursorRemove u pr
  | Coordinator.RoomUsers us => BoardSocial.onRoomUsers us pr
  | _ => pr
  end.

End Model.
End Wire.

(** ** The board routes: [backend/src/routes/boards.js] *)
Module Boards.
Section Model.
(** Ids of boards and users are database UUIDs. Stored documents are JSON
    the routes look into only for [p.objects] of a page. *)
Context {uuid : Type} `{Countable uuid}.
Context {obj page : Type}.
Context (page_objects : page → option (list obj)).
Context (mk_page : string → string → list obj → page).
(** The default of the [board_name] column, which the repository does not
    give. *)
Context (board_name_default : option string).

Record row := {
  owner_id : uuid;
  objects : option (list obj);
  pages : option (list page);
  board_name : option string;
  updated_at : Z
}.

(** The [boards] table. [hasPages] tells whether it has the columns
    [pages] and [board_name]; the table [db.js] creates has neither, and a
    statement naming them fails. *)
Record db := {
  boards : gmap uuid row;
  hasPages : bool
}.

Record body := {
  r_objects : option (list obj);
  r_pages : option (list page);
  r_boardName : option string
}.

Inductive response :=
  | Unauthorized
  | BoardList (rows : list (uuid * Z))
  | Created (boardId : uuid)
  | Failed (error : string)
  | Saved (boardId : uuid)
  | NotFound (error : string)
  | Loaded (boardId ownerId : uuid) (objects : list obj) (pages : list page)
           (boardName : string) (updatedAt : Z)
  | Deleted (boardId : uuid).

Definition status (r : response) : nat :=
  match r with
  | Unauthorized => 401
  | Created _ => 201
  | Failed _ => 500
  | NotFound _ => 404
  | BoardList _ | Saved _ | Loaded _ _ _ _ _ _ | Deleted _ => 200
  end.

Definition setBoards (bs : gmap uuid row) (d : db) : db :=
  {| boards := bs; hasPages := hasPages d |}.

(** [ORDER BY updated_at DESC] *)
Definition newer_first (a b : uuid * Z) : Prop := (b.2 ≤ a.2)%Z.

#[export] Instance newer_first_dec a b : Decision (newer_first a b).
Proof. unfold newer_first. apply _. Defined.

(** [GET /]: the caller's boards, most recently updated first. *)
Definition listBoards (d : db) (user : option uuid) : db * response :=
  match user with
  | None => (d, Unauthorized)
  | Some u =>
      (d, BoardList
            (merge_sort newer_first
               ((λ p, (p.1, updated_at p.2)) <$>
                  map_to_list (filter (λ p, owner_id p.2 = u) (boards d)))))
  end.

(** [POST /]; [fresh] is the id the database generates, [now] its clock.
    Without the [pages] column the first insert fails and the second one
    stores the same row without it. *)
Definition createBoard (d : db) (user : option uuid) (fresh : uuid) (now : Z)
    : db * response :=
  match user with
  | None => (d, Unauthorized)
  | Some u =>
      match boards d !! fresh with
      | Some _ => (d, Failed "Failed to create board")
      | None =>
          (setBoards
             (<[fresh := {| owner_id := u; objects := Some [];
                            pages := if hasPages d then Some [] else None;
                            board_name := if hasPages d then board_name_default
                                          else None;
                            updated_at := now |}]> (boards d)) d,
           Created fresh)
      end
  end.

(** [objects || (pages && pages[0]?.objects) || []] *)
Definition savedObjects (b : body) : list obj :=
  match r_objects b with
  | Some os => os
  | None =>
      match r_pages b with
      | Some (p :: _) => default [] (page_objects p)
      | _ => []
      end
  end.

(** [pages ? pages.flatMap(p => p.objects || []) : (objects || [])] *)
Definition allObjects (b : body) : list obj :=
  match r_pages b with
  | Some ps => flat_map (λ p, default [] (page_objects p)) ps
  | None => default [] (r_objects b)
  end.

(** [POST /:boardId]. The update touches the row only when the caller
    owns it; the response does not depend on that. *)
Definition saveBoard (d : db) (user : option uuid) (boardId : uuid) (b : body)
    (now : Z) : db * response :=
  match user with
  | None => (d, Unauthorized)
  | Some u =>
      (match boards d !! boardId with
       | Some r =>
           if bool_decide (owner_id r = u) then
             setBoards
               (<[boardId :=
                    if hasPages d then
                      {| owner_id := owner_id r;
                         objects := Some (savedObjects b);
                         pages := Some (default [] (r_pages b));
                         board_name := Some (js_or (r_boardName b) "Untitled Board");
                         updated_at := now |}
                    else
                      {| owner_id := owner_id r;
                         objects := Some (allObjects b);
                         pages := pages r;
                         board_name := board_name r;
                         updated_at := now |}]> (boards d)) d
           else d
       | None => d
       end,
       Saved boardId)
  end.

(** [GET /:boardId] *)
Definition loadBoard (d : db) (user : option uuid) (boardId : uuid) : db * response :=
  match user with
  | None => (d, Unauthorized)
  | Some _ =>
      match boards d !! boardId with
      | None => (d, NotFound "Board not found")
      | Some r =>
          (d, Loaded boardId (owner_id r) (default [] (objects r))
                (match pages r with
                 | Some (p :: ps) => p :: ps
                 | _ => [mk_page "page-1" "Page 1" (default [] (objects r))]
                 end)
                (js_or (board_name r) "Untitled Board")
                (updated_at r))
      end
  end.

(** [DELETE /:boardId] *)
Definition deleteBoard (d : db) (user : option uuid) (boardId : uuid) : db * response :=
  match user with
  | None => (d, Unauthorized)
  | Some u =>
      match boards d !! boardId with
      | Some r =>
          if bool_decide (owner_id r = u)
          then (setBoards (delete boardId (boards d)) d, Deleted boardId)
          else (d, NotFound "Board not found or not authorized")
      | None => (d, NotFound "Board not found or not authorized")
      end
  end.

(** The requests of the router. *)
Inductive request :=
  | ListBoards
  | CreateBoard (fresh : uuid) (now : Z)
  | SaveBoard (boardId : uuid) (b : body) (now : Z)
  | LoadBoard (boardId : uuid)
  | DeleteBoard (boardId : uuid).

Definition handle (d : db) (user : option uuid) (q : request) : db * response :=
  match q with
  | ListBoards => listBoards d user
  | CreateBoard fresh now => createBoard d user fresh now
  | SaveBoard boardId b now => saveBoard d user boardId b now
  | LoadBoard boardId => loadBoard d user boardId
  | DeleteBoard boardId => deleteBoard d user boardId
  end.

Definition exec (d : db) (tr : list (option uuid * request)) : db :=
  foldl (λ s p, (handle s p.1 p.2).1) d tr.

End Model.
End Boards.

(** ** The canvas handlers of the single-page [Whiteboard] component *)
Module WhiteboardCanvas.
Import Board.
Section Model.
Context `{Numeric}.

(** [CanvasObject = DrawLine | RectShape] *)
Inductive CanvasObject :=
  | DrawLine (id : string) (points : list number) (color : string)
             (strokeWidth : number)
  | RectShape (id : string) (x y width height : number) (fill : string).

Inductive Tool := pen | rectangle.

(** The component state: the object list with its stacks, the toolbar,
    the two refs and the rectangle in progress. *)
Record state := {
  doc :> @Whiteboard.state CanvasObject;
  tool : Tool;
  color : string;
  strokeWidth : number;
  isDrawingRef : bool;
  currentLineRef : list number;
  rectStart : option point;
  drawingRect : option CanvasObject;
  socketRef : bool
}.

Inductive outbound :=
  | EmitCursorMove (x y : number)
  | EmitDraw (o : CanvasObject)
  | EmitAddObject (o : CanvasObject).

Definition emit (st : state) (e : outbound) : list outbound :=
  if socketRef st then [e] else [].

(** [handleMouseDown]; [pos] is [getPointerPosition()]. *)
Definition handleMouseDown (st : state) (pos : option point) : state :=
  match pos with
  | None => st
  | Some pos =>
      match tool st with
      | pen =>
          {| doc := doc st; tool := tool st; color := color st;
             strokeWidth := strokeWidth st; isDrawingRef := true;
             currentLineRef := [pt_x pos; pt_y pos];
             rectStart := rectStart st; drawingRect := drawingRect st;
             socketRef := socketRef st |}
      | rectangle =>
          {| doc := doc st; tool := tool st; color := color st;
             strokeWidth := strokeWidth st; isDrawingRef := isDrawingRef st;
             currentLineRef := currentLineRef st;
             rectStart := Some pos; drawingRect := drawingRect st;
             socketRef := socketRef st |}
      end
  end.

Definition rectBetween (id : string) (st : state) (start pos : point) : CanvasObject :=
  RectShape id (nmin (pt_x pos) (pt_x start)) (nmin (pt_y pos) (pt_y start))
            (nabs (nsub (pt_x pos) (pt_x start)))
            (nabs (nsub (pt_y pos) (pt_y start))) (color st).

(** [handleMouseMove]: with the pen down, every move emits the line drawn
    so far as a [draw] event. *)
Definition handleMouseMove (st : state) (pos : option point) (now : Z)
    : state * list outbound :=
  match pos with
  | None => (st, [])
  | Some pos =>
      let out0 := emit st (EmitCursorMove (pt_x pos) (pt_y pos)) in
      let drawing := match tool st with pen => isDrawingRef st | _ => false end in
      let line := if drawing then currentLineRef st ++ [pt_x pos; pt_y pos]
                  else currentLineRef st in
      let out1 :=
        if drawing
        then emit st (EmitDraw (DrawLine ("line-" +:+ pretty now) line
                                  (color st) (strokeWidth st)))
        else [] in
      let rect :=
        match tool st, rectStart st with
        | rectangle, Some start => Some (rectBetween "drawing-rect" st start pos)
        | _, _ => drawingRect st
        end in
      ({| doc := doc st; tool := tool st; color := color st;
          strokeWidth := strokeWidth st; isDrawingRef := isDrawingRef st;
          currentLineRef := line; rectStart := rectStart st;
          drawingRect := rect; socketRef := socketRef st |},
       out0 ++ out1)
  end.

(** [handleMouseUp] *)
Definition handleMouseUp (st : state) (pos : option point) (now : Z)
    : state * list outbound :=
  let '(d1, drawing1, line1, out1) :=
    match tool st, isDrawingRef st with
    | pen, true =>
        let newLine := DrawLine ("line-" +:+ pretty now) (currentLineRef st)
                                (color st) (strokeWidth st) in
        (Whiteboard.commit newLine (doc st), false, [], emit st (EmitDraw newLine))
    | _, _ => (doc st, isDrawingRef st, currentLineRef st, [])
    end in
  let '(d2, start2, rect2, out2) :=
    match tool st, rectStart st, pos with
    | rectangle, Some start, Some pos =>
        let newRect := rectBetween ("rect-" +:+ pretty now) st start pos in
        ({| Whiteboard.objects := Whiteboard.objects d1 ++ [newRect];
            Whiteboard.undoStack :=
              Whiteboard.undoStack d1 ++ [Whiteboard.objects (doc st)];
            Whiteboard.redoStack := [] |},
         None, None, emit st (EmitAddObject newRect))
    | _, _, _ => (d1, rectStart st, drawingRect st, [])
    end in
  ({| doc := d2; tool := tool st; color := color st;
      strokeWidth := strokeWidth st; isDrawingRef := drawing1;
      currentLineRef := line1; rectStart := start2; drawingRect := rect2;
      socketRef := socketRef st |},
   out1 ++ out2).

(** [socket.on('drawUpdate', ...)] and [socket.on('objectAdded', ...)] *)
Definition onDrawUpdate (data : CanvasObject) (st : state) : state :=
  {| doc := {| Whiteboard.objects := Whiteboard.objects st ++ [data];
               Whiteboard.undoStack := Whiteboard.undoStack st;
               Whiteboard.redoStack := Whiteboard.redoStack st |};
     tool := tool st; color := color st; strokeWidth := strokeWidth st;
     isDrawingRef := isDrawingRef st; currentLineRef := currentLineRef st;
     rectStart := rectStart st; drawingRect := drawingRect st;
     socketRef := socketRef st |}.

(** A gesture: press at [p0], move through [ps] (each move with its
    clock reading), release at [pend]. *)
Fixpoint moves (st : state) (ps : list (point * Z)) : state * list outbound :=
  match ps with
  | [] => (st, [])
  | p :: ps' =>
      let r := handleMouseMove st (Some p.1) p.2 in
      let r' := moves r.1 ps' in
      (r'.1, r.2 ++ r'.2)
  end.

Definition gesture (st : state) (p0 : point) (ps : list (point * Z))
    (pend : option point) (now : Z) : state * list outbound :=
  let r := moves (handleMouseDown st (Some p0)) ps in
  let r' := handleMouseUp r.1 pend now in
  (r'.1, r.2 ++ r'.2).

(** The [draw] events among the emitted ones. *)
Definition drawn (out : list outbound) : list CanvasObject :=
  omap (λ o, match o with EmitDraw d => Some d | _ => None end) out.

End Model.
End WhiteboardCanvas.

(** ** Gestures on the board canvas *)
Module Gestures.
Import Board.
Section Model.
Context `{Numeric}.

(** The flat coordinate array of a path. *)
Definition coords (ps : list point) : list number :=
  flat_map (λ p, [pt_x p; pt_y p]) ps.

(** Press at [p0], then move through [ps]. *)
Definition drag (p0 : point) (now : Z) (ps : list point) : list event :=
  MouseDown (Some p0) now :: ((λ p, MouseMove (Some p)) <$> ps).

Definition is_shape (t : ToolType) : bool :=
  match t with
  | rectangle | circle | triangle | diamond | arrow | straightline => true
  | _ => false
  end.

End Model.
End Gestures.

(** ** Saving and loading a board: the client and the routes together *)
Module Persist.
Import Board.
Section Model.
Context `{Numeric}.

(** [p.objects] of a page the client sent. *)
Definition page_objects (p : Page) : option (list CanvasObject) :=
  Some (Board.page_objects p).

(** The request body of [handleSave]:
    [JSON.stringify({ objects, pages, boardName })]. *)
Definition requestBody (b : BoardPages.save_body) : @Boards.body CanvasObject Page :=
  {| Boards.r_objects := Some (BoardPages.b_objects b);
     Boards.r_pages := Some (BoardPages.b_pages b);
     Boards.r_boardName := Some (BoardPages.b_boardName b) |}.

(** [r.ok ? r.json() : null] *)
Definition responseData (r : @Boards.response string CanvasObject Page)
    : option BoardPages.loaded :=
  match r with
  | Boards.Loaded _ ownerId objs pgs name _ =>
      Some {| BoardPages.l_pages := Some pgs; BoardPages.l_objects := Some objs;
              BoardPages.l_boardName := Some name;
              BoardPages.l_ownerId := Some ownerId |}
  | _ => None
  end.

(** The host-detection effect on the response of its own load request;
    [myId] is [user?.id]. *)
Definition detectHost (r : @Boards.response string CanvasObject Page)
    (myId : option string) (st : state) : state :=
  match responseData r with
  | None => st
  | Some data => hostDetected (BoardPages.l_ownerId data) myId st
  end.

End Model.
End Persist.

(** Decidable closed goals are settled by evaluation. *)
Ltac by_compute := apply (bool_decide_unpack _); vm_compute; exact I.

(** * Facts about plain objects *)
Section JsObjectFacts.
Context {V : Type}.
Implicit Types (k x : string) (v : V) (o : list (string * V)).

Lemma obj_set_not_nil k v o : obj_set k v o ≠ [].
Proof. destruct o as [|[k' v'] o]; simpl; [done|]. by case_decide. Qed.

Lemma elem_of_obj_keys_set k v o x :
  x ∈ obj_keys (obj_set k v o) ↔ x = k ∨ x ∈ obj_keys o.
Proof.
  unfold obj_keys. induction o as [|[k' v'] o IH]; simpl.
  - set_solver.
  - case_decide; simpl; set_solver.
Qed.

Lemma NoDup_obj_keys_set k v o :
  NoDup (obj_keys o) → NoDup (obj_keys (obj_set k v o)).
Proof.
  unfold obj_keys. induction o as [|[k' v'] o IH]; simpl; intros Hnd.
  - apply NoDup_singleton.
  - apply NoDup_cons in Hnd as [Hnotin Hnd]. case_decide; simpl.
    + subst. by apply NoDup_cons.
    + apply NoDup_cons. split; [|by apply IH].
      intros Hin. apply (elem_of_obj_keys_set k v o k') in Hin. set_solver.
Qed.

Lemma elem_of_obj_keys_delete k o x :
  x ∈ obj_keys (obj_delete k o) ↔ x ≠ k ∧ x ∈ obj_keys o.
Proof.
  unfold obj_keys. induction o as [|[k' v'] o IH]; simpl.
  - set_solver.
  - case_decide; simpl; set_solver.
Qed.

Lemma NoDup_obj_keys_delete k o :
  NoDup (obj_keys o) → NoDup (obj_keys (obj_delete k o)).
Proof.
  unfold obj_keys. induction o as [|[k' v'] o IH]; simpl; intros Hnd; [done|].
  apply NoDup_cons in Hnd as [Hnotin Hnd]. case_decide; simpl; [by apply IH|].
  apply NoDup_cons. split; [|by apply IH].
  intros Hin. apply (elem_of_obj_keys_delete k o k') in Hin. set_solver.
Qed.

Lemma Forall_obj_set (P : string * V → Prop) k v o :
  P (k, v) → Forall P o → Forall P (obj_set k v o).
Proof.
  intros Hkv. induction 1 as [|[k' v'] o Hp Ho IH]; simpl.
  - by constructor.
  - case_decide; by constructor.
Qed.

Lemma Forall_obj_delete (P : string * V → Prop) k o :
  Forall P o → Forall P (obj_delete k o).
Proof.
  induction 1 as [|[k' v'] o Hp Ho IH]; simpl; [done|].
  case_decide; [done|by constructor].
Qed.

End JsObjectFacts.

(** * The coordinator *)
Module CoordinatorFacts.
Import Coordinator.

Section Facts.
Context {data : Type}.
Abbreviation event := (@event data).
Abbreviation emission := (@emission data).
Implicit Types (st : state) (c b : string) (sk : socket) (ev : event).
Implicit Types (tr : list (string * event)).

(** ** Room membership *)


Lemma elem_of_room_sockets st b c :
  c ∈ room_sockets st b ↔ ∃ sk, sockets st !! c = Some sk ∧ (b = c ∨ b ∈ rooms sk).
Proof.
  unfold room_sockets. rewrite elem_of_dom. split.
  - intros [sk Hsk]. apply map_lookup_filter_Some in Hsk as [? ?]. eauto.
  - intros (sk & Hsk & Hb). exists sk. by apply map_lookup_filter_Some.
Qed.


(** ** Events without a listener *)

Lemma handle_unlistened st c sk ev :
  match ev with
  | SetDrawPermission _ _ _ | StickyUpdate _ | Typing _
  | BoardNameChange _ | PresenceUpdate _ => True
  | _ => False
  end →
  handle st c sk ev = (st, []).
Proof. by destruct ev. Qed.

(** ** The relay handlers *)

(** A stroke, an object or a chat message sent under a non-empty room id
    [b] leaves the state alone and reaches exactly the sockets of room [b]
    other than the sender, with the payload as it came. *)
Lemma relay_delivers st c sk ev b m :
  sockets st !! c = Some sk →
  relayed sk ev = Some (b, m) →
  b ≠ "" →
  (step st c ev).1 = st
  ∧ (step st c ev).2 = [socket_to c b m]
  ∧ ∀ c' m', receives st (step st c ev).2 c' m' ↔
             m' = m ∧ c' ∈ room_sockets st b ∧ c' ≠ c.
Proof.
  intros Hsk Hrel Hb.
  assert (Htb : truthy_str b = true).
  { unfold truthy_str. by apply negb_true_iff, String.eqb_neq. }
  assert (Hstep : step st c ev = (st, [socket_to c b m])).
  { unfold step. rewrite Hsk.
    destruct ev; simpl in Hrel; try done;
      [unfold handle, draw|unfold handle, addObject|unfold handle, chatMessage].
    - destruct (currentRoom sk); simplify_eq/=. by rewrite Htb.
    - destruct (currentRoom sk); simplify_eq/=. by rewrite Htb.
    - destruct boardId; simplify_eq/=. by rewrite Htb. }
  rewrite Hstep. simpl. split_and!; [done..|].
  intros c' m'. unfold receives. split.
  - intros (e & He & Hm & Hc). apply list_elem_of_singleton in He. subst e.
    simpl in *. unfold recipients in Hc. simpl in Hc. set_solver.
  - intros (-> & Hc & Hne). exists (socket_to c b m). split; [set_solver|].
    split; [done|]. unfold recipients. simpl. set_solver.
Qed.

(** ** The registry invariant along single-homed traces *)

Lemma step_relay_state st c ev :
  match ev with
  | Connection | JoinRoom _ _ _ | Disconnect => False
  | _ => True
  end →
  (step st c ev).1 = st.
Proof.
  intros Hev. unfold step. destruct (sockets st !! c) as [sk|]; [|by destruct ev].
  destruct ev; try done; simpl;
    unfold cursorMove, draw, addObject, chatMessage;
    repeat case_match; done.
Qed.

Lemma obj_values_ids (m : list (string * user)) :
  Forall (λ p, user_id p.2 = p.1) m → user_id <$> obj_values m = obj_keys m.
Proof.
  unfold obj_values, obj_keys. induction 1 as [|[k u] m Hk _ IH]; simpl; [done|].
  simpl in Hk. by f_equal.
Qed.




Lemma truthy_str_true b : b ≠ "" → truthy_str b = true.
Proof. intros Hb. unfold truthy_str. by apply negb_true_iff, String.eqb_neq. Qed.




Lemma exec_snoc st tr c ev :
  exec st (tr ++ [(c, ev)]) = (step (exec st tr) c ev).1.
Proof. unfold exec. by rewrite foldl_snoc. Qed.





(** ** Room entries are never empty *)

Lemma registry_nonempty_step st c ev :
  (∀ b m, roomUsers st !! b = Some m → m ≠ []) →
  ∀ b m, roomUsers (step st c ev).1 !! b = Some m → m ≠ [].
Proof.
  intros Hne. destruct ev; try (by rewrite step_relay_state);
    unfold step; destruct (sockets st !! c) as [sk|]; try done.
  - simpl. intros b m. destruct (decide (boardId = b)) as [<-|?].
    + rewrite lookup_insert_eq. intros [= <-]. apply obj_set_not_nil.
    + rewrite lookup_insert_ne by done. apply Hne.
  - simpl. unfold disconnect. destruct (currentRoom sk) as [b0|]; [|done].
    destruct (truthy_str b0), (roomUsers st !! b0) as [m0|]; try done. simpl.
    intros b m. case_decide as Hlen.
    + intros [_ ?]%lookup_delete_Some. by eapply Hne.
    + destruct (decide (b0 = b)) as [<-|?].
      * rewrite lookup_insert_eq. intros [= <-] Heq. apply Hlen. by rewrite Heq.
      * rewrite lookup_insert_ne by done. apply Hne.
Qed.

Lemma registry_nonempty_exec tr :
  ∀ b m, roomUsers (exec init tr) !! b = Some m → m ≠ [].
Proof.
  induction tr as [|[c ev] tr IH] using rev_ind.
  - intros b m. unfold exec, init. simpl. by rewrite lookup_empty.
  - rewrite exec_snoc. by apply registry_nonempty_step.
Qed.

End Facts.

(** ** Draw permission *)

(** C1. [setupSocket] registers no listener for [setDrawPermission]: when
    a connection, host or not, emits it for any target and flag, the
    coordinator changes nothing and delivers nothing, so the target never
    receives a [drawPermission] notification. *)
Theorem setDrawPermission_not_handled {data : Type} (st : state)
    (c target : string) (granted : bool) (boardId : option string) :
  step (data:=data) st c (SetDrawPermission target granted boardId) = (st, [])
  ∧ ∀ g, ¬ receives st (step (data:=data) st c
                          (SetDrawPermission target granted boardId)).2
                       target (DrawPermission g).
Proof.
  assert (Hstep : step (data:=data) st c (SetDrawPermission target granted boardId)
                  = (st, [])).
  { unfold step. by destruct (sockets st !! c). }
  split; [done|]. rewrite Hstep. intros g (e & He & _). simpl in He. set_solver.
Qed.

(** Whatever the inbound event, the coordinator emits none of
    [drawPermission], [allowedUsers], [stickyUpdated], [typing] and
    [boardNameChanged], which the client listens for. *)
Lemma step_emits_no_unlistened {data : Type} (st : state) (c : string)
    (ev : @event data) (e : @emission data) :
  e ∈ (step st c ev).2 →
  match msg e with
  | DrawPermission _ | AllowedUsers _ | StickyUpdated _ | TypingOut _
  | BoardNameChanged _ => False
  | _ => True
  end.
Proof.
  revert e. apply Forall_forall. unfold step.
  destruct (sockets st !! c) as [sk|]; [|destruct ev; constructor].
  destruct ev; simpl; try constructor;
    unfold cursorMove, draw, addObject, chatMessage, disconnect;
    repeat case_match; simpl;
    repeat first [ apply Forall_nil_2
                 | apply Forall_cons; split; [exact I|]
                 | apply Forall_app; split ];
    done.
Qed.

(** The scenario of the specification: host "H" and viewer "V" are both in
    room "abc123". The host's client toggles "V": it records the grant
    locally and emits [setDrawPermission]; the coordinator answers with
    nothing. *)
Example grant_scenario_delivers_nothing :
  let host := Board.setIsHost true
                (Board.init (H:=Board.Z_numeric) (Some "abc123") (Some "Host")
                            "#00d4ff") in
  let st := exec (data:=unit) init
              [("H", Connection); ("V", Connection);
               ("H", JoinRoom "abc123" (Some "Host") None);
               ("V", JoinRoom "abc123" (Some "Viewer") None)] in
  (Board.toggleAllowUser "V" host).2
  = [Board.EmitSetDrawPermission "V" true (Some "abc123")]
  ∧ "V" ∈ joined st "abc123"
  ∧ step (data:=unit) st "H" (SetDrawPermission "V" true (Some "abc123")) = (st, []).
Proof. split_and!; [by vm_compute|by_compute|reflexivity]. Qed.

(** ** Relay *)

(** C2. [setupSocket] registers no listener for [stickyUpdate]: a
    sticky-note text update sent by a member of a room changes nothing and
    is delivered to no connection, unlike strokes, objects and chat messages
    (lemma [relay_delivers]). *)
Theorem stickyUpdate_not_relayed {data : Type} (st : state) (c : string) (d : data) :
  step st c (StickyUpdate d) = (st, [])
  ∧ ∀ c' m, ¬ receives st (step st c (StickyUpdate d)).2 c' m.
Proof.
  assert (Hstep : step st c (StickyUpdate d) = (st, [])).
  { unfold step. by destruct (sockets st !! c). }
  split; [done|]. rewrite Hstep. intros c' m (e & He & _). simpl in He. set_solver.
Qed.

(** Two members of a room: the stroke of one reaches the other, the
    sticky-note update does not. *)
Example sticky_scenario_delivers_nothing :
  let st := exec (data:=string) init
              [("X", Connection); ("Y", Connection);
               ("X", JoinRoom "abc123" None None);
               ("Y", JoinRoom "abc123" None None)] in
  step st "X" (Draw "stroke") = (st, [socket_to "X" "abc123" (DrawUpdate "stroke")])
  ∧ "Y" ∈ recipients st (socket_to "X" "abc123" (DrawUpdate "stroke"))
  ∧ step st "X" (StickyUpdate "note text") = (st, []).
Proof.
  split_and!; [reflexivity|by_compute|reflexivity].
Qed.

(** ** Missing room id *)



(** ** The member list *)

(** Scenario 1 of the specification: "X" and "Y" join room "abc123"; the
    second join broadcasts a member list of exactly "X" and "Y", and both
    receive it. *)
Example two_joins_list_both :
  let st := exec (data:=unit) init
              [("X", Connection); ("Y", Connection);
               ("X", JoinRoom "abc123" (Some "Xavier") None)] in
  let r := step (data:=unit) st "Y" (JoinRoom "abc123" (Some "Yara") (Some "#ff6b6b")) in
  let users := [ {| user_id := "X"; user_name := "Xavier"; user_color := "#00d4ff" |};
                 {| user_id := "Y"; user_name := "Yara"; user_color := "#ff6b6b" |} ] in
  r.2 = [socket_to "Y" "abc123" (UserJoined "Yara");
         io_to "abc123" (RoomUsers users)]
  ∧ recipients r.1 (io_to (data:=unit) "abc123" (RoomUsers users)) = {["X"; "Y"]}
  ∧ recipients r.1 (socket_to (data:=unit) "Y" "abc123" (UserJoined "Yara")) = {["X"]}.
Proof. split_and!; [reflexivity|by_compute..]. Qed.




(** ** Room entries *)




End CoordinatorFacts.

(** * Arrays used as stacks *)

Lemma pop_snoc {A : Type} (l : list A) (x : A) : pop (l ++ [x]) = Some (l, x).
Proof. unfold pop. by rewrite last_snoc, removelast_last. Qed.

Lemma pop_None {A : Type} (l : list A) : pop l = None ↔ l = [].
Proof.
  unfold pop. split; [|by intros ->].
  destruct (last l) eqn:Hl; [done|]. intros _. by apply last_None.
Qed.

Lemma pop_Some {A : Type} (l s : list A) (x : A) : pop l = Some (s, x) → l = s ++ [x].
Proof.
  unfold pop. destruct (last l) as [y|] eqn:Hl; [|done]. intros [= <- <-].
  apply last_Some in Hl as [l' ->]. by rewrite removelast_last.
Qed.

(** * The board client *)
Module BoardFacts.
Import Board.

Section Facts.
Context `{Numeric}.
Implicit Types (st : state) (ps : list Page) (pid : string).
Implicit Types (upd : list CanvasObject → list CanvasObject).

(** ** The object sequence of the current page *)

Lemma find_page_update ps pid upd :
  match find (λ p, bool_decide (page_id p = pid)) ps with
  | Some p =>
      pid ∈ page_id <$> ps
      ∧ find (λ p, bool_decide (page_id p = pid))
          (map (λ p, if bool_decide (page_id p = pid)
                     then {| page_id := page_id p; page_name := page_name p;
                             page_objects := upd (page_objects p) |}
                     else p) ps)
        = Some {| page_id := page_id p; page_name := page_name p;
                  page_objects := upd (page_objects p) |}
  | None =>
      pid ∉ page_id <$> ps
      ∧ map (λ p, if bool_decide (page_id p = pid)
                  then {| page_id := page_id p; page_name := page_name p;
                          page_objects := upd (page_objects p) |}
                  else p) ps = ps
  end.
Proof.
  induction ps as [|p ps IH]; simpl.
  - split; [set_solver|done].
  - destruct (bool_decide (page_id p = pid)) eqn:Hp; simpl.
    + apply bool_decide_eq_true in Hp. split; [set_solver|].
      by rewrite bool_decide_true.
    + apply bool_decide_eq_false in Hp.
      destruct (find _ ps) as [q|]; destruct IH as [Hin IH].
      * split; [set_solver|]. by rewrite bool_decide_false.
      * split; [set_solver|]. by rewrite IH.
Qed.

Lemma objects_congr st st' :
  pages st' = pages st → currentPageId st' = currentPageId st →
  objects st' = objects st.
Proof. intros Hp Hc. unfold objects, currentPage. by rewrite Hp, Hc. Qed.

(** With a current page, [setObjects] applies the update to [objects]. *)
Lemma objects_setObjects st st' upd :
  pages st' = pages st → currentPageId st' = currentPageId st →
  has_current_page st →
  objects (setObjects (currentPageId st) upd st') = upd (objects st).
Proof.
  intros Hp Hc Hhas. unfold objects, currentPage, setObjects. simpl.
  rewrite Hp, Hc.
  pose proof (find_page_update (pages st) (currentPageId st) upd) as Hf.
  destruct (find _ (pages st)) as [p|].
  - destruct Hf as [_ ->]. done.
  - destruct Hf as [Hnot _]. done.
Qed.

(** Without one, [setObjects] changes no page. *)
Lemma pages_setObjects_no_page st st' upd :
  pages st' = pages st → ¬ has_current_page st →
  pages (setObjects (currentPageId st) upd st') = pages st.
Proof.
  intros Hp Hno. unfold setObjects. simpl. rewrite Hp.
  pose proof (find_page_update (pages st) (currentPageId st) upd) as Hf.
  destruct (find _ (pages st)) as [p|].
  - destruct Hf as [Hin _]. done.
  - by destruct Hf as [_ ->].
Qed.

Lemma has_current_page_congr st st' :
  page_id <$> pages st' = page_id <$> pages st →
  currentPageId st' = currentPageId st →
  has_current_page st' ↔ has_current_page st.
Proof. intros Hp Hc. unfold has_current_page. by rewrite Hp, Hc. Qed.

Lemma page_ids_setObjects pid upd st :
  page_id <$> pages (setObjects pid upd st) = page_id <$> pages st.
Proof.
  unfold setObjects. simpl. rewrite <-list_fmap_compose.
  apply list_fmap_ext. intros i p _. simpl. by case_bool_decide.
Qed.

(** ** Undo and redo *)

Lemma has_current_page_commit st obj :
  has_current_page (commit st obj st) ↔ has_current_page st.
Proof.
  apply has_current_page_congr; [|done].
  unfold commit. by rewrite page_ids_setObjects.
Qed.

Lemma objects_commit st obj :
  objects (commit st obj st)
  = if decide (has_current_page st) then objects st ++ [obj] else objects st.
Proof.
  unfold commit. case_decide as Hhas.
  - by rewrite objects_setObjects.
  - apply objects_congr; [|done]. by apply pages_setObjects_no_page.
Qed.

Lemma objects_handleUndo st s last :
  undoStack st = s ++ [last] →
  objects (handleUndo st) = if decide (has_current_page st) then last else objects st.
Proof.
  intros Hu. unfold handleUndo. rewrite Hu, pop_snoc.
  rewrite (objects_congr (setObjects (currentPageId st) (λ _, last)
                            (setRedoStack (redoStack st ++ [objects st]) st)))
    by done.
  case_decide as Hhas.
  - by rewrite objects_setObjects.
  - apply objects_congr; [|done]. by apply pages_setObjects_no_page.
Qed.

Lemma objects_handleRedo st s next :
  redoStack st = s ++ [next] →
  objects (handleRedo st) = if decide (has_current_page st) then next else objects st.
Proof.
  intros Hr. unfold handleRedo. rewrite Hr, pop_snoc.
  rewrite (objects_congr (setObjects (currentPageId st) (λ _, next)
                            (setUndoStack (undoStack st ++ [objects st]) st)))
    by done.
  case_decide as Hhas.
  - by rewrite objects_setObjects.
  - apply objects_congr; [|done]. by apply pages_setObjects_no_page.
Qed.

Lemma stacks_handleUndo st s last :
  undoStack st = s ++ [last] →
  undoStack (handleUndo st) = s
  ∧ redoStack (handleUndo st) = redoStack st ++ [objects st]
  ∧ currentPageId (handleUndo st) = currentPageId st
  ∧ page_id <$> pages (handleUndo st) = page_id <$> pages st.
Proof.
  intros Hu. unfold handleUndo. rewrite Hu, pop_snoc. split_and!; try done.
  exact (page_ids_setObjects (currentPageId st) (λ _, last) st).
Qed.

Lemma stacks_handleRedo st s next :
  redoStack st = s ++ [next] →
  redoStack (handleRedo st) = s
  ∧ undoStack (handleRedo st) = undoStack st ++ [objects st].
Proof. intros Hr. unfold handleRedo. by rewrite Hr, pop_snoc. Qed.

(** From any state with a snapshot to undo and a current page, redo after
    undo restores the object sequence and both stacks. *)
Lemma redo_undo_restores st :
  undoStack st ≠ [] → has_current_page st →
  objects (handleRedo (handleUndo st)) = objects st
  ∧ undoStack (handleRedo (handleUndo st)) = undoStack st
  ∧ redoStack (handleRedo (handleUndo st)) = redoStack st.
Proof.
  intros Hne Hhas.
  destruct (pop (undoStack st)) as [[s last]|] eqn:Hpop;
    [|by apply pop_None in Hpop].
  apply pop_Some in Hpop.
  destruct (stacks_handleUndo st s last Hpop) as (Hu & Hr & Hc & Hp).
  pose proof (objects_handleUndo st s last Hpop) as Ho.
  rewrite decide_True in Ho by done.
  assert (has_current_page (handleUndo st)) as Hhas'
    by by apply (has_current_page_congr st).
  destruct (stacks_handleRedo _ _ _ Hr) as (Hr' & Hu').
  rewrite (objects_handleRedo _ _ _ Hr), decide_True by done.
  by rewrite Hr', Hu', Hu, Ho, Hpop.
Qed.

(** ** The snapshot protocol in the handlers *)

Lemma emit_not_drawing st e o :
  ¬ is_drawing_event e → o ∈ emit st e → ¬ is_drawing_event o.
Proof.
  unfold emit. intros He Ho. destruct (socketRef st); [|set_solver].
  apply list_elem_of_singleton in Ho. by subst o.
Qed.

Lemma emit_drawing st e o : o ∈ emit st e → o = e.
Proof.
  unfold emit. intros Ho. destruct (socketRef st); [|set_solver].
  by apply list_elem_of_singleton in Ho.
Qed.

Ltac no_drawing_event :=
  let o := fresh "o" in
  let Ho := fresh "Ho" in
  let Hd := fresh "Hd" in
  intros o Ho Hd; simpl in Ho; rewrite ?app_nil_r in Ho;
  first [ by apply elem_of_nil in Ho
        | apply emit_drawing in Ho; subst o; exact Hd ].

Lemma handleMouseDown_protocol st pos now :
  snapshot_protocol st (handleMouseDown st pos now).
Proof.
  unfold handleMouseDown.
  destruct (negb (canDraw st) || isReadOnly);
    [left; split_and!; [done..|no_drawing_event]|].
  destruct pos as [pos|]; [|left; split_and!; [done..|no_drawing_event]].
  destruct (tool st);
    try (left; split_and!; [done..|no_drawing_event]).
  right. eexists. split_and!; [done..|].
  intros o ->%emit_drawing _. by right.
Qed.

Lemma handleMouseUp_protocol st pos now :
  snapshot_protocol st (handleMouseUp st pos now).
Proof.
  unfold handleMouseUp, finalShape, strokeObject.
  destruct (tool st), (isDrawingRef st), (shapeStart st), pos; simpl;
    repeat case_bool_decide; simpl;
    first
      [ left; split_and!; [done..|no_drawing_event]
      | right; eexists; split_and!; [done..|];
        intros o Ho Hd; rewrite ?app_nil_r in Ho;
        apply elem_of_app in Ho as [Ho|Ho];
        [apply emit_drawing in Ho; subst o; destruct Hd|];
        apply emit_drawing in Ho; subst o; first [by left|by right] ].
Qed.

Lemma handleTextSubmit_protocol st now :
  snapshot_protocol st (handleTextSubmit st now).
Proof.
  unfold handleTextSubmit.
  destruct (js_blank (textInput st)), (textPos st);
    try (left; split_and!; [done..|no_drawing_event]).
  right. eexists. split_and!; [done..|].
  intros o ->%emit_drawing _. by right.
Qed.

Lemma local_action_protocol st ev :
  is_local_action ev → snapshot_protocol st (step st ev).
Proof.
  destruct ev; try done; intros _; simpl.
  - apply handleMouseDown_protocol.
  - apply handleMouseUp_protocol.
  - apply handleTextSubmit_protocol.
Qed.

(** When a handler that follows the protocol changed a page, its snapshot
    is on top of the undo stack and the current page exists. *)
Lemma protocol_changed st r :
  snapshot_protocol st r → pages r.1 ≠ pages st →
  undoStack r.1 = undoStack st ++ [objects st]
  ∧ redoStack r.1 = []
  ∧ has_current_page st ∧ has_current_page r.1.
Proof.
  intros [(Hp & _)|(obj & Hu & Hr & Hp & Hc & _)] Hne; [done|].
  assert (has_current_page st) as Hhas.
  { destruct (decide (has_current_page st)) as [|Hno]; [done|].
    exfalso. apply Hne. rewrite Hp. by apply pages_setObjects_no_page. }
  split_and!; try done.
  apply (has_current_page_congr st r.1); [|done..].
  rewrite Hp. apply page_ids_setObjects.
Qed.

End Facts.

(** C4. For every state and every new object, undoing right after the
    local mutating action (snapshot pushed, redo cleared, object appended)
    gives back exactly the object sequence from before it; and redoing
    after that undo restores exactly the state the action had produced:
    its object sequence, its undo stack and its redo stack. The same holds
    after each handler that performs such an action and changes a page
    (stroke or shape completion, sticky placement, text placement), and for
    the single-page whiteboard, whose redo after undo restores the whole
    state. *)
Theorem undo_redo_laws `{Numeric} (st : state) (obj : CanvasObject) :
  let X := commit st obj st in
  (objects (handleUndo X) = objects st
   ∧ objects (handleRedo (handleUndo X)) = objects X
   ∧ undoStack (handleRedo (handleUndo X)) = undoStack X
   ∧ redoStack (handleRedo (handleUndo X)) = redoStack X)
  ∧ (∀ ev, is_local_action ev → pages (step st ev).1 ≠ pages st →
       let st' := (step st ev).1 in
       objects (handleUndo st') = objects st
       ∧ objects (handleRedo (handleUndo st')) = objects st'
       ∧ undoStack (handleRedo (handleUndo st')) = undoStack st'
       ∧ redoStack (handleRedo (handleUndo st')) = redoStack st')
  ∧ ∀ (A : Type) (w : @Whiteboard.state A) (o : A),
      let Y := Whiteboard.commit o w in
      Whiteboard.objects (Whiteboard.handleUndo Y) = Whiteboard.objects w
      ∧ Whiteboard.handleRedo (Whiteboard.handleUndo Y) = Y.
Proof.
  intros X. split; [|split].
  - assert (HuX : undoStack X = undoStack st ++ [objects st]) by done.
    assert (HrX : redoStack X = []) by done.
    assert (HhX : has_current_page X ↔ has_current_page st)
      by apply has_current_page_commit.
    pose proof (objects_commit st obj) as HoX. fold X in HoX.
    destruct (stacks_handleUndo X _ _ HuX) as (Hu & Hr & Hc & Hp).
    pose proof (objects_handleUndo X _ _ HuX) as Ho.
    assert (HhU : has_current_page (handleUndo X) ↔ has_current_page X)
      by by apply has_current_page_congr.
    assert (HoU : objects (handleUndo X) = objects st).
    { rewrite Ho. repeat case_decide; first [tauto|congruence]. }
    rewrite HrX in Hr. simpl in Hr.
    destruct (stacks_handleRedo (handleUndo X) [] (objects X) Hr) as (Hr' & Hu').
    pose proof (objects_handleRedo (handleUndo X) [] (objects X) Hr) as Ho'.
    split_and!.
    + done.
    + rewrite Ho'. case_decide as Hd; [done|]. rewrite Ho.
      case_decide; [tauto|done].
    + by rewrite Hu', Hu, HoU, HuX.
    + by rewrite Hr', HrX.
  - intros ev Hev Hne st'.
    destruct (protocol_changed st (step st ev) (local_action_protocol st ev Hev) Hne)
      as (Hu & Hr & Hhas & Hhas'). fold st' in Hu, Hr, Hhas'.
    split.
    + rewrite (objects_handleUndo st' _ _ Hu). by rewrite decide_True.
    + apply redo_undo_restores; [|done]. rewrite Hu. by destruct (undoStack st).
  - intros A [os us rs] o. unfold Whiteboard.commit, Whiteboard.handleUndo,
      Whiteboard.handleRedo. simpl. rewrite pop_snoc. done.
Qed.

Lemma undo_redo_laws_witness :
  let st0 := init (H:=Z_numeric) (Some "abc123") (Some "X") "#00d4ff" in
  let st := exec st0 [DrawPermission true; MouseDown (Some (Point 10 10)) 1]%Z in
  let st' := (step st (MouseUp (Some (Point 20 20)) 2)%Z).1 in
  length (objects st') = 1
  ∧ objects (handleUndo st') = objects st
  ∧ objects (handleRedo (handleUndo st')) = objects st'.
Proof.
  intros st0 st st'.
  destruct (undo_redo_laws st (@StickyNote Z_numeric "sticky-0" 0%Z 0%Z "" ""))
    as (_ & Hact & _).
  assert (Hne : pages (step st (MouseUp (Some (@Point Z_numeric 20%Z 20%Z)) 2%Z)).1
                ≠ pages st) by (vm_compute; discriminate).
  destruct (Hact (MouseUp (Some (@Point Z_numeric 20%Z 20%Z)) 2%Z) I Hne)
    as (Hundo & Hredo & _).
  split_and!; [reflexivity|exact Hundo|exact Hredo].
Defined.

(** Scenario 4 of the specification: three shapes, two undos (3 → 2 → 1
    objects), then a redo back to two, restoring the shape removed. *)
Example three_shapes_two_undos_one_redo :
  let r1 := @RectShape Z_numeric "rect-1" 0%Z 0%Z 4%Z 4%Z "#00d4ff" in
  let r2 := @RectShape Z_numeric "rect-2" 5%Z 5%Z 4%Z 4%Z "#00d4ff" in
  let r3 := @RectShape Z_numeric "rect-3" 9%Z 9%Z 4%Z 4%Z "#00d4ff" in
  let st := init (Some "abc123") (Some "X") "#00d4ff" in
  let s1 := commit st r1 st in
  let s2 := commit s1 r2 s1 in
  let s3 := commit s2 r3 s2 in
  objects s3 = [r1; r2; r3]
  ∧ objects (handleUndo s3) = [r1; r2]
  ∧ objects (handleUndo (handleUndo s3)) = [r1]
  ∧ objects (handleRedo (handleUndo (handleUndo s3))) = [r1; r2].
Proof. by vm_compute. Qed.



(** C10. With an empty undo stack [handleUndo] changes nothing, and with
    an empty redo stack [handleRedo] changes nothing: object sequence, undo
    stack and redo stack stay as they are, in the board and in the
    whiteboard. *)
Theorem undo_redo_empty_noop `{Numeric} (st : state) :
  (undoStack st = [] → handleUndo st = st)
  ∧ (redoStack st = [] → handleRedo st = st)
  ∧ ∀ (A : Type) (w : @Whiteboard.state A),
      (Whiteboard.undoStack w = [] → Whiteboard.handleUndo w = w)
      ∧ (Whiteboard.redoStack w = [] → Whiteboard.handleRedo w = w).
Proof.
  split_and!.
  - intros Hu. unfold handleUndo. by rewrite Hu.
  - intros Hr. unfold handleRedo. by rewrite Hr.
  - intros A w. split.
    + intros Hu. unfold Whiteboard.handleUndo. by rewrite Hu.
    + intros Hr. unfold Whiteboard.handleRedo. by rewrite Hr.
Qed.

Lemma undo_redo_empty_noop_witness :
  let st := init (H:=Z_numeric) (Some "abc123") (Some "X") "#00d4ff" in
  let w := {| Whiteboard.objects := [1; 2]; Whiteboard.undoStack := [];
              Whiteboard.redoStack := [] |} in
  handleUndo st = st ∧ handleRedo st = st
  ∧ Whiteboard.handleUndo w = w ∧ Whiteboard.handleRedo w = w.
Proof.
  intros st w. destruct (undo_redo_empty_noop st) as (Hu & Hr & Hw).
  destruct (Hw nat w) as [Hwu Hwr].
  split_and!; [apply Hu|apply Hr|apply Hwu|apply Hwr]; reflexivity.
Defined.

(** ** Peer events *)




(** ** Viewers *)





End BoardFacts.

(** * More on the coordinator *)
Module CoordinatorMore.
Import Coordinator CoordinatorFacts.

Section Facts.
Context {data : Type}.
Implicit Types (st : state) (c b : string) (sk : socket).

Lemma js_or_not_empty (o : option string) (d : string) : d ≠ "" → js_or o d ≠ "".
Proof.
  intros Hd. unfold js_or. destruct o as [s|]; [|done].
  unfold truthy_str. destruct (String.eqb s "") eqn:Hs; simpl; [done|].
  by apply String.eqb_neq in Hs.
Qed.

Lemma not_in_room_sockets_delete st c b ru :
  c ∉ @room_sockets {| sockets := delete c (sockets st); roomUsers := ru |} b.
Proof.
  rewrite elem_of_room_sockets. simpl. intros (sk & Hsk & _).
  by rewrite lookup_delete_eq in Hsk.
Qed.

(** What the registry holds of a user: the key is the user's id, and name
    and colour are non-empty. *)
Lemma step_entries_well_formed st c (ev : @event data) :
  (∀ b m, roomUsers st !! b = Some m →
     NoDup (obj_keys m)
     ∧ Forall (λ p, user_id p.2 = p.1 ∧ user_name p.2 ≠ "" ∧ user_color p.2 ≠ "") m) →
  ∀ b m, roomUsers (step st c ev).1 !! b = Some m →
     NoDup (obj_keys m)
     ∧ Forall (λ p, user_id p.2 = p.1 ∧ user_name p.2 ≠ "" ∧ user_color p.2 ≠ "") m.
Proof.
  intros Hinv. destruct ev; try (by rewrite step_relay_state);
    unfold step; destruct (sockets st !! c) as [sk|]; try done.
  - simpl. intros b m. destruct (decide (boardId = b)) as [<-|?].
    + rewrite lookup_insert_eq. intros [= <-].
      assert (NoDup (obj_keys (default [] (roomUsers st !! boardId)))
              ∧ Forall (λ p, user_id p.2 = p.1 ∧ user_name p.2 ≠ ""
                             ∧ user_color p.2 ≠ "")
                  (default [] (roomUsers st !! boardId))) as [Hnd Hall].
      { destruct (roomUsers st !! boardId) as [m|] eqn:Hm; simpl;
          [exact (Hinv _ _ Hm)|]. split; constructor. }
      split; [by apply NoDup_obj_keys_set|].
      apply Forall_obj_set; [|done]. simpl. split_and!; [done|..];
        by apply js_or_not_empty.
    + rewrite lookup_insert_ne by done. apply Hinv.
  - simpl. unfold disconnect. destruct (currentRoom sk) as [b0|]; [|apply Hinv].
    destruct (truthy_str b0), (roomUsers st !! b0) as [m0|] eqn:Hm0;
      try apply Hinv. simpl.
    intros b m. case_decide as Hlen.
    + intros [_ ?]%lookup_delete_Some. by eapply Hinv.
    + destruct (decide (b0 = b)) as [<-|?].
      * rewrite lookup_insert_eq. intros [= <-].
        destruct (Hinv b0 m0 Hm0) as [Hnd Hall].
        split; [by apply NoDup_obj_keys_delete|by apply Forall_obj_delete].
      * rewrite lookup_insert_ne by done. apply Hinv.
Qed.

End Facts.

(** X1. A connection never receives an echo of its own event: of all the
    messages its event makes the coordinator emit, it receives only the
    member list of the room it just joined. *)
Theorem sender_gets_no_echo {data : Type} (st : state) (c : string)
    (ev : @event data) (m : @message data) :
  receives (step st c ev).1 (step st c ev).2 c m →
  ∃ b n col users, ev = JoinRoom b n col ∧ m = RoomUsers users.
Proof.
  intros (e & He & Hm & Hc). revert He Hc. unfold step.
  destruct (sockets st !! c) as [sk|] eqn:Hsk; [|destruct ev; set_solver].
  assert (Hto : ∀ st' b' (m' : @message data),
            c ∉ recipients st' (socket_to c b' m')).
  { intros st' b' m'. unfold recipients. simpl. set_solver. }
  destruct ev; simpl; try set_solver.
  - intros [->| ->%list_elem_of_singleton]%elem_of_cons Hc;
      [by apply Hto in Hc|]. subst m. by eexists _, _, _, _.
  - unfold cursorMove. repeat case_match; simpl; try set_solver.
    intros ->%list_elem_of_singleton Hc. by apply Hto in Hc.
  - unfold draw. repeat case_match; simpl; try set_solver.
    intros ->%list_elem_of_singleton Hc. by apply Hto in Hc.
  - unfold addObject. repeat case_match; simpl; try set_solver.
    intros ->%list_elem_of_singleton Hc. by apply Hto in Hc.
  - unfold chatMessage. repeat case_match; simpl; try set_solver.
    intros ->%list_elem_of_singleton Hc. by apply Hto in Hc.
  - unfold disconnect. intros He Hc. exfalso.
    assert (∀ ru (e' : @emission data), except e' = None →
              c ∉ recipients {| sockets := delete c (sockets st); roomUsers := ru |} e')
      as Hgone.
    { intros ru e' He'. unfold recipients. rewrite He'.
      apply not_in_room_sockets_delete. }
    repeat case_match; simpl in *; try set_solver;
      repeat (apply elem_of_cons in He as [->|He];
              [by eapply Hgone in Hc|]);
      by apply elem_of_nil in He.
Qed.

Lemma sender_gets_no_echo_witness :
  let st := exec (data:=unit) init [("X", Connection)] in
  ∃ b n col users,
    JoinRoom (data:=unit) "abc123" None None = JoinRoom b n col
    ∧ RoomUsers (data:=unit)
        [ {| user_id := "X"; user_name := "User-X"; user_color := "#00d4ff" |} ]
      = RoomUsers users.
Proof.
  intros st.
  apply (sender_gets_no_echo st "X").
  eexists (io_to "abc123" _). split_and!; [|reflexivity|].
  - vm_compute. apply list_elem_of_further, list_elem_of_here.
  - by_compute.
Defined.

Section ObjectFacts.
Context {V : Type}.
Implicit Types (k : string) (v : V) (o : list (string * V)).

Lemma obj_get_Some_key k v o : obj_get k o = Some v → k ∈ obj_keys o.
Proof.
  unfold obj_keys. induction o as [|[k' v'] o IH]; simpl; [done|].
  case_decide; [subst; set_solver|]. set_solver.
Qed.

Lemma obj_delete_set_fresh k v o :
  k ∉ obj_keys o → obj_delete k (obj_set k v o) = o.
Proof.
  unfold obj_keys. induction o as [|[k' v'] o IH]; simpl; intros Hk.
  - by rewrite decide_True.
  - rewrite decide_False by set_solver. simpl.
    rewrite decide_False by set_solver. f_equal. apply IH. set_solver.
Qed.

Lemma obj_keys_set_present k v o :
  k ∈ obj_keys o → obj_keys (obj_set k v o) = obj_keys o.
Proof.
  unfold obj_keys. induction o as [|[k' v'] o IH]; simpl; intros Hk;
    [by apply elem_of_nil in Hk|].
  case_decide; simpl; [by subst|]. f_equal. apply IH. set_solver.
Qed.

Lemma obj_get_set k v o : obj_get k (obj_set k v o) = Some v.
Proof.
  induction o as [|[k' v'] o IH]; simpl.
  - by rewrite decide_True.
  - case_decide; simpl; [by rewrite decide_True|by rewrite decide_False].
Qed.

End ObjectFacts.

Lemma exec_well_formed {data : Type} (tr : list (string * @event data)) b m :
  roomUsers (exec init tr) !! b = Some m →
  NoDup (obj_keys m)
  ∧ Forall (λ p, user_id p.2 = p.1 ∧ user_name p.2 ≠ "" ∧ user_color p.2 ≠ "") m.
Proof.
  revert b m. induction tr as [|[c ev] tr IH] using rev_ind.
  - intros b m. unfold exec, init. simpl. by rewrite lookup_empty.
  - rewrite exec_snoc. by apply step_entries_well_formed.
Qed.

(** X2. In every state the coordinator reaches, whatever the clients
    send, each room entry lists a connection at most once, under its own id,
    with a non-empty name (the given one, or the "User-" default) and a
    non-empty colour. *)
Theorem registry_entries_well_formed {data : Type}
    (tr : list (string * @event data)) (b : string) (m : list (string * user)) :
  roomUsers (exec init tr) !! b = Some m →
  NoDup (user_id <$> obj_values m)
  ∧ ∀ k u, (k, u) ∈ m → user_id u = k ∧ user_name u ≠ "" ∧ user_color u ≠ "".
Proof.
  intros Hm. destruct (exec_well_formed tr b m Hm) as [Hnd Hall]. split.
  - rewrite obj_values_ids; [done|]. eapply Forall_impl; [exact Hall|].
    by intros p (? & _).
  - intros k u Hin. rewrite Forall_forall in Hall. by apply (Hall (k, u)).
Qed.

Lemma registry_entries_well_formed_witness :
  let tr := [("X", Connection); ("X", JoinRoom (data:=unit) "abc123" (Some "") None);
             ("X", JoinRoom "abc123" None (Some ""))] in
  let m := [("X", {| user_id := "X"; user_name := "User-X";
                     user_color := "#00d4ff" |})] in
  roomUsers (exec init tr) !! "abc123" = Some m
  ∧ NoDup (user_id <$> obj_values m).
Proof.
  intros tr m. split; [reflexivity|].
  refine (proj1 (registry_entries_well_formed tr "abc123" m _)).
  reflexivity.
Defined.

(** What a disconnect of a registered member emits, and who receives it. *)
Lemma disconnect_emissions {data : Type} (tr : list (string * @event data))
    (c : string) (sk : socket) (b : string) (u : user) :
  let st := exec init tr in
  sockets st !! c = Some sk →
  currentRoom sk = Some b →
  b ≠ "" →
  obj_get c (members st b) = Some u →
  let r := step (data:=data) st c Disconnect in
  r.2 = [io_to b (CursorRemove c); io_to b (UserLeft (user_name u));
         io_to b (RoomUsers (obj_values (obj_delete c (members st b))))]
  ∧ Wire.delivered r.1 r.2 c = []
  ∧ ∀ c', c' ∈ room_sockets r.1 b →
      Wire.delivered r.1 r.2 c'
      = [CursorRemove c; UserLeft (user_name u);
         RoomUsers (obj_values (obj_delete c (members st b)))].
Proof.
  intros st Hc Hcur Hb Hu r.
  assert (∃ m, roomUsers st !! b = Some m) as [m Hm].
  { unfold members in Hu. destruct (roomUsers st !! b); [by eexists|done]. }
  assert (members st b = m) as Hmem by (unfold members; by rewrite Hm).
  rewrite Hmem in *.
  destruct (exec_well_formed tr b m Hm) as [_ Hall].
  assert (user_name u ≠ "") as Hname.
  { assert (∃ k, (k, u) ∈ m) as [k Hin].
    { clear -Hu. induction m as [|[k' v'] m IH]; simpl in *; [done|].
      case_decide; simplify_eq.
      - exists k'. left.
      - destruct (IH Hu) as [k ?]. exists k. by right. }
    rewrite Forall_forall in Hall. by destruct (Hall _ Hin) as (_ & ? & _). }
  assert (Hr : r.2 = [io_to b (CursorRemove c); io_to b (UserLeft (user_name u));
                      io_to b (RoomUsers (obj_values (obj_delete c m)))]
               ∧ sockets r.1 = delete c (sockets st)).
  { subst r. unfold step. rewrite Hc. simpl. unfold disconnect.
    rewrite Hcur, (truthy_str_true b Hb), Hm, Hu. simpl.
    by rewrite (truthy_str_true _ Hname). }
  destruct Hr as [Hout Hsock]. rewrite Hout. split; [done|].
  assert (Hrec : ∀ c' (m' : @message data),
            c' ∈ recipients r.1 (io_to b m') ↔ c' ∈ room_sockets r.1 b) by done.
  split.
  - unfold Wire.delivered.
    assert (c ∉ room_sockets r.1 b) as Hnot.
    { rewrite elem_of_room_sockets, Hsock. intros (sk' & Hsk' & _).
      by rewrite lookup_delete_eq in Hsk'. }
    rewrite !filter_cons. repeat case_decide; try done.
    all: exfalso; apply Hnot; by apply Hrec in H.
  - intros c' Hc'. unfold Wire.delivered.
    rewrite !filter_cons. repeat case_decide; try done.
    all: exfalso; apply H; by apply Hrec.
Qed.

(** X3. When a registered member of a room with a non-empty id
    disconnects, the coordinator emits, to that room and in this order, the
    removal of its cursor, its departure under the name it was registered
    with, and the member list without it. The departed connection receives
    none of the three; every socket still in the room receives all three in
    that order. *)
Theorem disconnect_announces {data : Type} (tr : list (string * @event data))
    (c : string) (sk : socket) (b : string) (u : user) :
  let st := exec init tr in
  sockets st !! c = Some sk →
  currentRoom sk = Some b →
  b ≠ "" →
  obj_get c (members st b) = Some u →
  let r := step (data:=data) st c Disconnect in
  r.2 = [io_to b (CursorRemove c); io_to b (UserLeft (user_name u));
         io_to b (RoomUsers (obj_values (obj_delete c (members st b))))]
  ∧ Wire.delivered r.1 r.2 c = []
  ∧ ∀ c', c' ∈ room_sockets r.1 b →
      Wire.delivered r.1 r.2 c'
      = [CursorRemove c; UserLeft (user_name u);
         RoomUsers (obj_values (obj_delete c (members st b)))].
Proof. apply disconnect_emissions. Qed.

Lemma disconnect_announces_witness :
  let tr := [("X", Connection); ("Y", Connection);
             ("X", JoinRoom (data:=unit) "abc123" (Some "Xavier") None);
             ("Y", JoinRoom "abc123" (Some "Yara") None)] in
  let r := step (data:=unit) (exec init tr) "X" Disconnect in
  Wire.delivered r.1 r.2 "X" = []
  ∧ Wire.delivered r.1 r.2 "Y"
    = [CursorRemove "X"; UserLeft "Xavier";
       RoomUsers [ {| user_id := "Y"; user_name := "Yara";
                      user_color := "#00d4ff" |} ]].
Proof.
  intros tr r.
  destruct (disconnect_announces tr "X"
              {| currentRoom := Some "abc123"; userName := Some "Xavier";
                 userColor := Some "#00d4ff"; rooms := {["abc123"]} |}
              "abc123"
              {| user_id := "X"; user_name := "Xavier"; user_color := "#00d4ff" |})
    as (_ & Hx & Hy); [reflexivity|reflexivity|done|reflexivity|].
  split; [exact Hx|]. apply Hy. by_compute.
Defined.

(** X4. A visitor leaves no trace: from any state the coordinator
    reaches, when a new connection that is not listed in room [b] connects,
    joins [b] (non-empty id) and disconnects, the coordinator is back in
    exactly the state it was in: same sockets, same registry, and no entry
    for [b] if there was none. *)
Theorem join_leave_roundtrip {data : Type} (tr : list (string * @event data))
    (c b : string) (n col : option string) :
  let st := exec init tr in
  sockets st !! c = None →
  b ≠ "" →
  c ∉ obj_keys (members st b) →
  exec (data:=data) st
    [(c, Connection); (c, JoinRoom b n col); (c, Disconnect)] = st.
Proof.
  intros st Hc Hb Hfresh.
  pose proof (registry_nonempty_exec tr b) as Hne. fold st in Hne.
  change (exec st [(c, Connection); (c, JoinRoom b n col); (c, Disconnect)])
    with (step (data:=data)
            (step (data:=data) (step (data:=data) st c Connection).1 c
               (JoinRoom b n col)).1 c Disconnect).1.
  assert (H1 : (step st c (Connection : @event data)).1
               = {| sockets := <[c := {| currentRoom := None; userName := None;
                                         userColor := None; rooms := ∅ |}]> (sockets st);
                    roomUsers := roomUsers st |}).
  { unfold step. by rewrite Hc. }
  rewrite H1. unfold step at 2. simpl. rewrite lookup_insert_eq. simpl.
  unfold step. simpl. rewrite lookup_insert_eq. simpl.
  unfold disconnect. simpl. rewrite (truthy_str_true b Hb), lookup_insert_eq. simpl.
  unfold members in Hfresh. rewrite obj_delete_set_fresh by done.
  destruct st as [ss ru]. simpl in *. f_equal.
  - rewrite delete_insert_eq. by apply delete_insert_id.
  - destruct (ru !! b) as [m|] eqn:Hm; simpl.
    + rewrite decide_False.
      * rewrite insert_insert_eq. by apply insert_id.
      * intros Hlen. apply (Hne m eq_refl).
        unfold obj_keys in Hlen. rewrite length_fmap in Hlen.
        by apply length_zero_iff_nil.
    + by apply delete_insert_id.
Qed.

Lemma join_leave_roundtrip_witness :
  let st := exec (data:=unit) init
              [("X", Connection); ("X", JoinRoom "abc123" None None)] in
  exec (data:=unit) st
    [("V", Connection); ("V", JoinRoom "abc123" (Some "Visitor") None);
     ("V", Disconnect)] = st.
Proof.
  intros st.
  apply (join_leave_roundtrip
           [("X", Connection); ("X", JoinRoom (data:=unit) "abc123" None None)]
           "V" "abc123"); [reflexivity|done|].
  vm_compute. intros Hin. apply list_elem_of_singleton in Hin. discriminate.
Defined.

(** X5. Joining a room a connection is already listed in keeps one entry
    for it at the same place in the member list and replaces its name and
    colour by those of the new join. *)
Theorem rejoin_keeps_one_entry {data : Type} (st : state) (c b : string)
    (n col : option string) :
  is_Some (sockets st !! c) →
  c ∈ obj_keys (members st b) →
  let st' := (step (data:=data) st c (JoinRoom b n col)).1 in
  obj_keys (members st' b) = obj_keys (members st b)
  ∧ obj_get c (members st' b)
    = Some {| user_id := c;
              user_name := js_or n ("User-" +:+ String.substring 0 4 c);
              user_color := js_or col "#00d4ff" |}.
Proof.
  intros [sk Hc] Hin st'. subst st'. unfold step. rewrite Hc. simpl.
  unfold members at 1 3. simpl. rewrite lookup_insert_eq. simpl.
  unfold members in Hin. split.
  - by apply obj_keys_set_present.
  - apply obj_get_set.
Qed.

Lemma rejoin_keeps_one_entry_witness :
  let st := exec (data:=unit) init
              [("X", Connection); ("Y", Connection);
               ("X", JoinRoom "abc123" (Some "Xavier") None);
               ("Y", JoinRoom "abc123" None None)] in
  let st' := (step (data:=unit) st "X" (JoinRoom "abc123" (Some "Xena") None)).1 in
  obj_keys (members st' "abc123") = ["X"; "Y"].
Proof.
  intros st st'.
  refine (proj1 (rejoin_keeps_one_entry (data:=unit) st "X" "abc123"
                   (Some "Xena") None _ _)).
  - by eexists.
  - vm_compute. apply list_elem_of_here.
Defined.

(** X6. Chat does not need membership: a connected socket that has joined
    no room delivers a chat message to every other socket of the room its
    payload names, while its strokes and objects are dropped. *)
Theorem chat_needs_no_membership {data : Type} (st : state) (c : string)
    (sk : socket) (b : string) (m d : data) :
  sockets st !! c = Some sk →
  currentRoom sk = None →
  b ≠ "" →
  (∀ c', receives st (step st c (ChatMessage (Some b) m)).2 c' (ChatMessageOut m)
         ↔ c' ∈ room_sockets st b ∧ c' ≠ c)
  ∧ step st c (Draw d) = (st, [])
  ∧ step st c (AddObject d) = (st, []).
Proof.
  intros Hc Hcur Hb. split_and!.
  - intros c'.
    destruct (relay_delivers st c sk (ChatMessage (Some b) m) b (ChatMessageOut m)
                Hc eq_refl Hb) as (_ & _ & Hrecv).
    rewrite Hrecv. naive_solver.
  - unfold step. rewrite Hc. simpl. unfold draw. by rewrite Hcur.
  - unfold step. rewrite Hc. simpl. unfold addObject. by rewrite Hcur.
Qed.

Lemma chat_needs_no_membership_witness :
  let st := exec (data:=string) init
              [("X", Connection); ("X", JoinRoom "abc123" None None);
               ("Z", Connection)] in
  receives st (step st "Z" (ChatMessage (Some "abc123") "hello")).2 "X"
           (ChatMessageOut "hello")
  ∧ step st "Z" (Draw "stroke") = (st, []).
Proof.
  intros st.
  destruct (chat_needs_no_membership st "Z"
              {| currentRoom := None; userName := None; userColor := None;
                 rooms := ∅ |} "abc123" "hello" "stroke")
    as (Hchat & Hdraw & _); [reflexivity|reflexivity|done|].
  split; [|exact Hdraw]. apply Hchat. split; [by_compute|done].
Defined.

End CoordinatorMore.

(** * More on the board client *)
Module BoardMore.
Import Board BoardFacts.

Section Facts.
Context `{Numeric}.
Implicit Types (st : state) (ev : event).

(** Mouse, text, tool, clear, undo, redo and peer drawing events leave the
    session (role, grants, connection) as it is. *)
Lemma session_step st ev :
  match ev with
  | DrawPermission _ | HostDetected _ _ | ToggleAllowUser _ => True
  | _ => session (step st ev).1 = session st
  end.
Proof.
  destruct ev; try done; simpl.
  - unfold handleMouseDown. repeat case_match; done.
  - unfold handleMouseMove. repeat case_match; done.
  - unfold handleMouseUp, finalShape.
    destruct (tool st), (isDrawingRef st), (shapeStart st), pos; simpl;
      repeat case_bool_decide; done.
  - unfold handleTextSubmit. repeat case_match; done.
  - unfold clearCanvas. by case_match.
  - unfold selectTool. repeat case_match; done.
  - unfold handleUndo. repeat case_match; done.
  - unfold handleRedo. repeat case_match; done.
Qed.

Lemma isHost_step st ev : isHost st = true → isHost (step st ev).1 = true.
Proof.
  intros Hh. pose proof (session_step st ev) as Hs.
  destruct ev; try (by rewrite Hs); simpl.
  - done.
  - unfold hostDetected. by case_match.
  - done.
Qed.

Lemma session_page_step st (ev : BoardPages.event) st' :
  BoardPages.step st ev = Some st' →
  match ev with
  | BoardPages.Canvas _ => True
  | _ => session st' = session st
  end.
Proof.
  destruct ev; simpl; try done.
  - by intros [= <-].
  - unfold BoardPages.deletePage. repeat case_match; intros [= <-]; done.
  - intros [= <-]. unfold BoardPages.renamePage. by case_match.
  - intros [= <-]. unfold BoardPages.selectPage. by case_match.
  - intros [= <-]. unfold BoardPages.onBoardLoaded. repeat case_match; done.
Qed.

End Facts.

(** X8. The host stays host: once [isHost] is set, no sequence of canvas,
    page, peer or permission events (a revocation included) clears it, so
    the host can draw throughout the session. *)
Theorem host_is_permanent `{Numeric} (st : state) (tr : list BoardPages.event)
    (st' : state) :
  BoardPages.exec st tr = Some st' →
  isHost st = true →
  isHost st' = true ∧ canDraw st' = true.
Proof.
  revert st. induction tr as [|ev tr IH]; intros st; simpl.
  - intros [= <-] Hh. unfold canDraw. by rewrite Hh.
  - destruct (BoardPages.step st ev) as [st1|] eqn:Hstep; [|done].
    intros Hex Hh. apply (IH st1 Hex).
    pose proof (session_page_step st ev st1 Hstep) as Hs.
    destruct ev; try (by rewrite Hs).
    simpl in Hstep. injection Hstep as <-. by apply isHost_step.
Qed.

Lemma host_is_permanent_witness :
  let st0 := init (H:=Z_numeric) (Some "abc123") (Some "Host") "#00d4ff" in
  let st := hostDetected (Some "u-1") (Some "u-1") st0 in
  let tr := [BoardPages.Canvas (DrawPermission false); BoardPages.AddPage 5%Z;
             BoardPages.Canvas (HostDetected (Some "u-2") (Some "u-1"));
             BoardPages.DeletePage "page-1"] in
  ∃ st', BoardPages.exec st tr = Some st'
         ∧ isHost st' = true ∧ canDraw st' = true.
Proof.
  intros st0 st tr. eexists. split; [reflexivity|].
  eapply (host_is_permanent st tr); reflexivity.
Defined.

(** X9. Only a [drawPermission] message or the host detection changes
    whether a participant may draw: every other event of the canvas and of
    the page bar (mouse, text, tool, clear, undo, redo, peer strokes, the
    host's own toggling of others, page operations, a board load) leaves
    [isHost], [isAllowedToDraw] and [canDraw] as they are. *)
Theorem capability_changes_only_by_grant `{Numeric} (st : state)
    (ev : BoardPages.event) (st' : state) :
  BoardPages.step st ev = Some st' →
  (∀ g, ev ≠ BoardPages.Canvas (DrawPermission g)) →
  (∀ o m, ev ≠ BoardPages.Canvas (HostDetected o m)) →
  isHost st' = isHost st
  ∧ isAllowedToDraw st' = isAllowedToDraw st
  ∧ canDraw st' = canDraw st.
Proof.
  intros Hstep Hperm Hhost.
  assert (isHost st' = isHost st ∧ isAllowedToDraw st' = isAllowedToDraw st)
    as [Hh Ha]; [|unfold canDraw; by rewrite Hh, Ha].
  pose proof (session_page_step st ev st' Hstep) as Hs.
  destruct ev as [| | | | |cev]; try (by rewrite Hs).
  simpl in Hstep. injection Hstep as <-.
  pose proof (session_step st cev) as Hc.
  destruct cev; try (by rewrite Hc).
  - done.
  - by destruct (Hhost ownerId myId).
  - by destruct (Hperm granted).
Qed.

Lemma capability_changes_only_by_grant_witness :
  let st := init (H:=Z_numeric) (Some "abc123") (Some "V") "#ff6b6b" in
  let st' := (step st (SelectTool sticky)).1 in
  BoardPages.step st (BoardPages.Canvas (SelectTool sticky)) = Some st'
  ∧ canDraw st' = false.
Proof.
  intros st st'. split; [reflexivity|].
  destruct (capability_changes_only_by_grant st
              (BoardPages.Canvas (SelectTool sticky)) st' eq_refl)
    as (_ & _ & Hc); [done|done|].
  rewrite Hc. reflexivity.
Defined.

(** X10. Toggling draw access for the same user twice brings the host's
    client back to the state it was in, and the two [setDrawPermission]
    events it emits carry opposite flags: a grant then a revocation for a
    user not yet allowed, the reverse for one already allowed. *)
Theorem toggleAllowUser_involution `{Numeric} (st : state) (userId : string) :
  let r1 := toggleAllowUser userId st in
  let r2 := toggleAllowUser userId r1.1 in
  r2.1 = st
  ∧ r1.2 = emit st (EmitSetDrawPermission userId
                      (negb (bool_decide (userId ∈ allowedUserIds st))) (boardId st))
  ∧ r2.2 = emit st (EmitSetDrawPermission userId
                      (bool_decide (userId ∈ allowedUserIds st)) (boardId st)).
Proof.
  intros r1 r2. subst r1 r2. unfold toggleAllowUser. simpl.
  destruct st as [tb g d [h a ids sr bid un mc]]. simpl.
  destruct (decide (userId ∈ ids)) as [Hin|Hnot].
  - rewrite (bool_decide_true (userId ∈ ids)) by done. simpl.
    rewrite bool_decide_false by set_solver. simpl. split_and!; try done.
    unfold setAllowedUserIds, withSession. simpl. do 2 f_equal.
    apply set_eq. intros x. rewrite elem_of_union, elem_of_difference,
      elem_of_singleton. destruct (decide (x = userId)); naive_solver.
  - rewrite (bool_decide_false (userId ∈ ids)) by done. simpl.
    rewrite bool_decide_true by set_solver. simpl. split_and!; try done.
    unfold setAllowedUserIds, withSession. simpl. do 2 f_equal.
    apply set_eq. intros x. rewrite elem_of_difference, elem_of_union,
      elem_of_singleton. naive_solver.
Qed.

Section StickyFacts.
Context `{Numeric}.

(** A sticky-text update as a function on one object sequence. *)
Lemma sticky_map_ids (id txt : string) (os : list CanvasObject) :
  obj_id <$> map (λ o, match o with
                       | StickyNote id' x y _ bg =>
                           if bool_decide (id' = id) then StickyNote id' x y txt bg
                           else o
                       | _ => o
                       end) os
  = obj_id <$> os.
Proof.
  induction os as [|o os IH]; simpl; [done|]. f_equal; [|done].
  destruct o; simpl; try done. by case_bool_decide.
Qed.

Lemma sticky_map_idemp (id txt : string) (os : list CanvasObject) :
  let f := (λ o, match o with
                 | StickyNote id' x y _ bg =>
                     if bool_decide (id' = id) then StickyNote id' x y txt bg else o
                 | _ => o
                 end) in
  map f (map f os) = map f os.
Proof.
  intros f. induction os as [|o os IH]; simpl; [done|]. f_equal; [|done].
  subst f. simpl.
  destruct o; simpl; try done. case_bool_decide; simpl; [|by rewrite bool_decide_false].
  by rewrite bool_decide_true.
Qed.

Lemma setObjects_setObjects pid f g st :
  setObjects pid f (setObjects pid g st) = setObjects pid (f ∘ g) st.
Proof.
  unfold setObjects, setPages, withDocument. simpl. do 2 f_equal.
  induction (pages st) as [|p ps IH]; simpl; [done|]. f_equal; [|done].
  destruct (decide (page_id p = pid)) as [Hp|Hp].
  - rewrite (bool_decide_true (page_id p = pid)) by done. simpl.
    by rewrite bool_decide_true.
  - rewrite (bool_decide_false (page_id p = pid)) by done.
    by rewrite bool_decide_false.
Qed.

Lemma setObjects_ext pid f g st :
  (∀ os, f os = g os) → setObjects pid f st = setObjects pid g st.
Proof.
  intros Hfg. unfold setObjects. f_equal.
  induction (pages st) as [|p ps IH]; simpl; [done|]. f_equal; [|done].
  case_bool_decide; [|done]. by rewrite Hfg.
Qed.

End StickyFacts.

(** X11. A sticky-text update from a peer touches text only: it keeps
    every page, and on every page the number, order and ids of the objects;
    objects that are not sticky notes with the given id stay as they are;
    undo and redo stacks are untouched; and receiving the same update twice
    is the same as receiving it once. *)
Theorem stickyUpdated_touches_text_only `{Numeric} (st : state)
    (pid id txt : string) :
  let st' := onStickyUpdated pid id txt st in
  page_id <$> pages st' = page_id <$> pages st
  ∧ (∀ i p', pages st' !! i = Some p' →
       ∃ p, pages st !! i = Some p
            ∧ obj_id <$> page_objects p' = obj_id <$> page_objects p
            ∧ ∀ j o, page_objects p !! j = Some o →
                (∀ x y t bg, o ≠ StickyNote id x y t bg) →
                page_objects p' !! j = Some o)
  ∧ undoStack st' = undoStack st ∧ redoStack st' = redoStack st
  ∧ onStickyUpdated pid id txt st' = st'.
Proof.
  intros st'. split_and!; try done.
  - apply page_ids_setObjects.
  - intros i p' Hp'. subst st'. unfold onStickyUpdated, setObjects in Hp'.
    simpl in Hp'. apply list_lookup_fmap_Some in Hp' as (p & -> & Hp).
    exists p. split; [done|]. case_bool_decide; simpl; [|by split; [|intros]].
    split; [apply sticky_map_ids|].
    intros j o Ho Hns. rewrite list_lookup_fmap, Ho. simpl. f_equal.
    destruct o; try done. case_bool_decide; [|done]. subst.
    by edestruct Hns.
  - subst st'. unfold onStickyUpdated. rewrite setObjects_setObjects.
    apply setObjects_ext. intros os. apply sticky_map_idemp.
Qed.

Section PageFacts.
Context `{Numeric}.

Lemma find_page_NoDup (l : list Page) (p : Page) (cp : string) :
  NoDup (page_id <$> l) → p ∈ l → page_id p = cp →
  find (λ q, bool_decide (page_id q = cp)) l = Some p.
Proof.
  induction l as [|q l IH]; simpl; intros Hnd Hin Hid;
    [by apply elem_of_nil in Hin|].
  apply NoDup_cons in Hnd as [Hq Hnd].
  apply elem_of_cons in Hin as [->|Hin].
  - by rewrite bool_decide_true.
  - rewrite bool_decide_false; [by apply IH|].
    intros Hqc. destruct Hq. rewrite Hqc, <-Hid. by apply list_elem_of_fmap_2.
Qed.

Lemma state_ext (st st' : state) :
  toolbar st' = toolbar st → gesture st' = gesture st → session st' = session st →
  pages st' = pages st → currentPageId st' = currentPageId st →
  undoStack st' = undoStack st → redoStack st' = redoStack st →
  st' = st.
Proof. destruct st as [? ? [] ?], st' as [? ? [] ?]; simpl; congruence. Qed.

(** With distinct page ids, an update that fixes the current object
    sequence fixes the state. *)
Lemma setObjects_fix (st : state) upd :
  NoDup (page_id <$> pages st) → upd (objects st) = objects st →
  setObjects (currentPageId st) upd st = st.
Proof.
  intros Hnd Hupd. apply state_ext; try done.
  unfold setObjects. simpl. apply list_eq. intros i.
  rewrite list_lookup_fmap. destruct (pages st !! i) as [p|] eqn:Hp; simpl; [|done].
  f_equal. case_bool_decide as Hid; [|done].
  assert (objects st = page_objects p) as Ho.
  { unfold objects, currentPage.
    by rewrite (find_page_NoDup _ p _ Hnd (list_elem_of_lookup_2 _ _ _ Hp) Hid). }
  rewrite <-Ho, Hupd, Ho. by destruct p.
Qed.

Lemma pages_ok_congr (st st' : state) :
  page_id <$> pages st' = page_id <$> pages st →
  currentPageId st' = currentPageId st →
  BoardPages.pages_ok st → BoardPages.pages_ok st'.
Proof.
  intros Hp Hc (Hne & Hnd & Hhas). split_and!.
  - intros Hnil. rewrite Hnil in Hp. simpl in Hp.
    symmetry in Hp. by apply fmap_nil_inv in Hp.
  - by rewrite Hp.
  - by apply (has_current_page_congr st st').
Qed.

Lemma pages_ok_handleUndo (st : state) :
  BoardPages.pages_ok st → BoardPages.pages_ok (handleUndo st).
Proof.
  intros Hok. destruct (pop (undoStack st)) as [[s last]|] eqn:Hpop.
  - apply pop_Some in Hpop.
    destruct (stacks_handleUndo st s last Hpop) as (_ & _ & Hc & Hp).
    by apply (pages_ok_congr st).
  - unfold handleUndo. by rewrite Hpop.
Qed.

Lemma handleRedo_handleUndo (st : state) :
  BoardPages.pages_ok st → undoStack st ≠ [] → handleRedo (handleUndo st) = st.
Proof.
  intros (Hne & Hnd & Hhas) Hu.
  destruct (pop (undoStack st)) as [[s last]|] eqn:Hpop;
    [|by apply pop_None in Hpop].
  apply pop_Some in Hpop.
  destruct (stacks_handleUndo st s last Hpop) as (HuX & HrX & HcX & _).
  pose proof (objects_handleUndo st s last Hpop) as HoX.
  rewrite decide_True in HoX by done.
  assert (handleUndo st
          = setUndoStack s
              (setObjects (currentPageId st) (λ _, last)
                 (setRedoStack (redoStack st ++ [objects st]) st))) as HX.
  { unfold handleUndo. by rewrite Hpop, pop_snoc. }
  unfold handleRedo. rewrite HrX, pop_snoc, HuX, HcX, HoX, HX.
  apply state_ext; try done.
  - change (pages (setObjects (currentPageId st) (λ _, objects st)
                     (setObjects (currentPageId st) (λ _, last) st)) = pages st).
    rewrite setObjects_setObjects. by rewrite setObjects_fix.
Qed.

Lemma iter_redo_undo (n : nat) : ∀ st : state,
  BoardPages.pages_ok st → n ≤ length (undoStack st) →
  Nat.iter n handleRedo (Nat.iter n handleUndo st) = st.
Proof.
  induction n as [|n IH]; intros st Hok Hn; [done|].
  assert (undoStack st ≠ []) as Hne.
  { intros Hnil. rewrite Hnil in Hn. simpl in Hn. lia. }
  rewrite (Nat.iter_succ_r _ handleUndo), (Nat.iter_succ _ handleRedo).
  rewrite IH.
  - by apply handleRedo_handleUndo.
  - by apply pages_ok_handleUndo.
  - destruct (pop (undoStack st)) as [[s last]|] eqn:Hpop;
      [|by apply pop_None in Hpop].
    apply pop_Some in Hpop.
    destruct (stacks_handleUndo st s last Hpop) as (-> & _).
    rewrite Hpop, length_app in Hn. simpl in Hn. lia.
Qed.

End PageFacts.

Section StackFacts.
Context `{Numeric}.

Lemma iter_undo_lengths (n : nat) : ∀ st : state,
  n ≤ length (undoStack st) →
  length (undoStack (Nat.iter n handleUndo st)) = length (undoStack st) - n
  ∧ length (redoStack (Nat.iter n handleUndo st)) = length (redoStack st) + n.
Proof.
  induction n as [|n IH]; intros st Hn; simpl; [lia|].
  destruct (IH st ltac:(lia)) as [Hu Hr].
  destruct (pop (undoStack (Nat.iter n handleUndo st))) as [[s last]|] eqn:Hpop.
  - apply pop_Some in Hpop.
    destruct (stacks_handleUndo _ s last Hpop) as (-> & -> & _).
    rewrite Hpop in Hu. rewrite !length_app in *. simpl in *. lia.
  - apply pop_None in Hpop. rewrite Hpop in Hu. simpl in Hu. lia.
Qed.

End StackFacts.

(** X12. Undo and redo are exact inverses on a well-formed board: while
    the page ids are distinct and the current page exists, [n] undos (for
    any [n] up to the number of snapshots) followed by [n] redos give back
    the very state they started from, pages, stacks and all; the [n] undos
    consume [n] snapshots and leave [n] more states to redo. *)
Theorem undo_redo_identity `{Numeric} (st : state) (n : nat) :
  BoardPages.pages_ok st → n ≤ length (undoStack st) →
  Nat.iter n handleRedo (Nat.iter n handleUndo st) = st
  ∧ length (undoStack (Nat.iter n handleUndo st)) = length (undoStack st) - n
  ∧ length (redoStack (Nat.iter n handleUndo st)) = length (redoStack st) + n.
Proof.
  intros Hok Hn. split; [by apply iter_redo_undo|by apply iter_undo_lengths].
Qed.

Lemma undo_redo_identity_witness :
  let st0 := init (H:=Z_numeric) (Some "abc123") (Some "X") "#00d4ff" in
  let st := exec st0 [DrawPermission true;
                       MouseDown (Some (Point 10 10)) 1;
                       MouseUp (Some (Point 20 20)) 2;
                       SelectTool rectangle;
                       MouseDown (Some (Point 1 1)) 3;
                       MouseUp (Some (Point 5 5)) 4]%Z in
  length (undoStack st) = 2
  ∧ Nat.iter 2 handleRedo (Nat.iter 2 handleUndo st) = st.
Proof.
  intros st0 st. split; [reflexivity|].
  apply (undo_redo_identity st 2).
  - split; [|split].
    + vm_compute. discriminate.
    + vm_compute. apply NoDup_singleton.
    + by_compute.
  - vm_compute. lia.
Defined.

Section EditFacts.
Context `{Numeric}.

Lemma find_object_NoDup (l : list CanvasObject) (o : CanvasObject) (id : string) :
  NoDup (obj_id <$> l) → o ∈ l → obj_id o = id →
  find (λ q, bool_decide (obj_id q = id)) l = Some o.
Proof.
  induction l as [|q l IH]; simpl; intros Hnd Hin Hid;
    [by apply elem_of_nil in Hin|].
  apply NoDup_cons in Hnd as [Hq Hnd].
  apply elem_of_cons in Hin as [->|Hin].
  - by rewrite bool_decide_true.
  - rewrite bool_decide_false; [by apply IH|].
    intros Hqc. destruct Hq. rewrite Hqc, <-Hid. by apply list_elem_of_fmap_2.
Qed.

(** [setObjects] on the current page keeps the ids of the current
    objects when the update does. *)
Lemma objects_ids_setObjects (st : state) upd :
  (∀ os, obj_id <$> upd os = obj_id <$> os) →
  obj_id <$> objects (setObjects (currentPageId st) upd st) = obj_id <$> objects st.
Proof.
  intros Hupd. destruct (decide (has_current_page st)) as [Hhas|Hno].
  - by rewrite objects_setObjects.
  - f_equal. apply objects_congr; [|done]. by apply pages_setObjects_no_page.
Qed.

End EditFacts.

(** X13. Saving a sticky-note edit applies to the local board exactly
    what the [stickyUpdated] listener applies at a peer, announces it as
    one [stickyUpdate] event (when connected) and closes the editor. It is
    not gated by the draw permission, it takes no undo snapshot and leaves
    the redo stack alone, and it keeps the ids of the objects. *)
Theorem sticky_edit_bypasses_history `{Numeric} (st : state)
    (ed : BoardSticky.edit) (id : string) :
  BoardSticky.editingStickyId ed = Some id → id ≠ "" →
  let r := BoardSticky.saveStickyEdit st ed in
  r.1.1 = onStickyUpdated (currentPageId st) id (BoardSticky.stickyEditText ed) st
  ∧ BoardSticky.editingStickyId r.1.2 = None
  ∧ r.2 = (if socketRef st
           then [BoardSticky.EmitStickyUpdate id (BoardSticky.stickyEditText ed)]
           else [])
  ∧ undoStack r.1.1 = undoStack st ∧ redoStack r.1.1 = redoStack st
  ∧ obj_id <$> objects r.1.1 = obj_id <$> objects st.
Proof.
  intros Hed Hid r. subst r. unfold BoardSticky.saveStickyEdit.
  rewrite Hed. simpl. rewrite (CoordinatorFacts.truthy_str_true id) by done. simpl.
  split_and!; try done.
  apply objects_ids_setObjects. intros os. apply sticky_map_ids.
Qed.

Lemma sticky_edit_bypasses_history_witness :
  let st0 := init (H:=Z_numeric) (Some "abc123") (Some "V") "#ff6b6b" in
  let st := exec st0 [ObjectAdded "page-1"
                        (StickyNote "sticky-7" 4 4 "Double-click to edit" "#ffd43b")]%Z in
  let ed := BoardSticky.handleDblClick (Some "sticky-7") st
              {| BoardSticky.editingStickyId := None;
                 BoardSticky.stickyEditText := "" |} in
  let ed' := {| BoardSticky.editingStickyId := BoardSticky.editingStickyId ed;
                BoardSticky.stickyEditText := "hello" |} in
  let r := BoardSticky.saveStickyEdit st ed' in
  canDraw st = false
  ∧ objects r.1.1 = [StickyNote "sticky-7" 4 4 "hello" "#ffd43b"]%Z
  ∧ undoStack r.1.1 = [].
Proof.
  intros st0 st ed ed' r.
  destruct (sticky_edit_bypasses_history st ed' "sticky-7") as (Hs & _ & _ & Hu & _);
    [reflexivity|done|].
  split; [reflexivity|]. split; [|exact Hu].
  subst r. rewrite Hs. reflexivity.
Defined.

(** X14. Opening the editor on a sticky note and saving without typing
    changes nothing: on a well-formed board whose current objects have
    distinct ids, a double click (on a note, on another object or on the
    empty canvas) followed by a save gives back the state as it was. *)
Theorem sticky_open_save_roundtrip `{Numeric} (st : state)
    (ed : BoardSticky.edit) (target : option string) :
  BoardPages.pages_ok st →
  NoDup (obj_id <$> objects st) →
  BoardSticky.editingStickyId ed = None →
  (BoardSticky.saveStickyEdit st (BoardSticky.handleDblClick target st ed)).1.1 = st.
Proof.
  intros (_ & Hnd & _) Hids Hed.
  assert ((BoardSticky.saveStickyEdit st ed).1.1 = st) as Hclosed.
  { unfold BoardSticky.saveStickyEdit. by rewrite Hed. }
  unfold BoardSticky.handleDblClick.
  destruct target as [id|]; [|done].
  destruct (BoardSticky.findObject id (objects st)) as [o1|] eqn:Hfind; [|done].
  destruct o1; try done.
  unfold BoardSticky.saveStickyEdit. simpl.
  destruct (truthy_str id); simpl; [|done].
  apply setObjects_fix; [done|].
  apply list_eq. intros i. rewrite list_lookup_fmap.
  destruct (objects st !! i) as [o|] eqn:Ho; simpl; [|done]. f_equal.
  destruct o; try done. case_bool_decide as Hsame; [|done]. subst.
  unfold BoardSticky.findObject in Hfind.
  pose proof (find_object_NoDup _ _ _ Hids (list_elem_of_lookup_2 _ _ _ Ho) eq_refl)
    as Hf.
  simpl in Hf. rewrite Hf in Hfind. by injection Hfind as <- <- <- <-.
Qed.

Lemma sticky_open_save_roundtrip_witness :
  let st0 := init (H:=Z_numeric) (Some "abc123") (Some "X") "#00d4ff" in
  let st := exec st0 [DrawPermission true; SelectTool sticky;
                       MouseDown (Some (Point 4 4)) 7]%Z in
  let ed := {| BoardSticky.editingStickyId := None;
               BoardSticky.stickyEditText := "" |} in
  let ed' := BoardSticky.handleDblClick (Some "sticky-7") st ed in
  BoardSticky.editingStickyId ed' = Some "sticky-7"
  ∧ (BoardSticky.saveStickyEdit st ed').1.1 = st.
Proof.
  intros st0 st ed ed'. split; [reflexivity|].
  apply (sticky_open_save_roundtrip st ed (Some "sticky-7")).
  - split; [|split].
    + vm_compute. discriminate.
    + vm_compute. apply NoDup_singleton.
    + by_compute.
  - vm_compute. apply NoDup_singleton.
  - reflexivity.
Defined.

(** X15. Clearing the canvas is local and undoable: the Clear action
    emits nothing, so no peer is told; for a viewer it does nothing; for a
    participant who may draw, on a well-formed board, it empties the
    current page after pushing a snapshot, and one undo gives back the
    state before the clear, with the empty page left to redo. *)
Theorem clear_is_local_and_undoable `{Numeric} (st : state) :
  (step st ClearCanvas).2 = []
  ∧ (canDraw st = false → clearCanvas st = st)
  ∧ (canDraw st = true → BoardPages.pages_ok st →
       objects (clearCanvas st) = []
       ∧ undoStack (clearCanvas st) = undoStack st ++ [objects st]
       ∧ handleUndo (clearCanvas st) = setRedoStack [[]] st).
Proof.
  split; [done|]. split.
  - intros Hc. unfold clearCanvas. by rewrite Hc.
  - intros Hc (_ & Hnd & Hhas). unfold clearCanvas. rewrite Hc.
    assert (objects (setObjects (currentPageId st) (λ _, [])
                       (saveToUndo (objects st) st)) = []) as Ho.
    { by rewrite objects_setObjects. }
    split; [done|]. split; [done|].
    unfold handleUndo. simpl. rewrite pop_snoc, Ho.
    apply state_ext; try done.
    change (pages (setObjects (currentPageId st) (λ _, objects st)
                     (setObjects (currentPageId st) (λ _, []) st)) = pages st).
    rewrite setObjects_setObjects. by rewrite setObjects_fix.
Qed.

Lemma clear_is_local_and_undoable_witness :
  let st0 := init (H:=Z_numeric) (Some "abc123") (Some "X") "#00d4ff" in
  let st := exec st0 [DrawPermission true;
                       MouseDown (Some (Point 10 10)) 1;
                       MouseUp (Some (Point 20 20)) 2]%Z in
  length (objects st) = 1
  ∧ objects (clearCanvas st) = []
  ∧ objects (handleUndo (clearCanvas st)) = objects st.
Proof.
  intros st0 st.
  destruct (clear_is_local_and_undoable st) as (_ & _ & Hc).
  destruct Hc as (Ho & _ & Hu); [reflexivity| |].
  - split; [|split].
    + vm_compute. discriminate.
    + vm_compute. apply NoDup_singleton.
    + by_compute.
  - split; [reflexivity|]. split; [exact Ho|]. rewrite Hu. reflexivity.
Defined.

Section GestureFacts.
Context `{Numeric}.

(** A move changes the live points and the preview only. *)
Lemma handleMouseMove_frame (st : state) pos :
  let st' := (handleMouseMove st pos).1 in
  toolbar st' = toolbar st ∧ document st' = document st ∧ session st' = session st
  ∧ shapeStart st' = shapeStart st ∧ isDrawingRef st' = isDrawingRef st
  ∧ livePointsRef st'
    = match pos with
      | Some p => if is_freehand (tool st) && isDrawingRef st
                  then livePointsRef st ++ [pt_x p; pt_y p] else livePointsRef st
      | None => livePointsRef st
      end.
Proof.
  unfold handleMouseMove. destruct pos as [p|]; [|done].
  destruct (is_freehand (tool st) && isDrawingRef st);
    (destruct (shapeStart st) as [start|] eqn:Hstart; simpl;
     [destruct (previewShape st start p)|]; simpl; split_and!; done).
Qed.

Lemma moves_frame (ps : list point) : ∀ st : state,
  let st' := exec st ((λ p, MouseMove (Some p)) <$> ps) in
  toolbar st' = toolbar st ∧ document st' = document st ∧ session st' = session st
  ∧ shapeStart st' = shapeStart st ∧ isDrawingRef st' = isDrawingRef st
  ∧ livePointsRef st'
    = if is_freehand (tool st) && isDrawingRef st
      then livePointsRef st ++ Gestures.coords ps else livePointsRef st.
Proof.
  induction ps as [|p ps IH]; intros st; cbv zeta.
  - simpl. split_and!; try done. case_match; [|done]. by rewrite app_nil_r.
  - destruct (handleMouseMove_frame st (Some p)) as (Ht & Hd & Hs & Hsh & Hdr & Hl).
    destruct (IH (handleMouseMove st (Some p)).1) as (Ht' & Hd' & Hs' & Hsh' & Hdr' & Hl').
    change (exec st ((λ p, MouseMove (Some p)) <$> p :: ps))
      with (exec (handleMouseMove st (Some p)).1 ((λ p, MouseMove (Some p)) <$> ps)).
    split_and!; try congruence.
    rewrite Hl', Ht, Hdr, Hl.
    destruct (is_freehand (tool st) && isDrawingRef st); [|done].
    simpl. by rewrite <-app_assoc.
Qed.


Lemma finalShape_shape (st : state) start pos now :
  Gestures.is_shape (tool st) = true → is_Some (finalShape st start pos now).
Proof. unfold finalShape. by destruct (tool st). Qed.


Lemma finalShape_congr (st st' : state) start pos now :
  toolbar st' = toolbar st →
  finalShape st' start pos now = finalShape st start pos now.
Proof. intros Ht. unfold finalShape, getDash. by rewrite Ht. Qed.

End GestureFacts.

Section ReleaseFacts.
Context `{Numeric}.


Lemma handleMouseUp_shape (s : state) start pos now :
  Gestures.is_shape (tool s) = true → shapeStart s = Some start →
  ∃ obj, finalShape s start pos now = Some obj
    ∧ let r := handleMouseUp s (Some pos) now in
      pages r.1 = pages (setObjects (currentPageId s) (λ prev, prev ++ [obj]) s)
      ∧ undoStack r.1 = undoStack s ++ [objects s] ∧ redoStack r.1 = []
      ∧ shapeStart r.1 = None ∧ preview r.1 = None
      ∧ r.2 = emit s (EmitPresenceUpdate false) ++ emit s (EmitAddObject obj).
Proof.
  intros Hs Hstart.
  destruct (finalShape_shape s start pos now Hs) as [obj Hobj].
  exists obj. split; [done|].
  assert (is_freehand (tool s) = false) as Hf by (by destruct (tool s)).
  unfold handleMouseUp. rewrite Hf, Hstart, Hobj. simpl. done.
Qed.

Lemma handleMouseUp_shape_no_pos (s : state) now :
  Gestures.is_shape (tool s) = true →
  let r := handleMouseUp s None now in
  r.1 = s ∧ r.2 = emit s (EmitPresenceUpdate false).
Proof.
  intros Hs.
  assert (is_freehand (tool s) = false) as Hf by (by destruct (tool s)).
  unfold handleMouseUp. rewrite Hf. simpl.
  destruct (shapeStart s); simpl; by rewrite app_nil_r.
Qed.

Lemma emit_congr (st st' : state) e :
  session st' = session st → emit st' e = emit st e.
Proof. intros Hs. unfold emit. by rewrite Hs. Qed.

Lemma pages_setObjects_congr (st st' : state) pid upd :
  pages st' = pages st →
  pages (setObjects pid upd st') = pages (setObjects pid upd st).
Proof. intros Hp. unfold setObjects. simpl. by rewrite Hp. Qed.

(** The press of a participant who may draw. *)
Lemma handleMouseDown_gesture (st : state) p0 now :
  canDraw st = true → tool st ≠ sticky →
  let st0 := (handleMouseDown st (Some p0) now).1 in
  toolbar st0 = toolbar st ∧ document st0 = document st ∧ session st0 = session st
  ∧ (is_freehand (tool st) = true →
       isDrawingRef st0 = true ∧ livePointsRef st0 = [pt_x p0; pt_y p0])
  ∧ (Gestures.is_shape (tool st) = true → shapeStart st0 = Some p0).
Proof.
  intros Hc Hns. unfold handleMouseDown. rewrite Hc. simpl.
  destruct (tool st); simpl; try done.
Qed.

End ReleaseFacts.



(** X17. A shape depends on where the mouse was pressed and released
    only: for a participant who may draw with a shape tool, whatever path
    the pointer takes in between, releasing at a position pushes one
    snapshot, appends the one shape spanned by the press and release
    positions, emits it as a single [addObject] event and ends the gesture;
    a release that reports no position adds nothing and leaves the gesture
    open. *)
Theorem shape_ignores_path `{Numeric} (st : state) (p0 : point) (now : Z)
    (ps : list point) (pend : point) (now' : Z) :
  canDraw st = true → Gestures.is_shape (tool st) = true →
  let st1 := exec st (Gestures.drag p0 now ps) in
  let r := step st1 (MouseUp (Some pend) now') in
  let r0 := step st1 (MouseUp None now') in
  ∃ obj, finalShape st p0 pend now' = Some obj
    ∧ pages st1 = pages st ∧ undoStack st1 = undoStack st
    ∧ pages r.1 = pages (setObjects (currentPageId st) (λ prev, prev ++ [obj]) st)
    ∧ undoStack r.1 = undoStack st ++ [objects st]
    ∧ redoStack r.1 = []
    ∧ shapeStart r.1 = None ∧ preview r.1 = None
    ∧ r.2 = emit st (EmitPresenceUpdate false) ++ emit st (EmitAddObject obj)
    ∧ r0.1 = st1 ∧ shapeStart r0.1 = Some p0.
Proof.
  intros Hc Hs st1 r r0.
  assert (tool st ≠ sticky) as Hns by (intros Ht; by rewrite Ht in Hs).
  destruct (handleMouseDown_gesture st p0 now Hc Hns) as (Ht0 & Hd0 & Hs0 & _ & Hshape).
  specialize (Hshape Hs).
  destruct (moves_frame ps (handleMouseDown st (Some p0) now).1)
    as (Ht1 & Hd1 & Hs1 & Hsh1 & _).
  change (exec (handleMouseDown st (Some p0) now).1
            ((λ p, MouseMove (Some p)) <$> ps)) with st1 in *.
  rewrite Ht0 in Ht1. rewrite Hd0 in Hd1. rewrite Hs0 in Hs1.
  rewrite Hshape in Hsh1.
  assert (Gestures.is_shape (tool st1) = true) as Hs1' by (by rewrite Ht1).
  destruct (handleMouseUp_shape st1 p0 pend now' Hs1' Hsh1)
    as (obj & Hobj & Hp & Hu & Hr & Hsh & Hpv & Hout).
  destruct (handleMouseUp_shape_no_pos st1 now' Hs1') as [Hr0 _].
  exists obj. subst r r0.
  change (step st1 (MouseUp (Some pend) now'))
    with (handleMouseUp st1 (Some pend) now').
  change (step st1 (MouseUp None now')) with (handleMouseUp st1 None now').
  split_and!; try done; try (by rewrite Hd1).
  - by rewrite <-(finalShape_congr st st1).
  - rewrite Hp. unfold setObjects. simpl. by rewrite Hd1.
  - rewrite Hu. unfold objects, currentPage. by rewrite Hd1.
  - rewrite Hout. by rewrite !(emit_congr st st1).
  - by rewrite Hr0.
Qed.

Lemma shape_ignores_path_witness :
  let st0 := init (H:=Z_numeric) (Some "abc123") (Some "X") "#00d4ff" in
  let st := exec st0 [DrawPermission true; SelectTool rectangle] in
  let tr := (Gestures.drag (H:=Z_numeric) (Point 1 2) 5 [Point 30 40; Point 0 0])%Z in
  let r := step (exec st tr) (MouseUp (Some (Point 5 7)) 9)%Z in
  objects r.1 = [@RectShape Z_numeric "rect-9" 1 2 4 5 "#00d4ff"]%Z.
Proof.
  intros st0 st tr r.
  destruct (shape_ignores_path st (@Point Z_numeric 1 2) 5
              [@Point Z_numeric 30 40; @Point Z_numeric 0 0]
              (@Point Z_numeric 5 7) 9)%Z
    as (obj & Hobj & _ & _ & Hp & _); [reflexivity|reflexivity|].
  injection Hobj as <-.
  unfold objects, currentPage. fold tr in Hp. fold r in Hp. rewrite Hp. reflexivity.
Defined.

End BoardMore.

(** * Pages of the board *)
Module BoardPagesFacts.
Import Board BoardFacts BoardMore BoardPages.

Section Facts.
Context `{Numeric}.
Implicit Types (st : state).

Lemma page_ids_map pid (g : Page → list CanvasObject) (l : list Page) :
  page_id <$> map (λ p, if bool_decide (page_id p = pid)
                        then {| page_id := page_id p; page_name := page_name p;
                                page_objects := g p |}
                        else p) l
  = page_id <$> l.
Proof.
  induction l as [|p l IH]; simpl; [done|]. f_equal; [|done]. by case_bool_decide.
Qed.

Ltac page_ids := simpl; rewrite ?page_ids_map; done.

(** No event of the canvas adds, removes or reorders pages, or switches
    the current page. *)
Lemma canvas_step_page_ids st (ev : Board.event) :
  page_id <$> pages (Board.step st ev).1 = page_id <$> pages st
  ∧ currentPageId (Board.step st ev).1 = currentPageId st.
Proof.
  destruct ev; simpl.
  - unfold handleMouseDown, commit. repeat case_match; page_ids.
  - unfold handleMouseMove. repeat case_match; done.
  - unfold handleMouseUp, finalShape, commit.
    destruct (tool st), (isDrawingRef st), (shapeStart st), pos; simpl;
      repeat case_bool_decide; page_ids.
  - done.
  - unfold handleTextSubmit, commit. repeat case_match; page_ids.
  - unfold clearCanvas. case_match; page_ids.
  - unfold selectTool. repeat case_match; done.
  - unfold handleUndo. repeat case_match; page_ids.
  - unfold handleRedo. repeat case_match; page_ids.
  - unfold toggleAllowUser. done.
  - unfold hostDetected. by case_match.
  - unfold onDrawUpdate. page_ids.
  - unfold onObjectAdded. page_ids.
  - unfold onStickyUpdated. page_ids.
  - done.
Qed.

Lemma NoDup_page_ids_filter (P : Page → Prop) `{∀ p, Decision (P p)} (l : list Page) :
  NoDup (page_id <$> l) → NoDup (page_id <$> filter P l).
Proof.
  induction l as [|p l IH]; simpl; [done|]. intros [Hp Hnd]%NoDup_cons.
  rewrite filter_cons. case_decide; [|by apply IH].
  simpl. apply NoDup_cons. split; [|by apply IH].
  intros Hin. apply Hp. apply list_elem_of_fmap in Hin as (q & Hq & Hin).
  apply list_elem_of_filter in Hin as [_ Hin].
  rewrite Hq. by apply list_elem_of_fmap_2.
Qed.

Lemma deletePage_ok st id :
  pages_ok st → ∃ st', deletePage id st = Some st' ∧ pages_ok st'.
Proof.
  intros (Hne & Hnd & Hhas). unfold deletePage.
  case_bool_decide as Hlen; [by exists st|].
  set (rest := filter (λ p, page_id p ≠ id) (pages st)).
  assert (NoDup (page_id <$> rest)) as Hndr by (by apply NoDup_page_ids_filter).
  case_bool_decide as Hcur.
  - destruct rest as [|p rest'] eqn:Hrest.
    + exfalso. destruct (pages st) as [|p1 [|p2 l]] eqn:Hp; [done|done|].
      assert (p1 ∉ filter (λ p, page_id p ≠ id) (p1 :: p2 :: l)) as H1.
      { fold rest. rewrite Hrest. apply not_elem_of_nil. }
      assert (p2 ∉ filter (λ p, page_id p ≠ id) (p1 :: p2 :: l)) as H2.
      { fold rest. rewrite Hrest. apply not_elem_of_nil. }
      rewrite list_elem_of_filter in H1, H2.
      assert (page_id p1 = id) as E1.
      { destruct (decide (page_id p1 = id)); [done|]. destruct H1. set_solver. }
      assert (page_id p2 = id) as E2.
      { destruct (decide (page_id p2 = id)); [done|]. destruct H2. set_solver. }
      simpl in Hnd. apply NoDup_cons in Hnd as [Hnot _]. apply Hnot.
      rewrite E1, <-E2. set_solver.
    + eexists. split; [done|]. split_and!; simpl.
      * done.
      * done.
      * unfold has_current_page. simpl. set_solver.
  - eexists. split; [done|]. split_and!; simpl.
    + unfold has_current_page in Hhas.
      apply list_elem_of_fmap in Hhas as (p & Hp & Hin).
      intros Hnil. assert (p ∈ rest) as Hpr.
      { apply list_elem_of_filter. split; [congruence|done]. }
      fold rest in Hnil. rewrite Hnil in Hpr. by apply elem_of_nil in Hpr.
    + done.
    + unfold has_current_page in *. simpl.
      apply list_elem_of_fmap in Hhas as (p & Hp & Hin).
      apply list_elem_of_fmap. exists p. split; [done|].
      apply list_elem_of_filter. split; [congruence|done].
Qed.

Lemma step_pages_ok st ev :
  pages_ok st → admissible st ev → ∃ st', step st ev = Some st' ∧ pages_ok st'.
Proof.
  intros Hok Hadm. destruct ev as [now|id|id name|i|pid data|cev]; simpl.
  - eexists. split; [done|]. destruct Hok as (Hne & Hnd & Hhas).
    simpl in Hadm. unfold addPage, pages_ok, has_current_page. simpl.
    rewrite fmap_app. simpl. split_and!.
    + by destruct (pages st).
    + apply NoDup_app. split_and!; [done| |apply NoDup_singleton].
      intros x Hx ->%list_elem_of_singleton. done.
    + set_solver.
  - by apply deletePage_ok.
  - eexists. split; [done|]. unfold renamePage. case_match; [|done].
    apply (pages_ok_congr st); [|done|done].
    simpl. rewrite <-list_fmap_compose. apply list_fmap_ext.
    intros j p _. simpl. by case_bool_decide.
  - eexists. split; [done|]. unfold selectPage.
    destruct (pages st !! i) as [p|] eqn:Hp; [|done].
    destruct Hok as (Hne & Hnd & Hhas). split_and!; [done..|].
    unfold has_current_page. simpl. apply list_elem_of_fmap_2.
    by eapply list_elem_of_lookup_2.
  - eexists. split; [done|]. unfold onBoardLoaded.
    destruct data as [d|]; [|done]. simpl in Hadm.
    destruct (l_pages d) as [[|p ps]|].
    + destruct (l_objects d); [|done].
      apply (pages_ok_congr st); [apply page_ids_setObjects|done|done].
    + split_and!; simpl; [done|done|]. unfold has_current_page. simpl. set_solver.
    + destruct (l_objects d); [|done].
      apply (pages_ok_congr st); [apply page_ids_setObjects|done|done].
  - eexists. split; [done|].
    destruct (canvas_step_page_ids st cev) as [Hp Hc].
    by apply (pages_ok_congr st).
Qed.

Lemma exec_pages_ok (tr : list event) : ∀ st,
  pages_ok st → admissible_trace st tr → ∃ st', exec st tr = Some st' ∧ pages_ok st'.
Proof.
  induction tr as [|ev tr IH]; intros st Hok Hadm; simpl.
  - by exists st.
  - destruct Hadm as [Hev Htr].
    destruct (step_pages_ok st ev Hok Hev) as (st1 & Hstep & Hok1).
    rewrite Hstep in Htr |- *. by apply IH.
Qed.

End Facts.

Section PeerFacts.
Context `{Numeric}.
Implicit Types (st : state).

Lemma setObjects_absent st pid upd :
  pid ∉ page_id <$> pages st → setObjects pid upd st = st.
Proof.
  intros Hnot. apply state_ext; try done.
  unfold setObjects. simpl. apply list_eq. intros i. rewrite list_lookup_fmap.
  destruct (pages st !! i) as [p|] eqn:Hp; simpl; [|done]. f_equal.
  case_bool_decide as Hid; [|done]. destruct Hnot. rewrite <-Hid.
  apply list_elem_of_fmap_2. by eapply list_elem_of_lookup_2.
Qed.

Lemma find_page_other (l : list Page) (cp pid : string) upd :
  pid ≠ cp →
  find (λ p, bool_decide (page_id p = cp))
       (map (λ p, if bool_decide (page_id p = pid)
                  then {| page_id := page_id p; page_name := page_name p;
                          page_objects := upd (page_objects p) |}
                  else p) l)
  = find (λ p, bool_decide (page_id p = cp)) l.
Proof.
  intros Hne. induction l as [|p l IH]; simpl; [done|].
  destruct (decide (page_id p = pid)) as [Hp|Hp].
  - rewrite (bool_decide_true (page_id p = pid)) by done. simpl.
    rewrite !bool_decide_false by congruence. done.
  - rewrite (bool_decide_false (page_id p = pid)) by done.
    case_bool_decide; [done|]. apply IH.
Qed.

Lemma objects_setObjects_other st pid upd :
  pid ≠ currentPageId st → has_current_page st →
  objects (setObjects pid upd st) = objects st.
Proof.
  intros Hne Hhas. unfold objects, currentPage, setObjects. simpl.
  rewrite find_page_other by done.
  destruct (find _ (pages st)) as [p|] eqn:Hf; [done|].
  exfalso. unfold has_current_page in Hhas.
  apply list_elem_of_fmap in Hhas as (p & Hp & Hin).
  apply list_elem_of_In in Hin.
  apply (find_none _ _ Hf p) in Hin. by rewrite bool_decide_true in Hin.
Qed.

End PeerFacts.

(** X18. The page bar keeps the board well formed and never crashes:
    from a board with at least one page, distinct page ids and an existing
    current page, every sequence of page operations (add, delete, rename,
    select), board loads and canvas events runs to the end, [deletePage]
    included, and ends in such a board again, as long as the clock gives each
    new page an id not in use and a loaded page array has distinct ids. *)
Theorem pages_stay_well_formed `{Numeric} (st : state) (tr : list event) :
  pages_ok st → admissible_trace st tr →
  ∃ st', exec st tr = Some st' ∧ pages_ok st'.
Proof. apply exec_pages_ok. Qed.

Lemma pages_stay_well_formed_witness :
  let st0 := init (H:=Z_numeric) (Some "abc123") (Some "X") "#00d4ff" in
  let tr := [Canvas (DrawPermission true); AddPage 5%Z;
             Canvas (MouseDown (Some (Point 1 1)) 6); Canvas (MouseUp None 7);
             DeletePage "page-5"; DeletePage "page-1"; RenamePage "page-1" " Notes "]%Z in
  ∃ st', exec st0 tr = Some st' ∧ pages_ok st'.
Proof.
  intros st0 tr. apply (pages_stay_well_formed st0 tr).
  - split; [|split].
    + vm_compute. discriminate.
    + vm_compute. apply NoDup_singleton.
    + by_compute.
  - vm_compute. repeat split; try done. set_solver.
Defined.

(** X19. The undo stack is shared by all pages and a snapshot does not
    remember its page: after an object is added on one page and another
    page is selected, undo writes the first page's earlier objects into the
    page now shown, while the first page keeps the new object. *)
Theorem undo_follows_current_page `{Numeric} (st : state) (obj : CanvasObject)
    (i : nat) (pB : Page) :
  pages_ok st → pages st !! i = Some pB → page_id pB ≠ currentPageId st →
  let st3 := handleUndo (selectPage i (commit st obj st)) in
  currentPageId st3 = page_id pB
  ∧ objects st3 = objects st
  ∧ undoStack st3 = undoStack st
  ∧ ∀ p, p ∈ pages st3 → page_id p = currentPageId st →
      page_objects p = objects st ++ [obj].
Proof.
  intros (Hne & Hnd & Hhas) HpB HneB st3.
  set (st1 := commit st obj st).
  assert (pages st1 !! i = Some pB) as HpB1.
  { unfold st1, commit, setObjects. simpl. rewrite list_lookup_fmap, HpB. simpl.
    by rewrite bool_decide_false. }
  assert (selectPage i st1 = setCurrentPageId (page_id pB) st1) as Hsel.
  { unfold selectPage. by rewrite HpB1. }
  set (st2 := selectPage i st1) in *.
  assert (undoStack st2 = undoStack st ++ [objects st]) as Hu2 by (by rewrite Hsel).
  assert (page_id <$> pages st2 = page_id <$> pages st) as Hids2.
  { rewrite Hsel. simpl. apply page_ids_map. }
  assert (has_current_page st2) as Hhas2.
  { unfold has_current_page. rewrite Hids2, Hsel. simpl.
    apply list_elem_of_fmap_2. by eapply list_elem_of_lookup_2. }
  destruct (stacks_handleUndo st2 _ _ Hu2) as (Hu3 & _ & Hc3 & _).
  pose proof (objects_handleUndo st2 _ _ Hu2) as Ho3.
  rewrite decide_True in Ho3 by done.
  split_and!; try done.
  - change (currentPageId (handleUndo st2) = page_id pB). rewrite Hc3.
    by rewrite Hsel.
  - intros p Hin Hid. change (p ∈ pages (handleUndo st2)) in Hin.
    unfold handleUndo in Hin.
    rewrite Hu2, pop_snoc in Hin. rewrite Hsel in Hin. simpl in Hin.
    apply list_elem_of_fmap in Hin as (p1 & -> & Hin).
    apply list_elem_of_fmap in Hin as (p0 & -> & Hin).
    destruct (decide (page_id p0 = currentPageId st)) as [Hp0|Hp0].
    + rewrite (bool_decide_true (page_id p0 = currentPageId st)) by done. simpl.
      rewrite bool_decide_false by congruence. simpl. f_equal.
      unfold objects, currentPage.
      by rewrite (find_page_NoDup _ p0 _ Hnd Hin Hp0).
    + rewrite (bool_decide_false (page_id p0 = currentPageId st)) in Hid |- * by done.
      case_bool_decide; simpl in Hid; done.
Qed.

Lemma undo_follows_current_page_witness :
  let st0 := init (H:=Z_numeric) (Some "abc123") (Some "X") "#00d4ff" in
  let st := selectPage 0 (addPage st0 5%Z) in
  let obj := @RectShape Z_numeric "rect-9" 0%Z 0%Z 5%Z 5%Z "#51cf66" in
  let st3 := handleUndo (selectPage 1 (commit st obj st)) in
  pages st3
  = [ {| page_id := "page-1"; page_name := "Page 1"; page_objects := [obj] |};
      {| page_id := "page-5"; page_name := "Page 2"; page_objects := [] |} ]
  ∧ currentPageId st3 = "page-5" ∧ undoStack st3 = [].
Proof.
  intros st0 st obj st3.
  destruct (undo_follows_current_page st obj 1
              {| page_id := "page-5"; page_name := "Page 2"; page_objects := [] |})
    as (Hc & _ & Hu & _).
  - split; [|split].
    + vm_compute. discriminate.
    + vm_compute. apply NoDup_cons. split; [set_solver|apply NoDup_singleton].
    + by_compute.
  - reflexivity.
  - vm_compute. discriminate.
  - split; [reflexivity|]. split; [exact Hc|exact Hu].
Defined.

(** X20. A peer's change lands on the page the socket listeners were
    registered for, not on the page shown: when that page id is no longer
    among the pages, [drawUpdate], [objectAdded] and [stickyUpdated] leave
    the state exactly as it is; when it is another page than the current
    one, the objects shown do not change. *)
Theorem peer_change_lands_on_listener_page `{Numeric} (st : state) (pid : string)
    (ev : Board.event) :
  (∃ d, ev = DrawUpdate pid d ∨ ev = ObjectAdded pid d)
  ∨ (∃ id txt, ev = StickyUpdated pid id txt) →
  (pid ∉ page_id <$> pages st → (Board.step st ev).1 = st)
  ∧ (pid ≠ currentPageId st → has_current_page st →
       objects (Board.step st ev).1 = objects st).
Proof.
  intros Hev. split.
  - intros Hnot.
    destruct Hev as [(d & [-> | ->])|(id & txt & ->)]; simpl;
      by apply setObjects_absent.
  - intros Hne Hhas.
    destruct Hev as [(d & [-> | ->])|(id & txt & ->)]; simpl;
      by apply objects_setObjects_other.
Qed.

Lemma peer_change_lands_on_listener_page_witness :
  let st0 := init (H:=Z_numeric) (Some "abc123") (Some "X") "#00d4ff" in
  let st := addPage st0 5%Z in
  let d := @RectShape Z_numeric "rect-9" 0%Z 0%Z 5%Z 5%Z "#51cf66" in
  currentPageId st = "page-5"
  ∧ objects (Board.step st (DrawUpdate "page-1" d)).1 = []
  ∧ (Board.step st (DrawUpdate "page-7" d)).1 = st.
Proof.
  intros st0 st d.
  destruct (peer_change_lands_on_listener_page st "page-1" (DrawUpdate "page-1" d))
    as [_ Hother]; [left; exists d; by left|].
  destruct (peer_change_lands_on_listener_page st "page-7" (DrawUpdate "page-7" d))
    as [Habsent _]; [left; exists d; by left|].
  split; [reflexivity|]. split.
  - rewrite Hother; [reflexivity|vm_compute; discriminate|by_compute].
  - apply Habsent. by_compute.
Defined.

End BoardPagesFacts.

(** * The single-page whiteboard *)
Module WhiteboardFacts.
Import Whiteboard.

Section Facts.
Context {A : Type}.
Implicit Types (w : @state A) (o : A) (os : list A).

Lemma wb_handleUndo_snoc w s last :
  undoStack w = s ++ [last] →
  handleUndo w = {| objects := last; undoStack := s;
                    redoStack := redoStack w ++ [objects w] |}.
Proof. intros Hu. unfold handleUndo. by rewrite Hu, pop_snoc. Qed.

Lemma wb_handleRedo_snoc w s next :
  redoStack w = s ++ [next] →
  handleRedo w = {| objects := next; undoStack := undoStack w ++ [objects w];
                    redoStack := s |}.
Proof. intros Hr. unfold handleRedo. by rewrite Hr, pop_snoc. Qed.

Lemma wb_redo_undo w : undoStack w ≠ [] → handleRedo (handleUndo w) = w.
Proof.
  intros Hne. destruct (pop (undoStack w)) as [[s last]|] eqn:Hpop;
    [|by apply pop_None in Hpop].
  apply pop_Some in Hpop. rewrite (wb_handleUndo_snoc w s last Hpop).
  rewrite (wb_handleRedo_snoc _ (redoStack w) (objects w)) by done.
  simpl. rewrite <-Hpop. by destruct w.
Qed.

Lemma wb_undo_redo w : redoStack w ≠ [] → handleUndo (handleRedo w) = w.
Proof.
  intros Hne. destruct (pop (redoStack w)) as [[s next]|] eqn:Hpop;
    [|by apply pop_None in Hpop].
  apply pop_Some in Hpop. rewrite (wb_handleRedo_snoc w s next Hpop).
  rewrite (wb_handleUndo_snoc _ (undoStack w) (objects w)) by done.
  simpl. rewrite <-Hpop. by destruct w.
Qed.

Lemma undoStack_handleUndo_length w :
  length (undoStack (handleUndo w)) = length (undoStack w) - 1
  ∧ length (redoStack (handleUndo w))
    = length (redoStack w) + (if undoStack w is [] then 0 else 1).
Proof.
  destruct (pop (undoStack w)) as [[s last]|] eqn:Hpop.
  - apply pop_Some in Hpop. rewrite (wb_handleUndo_snoc w s last Hpop), Hpop. simpl.
    rewrite !length_app. simpl. destruct s; simpl; lia.
  - unfold handleUndo. rewrite Hpop. apply pop_None in Hpop. rewrite Hpop. simpl. lia.
Qed.

Lemma redoStack_handleRedo_length w :
  length (redoStack (handleRedo w)) = length (redoStack w) - 1.
Proof.
  destruct (pop (redoStack w)) as [[s next]|] eqn:Hpop.
  - apply pop_Some in Hpop. rewrite (wb_handleRedo_snoc w s next Hpop), Hpop. simpl.
    rewrite !length_app. simpl. lia.
  - unfold handleRedo. rewrite Hpop. apply pop_None in Hpop. rewrite Hpop. simpl. lia.
Qed.

Lemma wb_iter_redo_undo (n : nat) : ∀ w,
  n ≤ length (undoStack w) →
  Nat.iter n handleRedo (Nat.iter n handleUndo w) = w.
Proof.
  induction n as [|n IH]; intros w Hn; [done|].
  assert (undoStack w ≠ []) as Hne.
  { intros Hnil. rewrite Hnil in Hn. simpl in Hn. lia. }
  rewrite (Nat.iter_succ_r _ handleUndo), (Nat.iter_succ _ handleRedo).
  rewrite IH; [by apply wb_redo_undo|].
  destruct (undoStack_handleUndo_length w) as [-> _]. lia.
Qed.

Lemma wb_iter_undo_redo (n : nat) : ∀ w,
  n ≤ length (redoStack w) →
  Nat.iter n handleUndo (Nat.iter n handleRedo w) = w.
Proof.
  induction n as [|n IH]; intros w Hn; [done|].
  assert (redoStack w ≠ []) as Hne.
  { intros Hnil. rewrite Hnil in Hn. simpl in Hn. lia. }
  rewrite (Nat.iter_succ_r _ handleRedo), (Nat.iter_succ _ handleUndo).
  rewrite IH; [by apply wb_undo_redo|].
  rewrite redoStack_handleRedo_length. lia.
Qed.

(** The state reached by committing the objects [os] one after another. *)
Lemma commits_state os : ∀ w,
  let w' := foldl (λ w o, commit o w) w os in
  objects w' = objects w ++ os
  ∧ undoStack w' = undoStack w ++ ((λ k, objects w ++ take k os) <$> seq 0 (length os))
  ∧ redoStack w' = (if os is [] then redoStack w else []).
Proof.
  induction os as [|o os IH] using rev_ind; intros w; cbv zeta.
  - simpl. by rewrite !app_nil_r.
  - rewrite foldl_app. simpl. destruct (IH w) as (Ho & Hu & Hr).
    rewrite Ho, Hu. split_and!.
    + by rewrite app_assoc.
    + rewrite length_app. simpl. rewrite Nat.add_1_r, seq_S, fmap_app. simpl.
      rewrite <-app_assoc. f_equal. f_equal.
      * apply list_fmap_ext. intros i k Hk. apply lookup_seq in Hk as [-> Hlt].
        simpl. by rewrite take_app_le by lia.
      * by rewrite take_app_length.
    + by destruct os.
Qed.

(** Undo looks at the objects and the undo stack only. *)
Lemma wb_iter_undo_snapshots (k : nat) : ∀ w,
  k ≤ length (undoStack w) → 0 < k →
  objects (Nat.iter k handleUndo w) = default [] (undoStack w !! (length (undoStack w) - k))
  ∧ undoStack (Nat.iter k handleUndo w) = take (length (undoStack w) - k) (undoStack w).
Proof.
  induction k as [|k IH]; intros w Hk Hpos; [lia|].
  rewrite Nat.iter_succ_r.
  destruct (pop (undoStack w)) as [[s last]|] eqn:Hpop;
    [|apply pop_None in Hpop; rewrite Hpop in Hk; simpl in Hk; lia].
  apply pop_Some in Hpop. rewrite (wb_handleUndo_snoc w s last Hpop).
  rewrite Hpop, length_app in *. cbn [length] in *.
  destruct k as [|k].
  - simpl. replace (length s + 1 - 1) with (length s) by lia.
    rewrite lookup_app_r, Nat.sub_diag by lia. simpl.
    by rewrite take_app_length.
  - destruct (IH {| objects := last; undoStack := s;
                    redoStack := redoStack w ++ [objects w] |})
      as [Ho Hu]; cbn [undoStack]; [lia|lia|].
    rewrite Ho, Hu. cbn [undoStack].
    replace (length s + 1 - S (S k)) with (length s - S k) by lia.
    rewrite lookup_app_l by lia. by rewrite take_app_le by lia.
Qed.

End Facts.

(** X21. In the single-page whiteboard undo and redo are exact
    inverses, any number of times: [n] undos followed by [n] redos give
    back the state they started from (objects and both stacks) for every
    [n] up to the number of snapshots, and [n] redos followed by [n] undos
    do for every [n] up to the number of undone states. *)
Theorem whiteboard_undo_redo_identity {A : Type} (w : @state A) (n : nat) :
  (n ≤ length (undoStack w) →
     Nat.iter n handleRedo (Nat.iter n handleUndo w) = w)
  ∧ (n ≤ length (redoStack w) →
       Nat.iter n handleUndo (Nat.iter n handleRedo w) = w).
Proof. split; [apply wb_iter_redo_undo|apply wb_iter_undo_redo]. Qed.

Lemma whiteboard_undo_redo_identity_witness :
  let w := foldl (λ w o, commit o w)
             {| objects := []; undoStack := []; redoStack := [] |} [1; 2; 3] in
  Nat.iter 3 handleRedo (Nat.iter 3 handleUndo w) = w
  ∧ objects (Nat.iter 3 handleUndo w) = [].
Proof.
  intros w. split; [|reflexivity].
  apply (whiteboard_undo_redo_identity w 3). vm_compute. lia.
Defined.

(** X22. Undo steps back through the additions one at a time: after
    the objects [os] were added one after another, [k] undos (for any [k]
    up to their number) leave exactly the objects that were there before
    the last [k] additions, in order; undoing them all gives back the
    objects the sequence started from. *)
Theorem whiteboard_commits_undone {A : Type} (w : @state A) (os : list A)
    (k : nat) :
  k ≤ length os →
  let w' := foldl (λ w o, commit o w) w os in
  objects (Nat.iter k handleUndo w') = objects w ++ take (length os - k) os
  ∧ length (undoStack (Nat.iter k handleUndo w'))
    = length (undoStack w) + length os - k.
Proof.
  intros Hk w'. destruct (commits_state os w) as (Ho & Hu & _). fold w' in Ho, Hu.
  destruct k as [|k].
  - simpl. rewrite Ho, Hu, Nat.sub_0_r, firstn_all, length_app, length_fmap, length_seq.
    split; [done|lia].
  - assert (length (undoStack w') = length (undoStack w) + length os) as Hlen.
    { by rewrite Hu, length_app, length_fmap, length_seq. }
    destruct (wb_iter_undo_snapshots (S k) w') as [Hok Huk]; [lia|lia|].
    rewrite Hok, Huk, Hlen. split.
    + rewrite Hu, lookup_app_r by lia.
      replace (length (undoStack w) + length os - S k - length (undoStack w))
        with (length os - S k) by lia.
      rewrite list_lookup_fmap, lookup_seq_lt by lia. done.
    + rewrite length_take. lia.
Qed.

Lemma whiteboard_commits_undone_witness :
  let w := {| objects := [7]; undoStack := []; redoStack := [] |} in
  let w' := foldl (λ w o, commit o w) w [1; 2; 3] in
  objects w' = [7; 1; 2; 3] ∧ objects (Nat.iter 2 handleUndo w') = [7; 1].
Proof.
  intros w w'. split; [reflexivity|].
  destruct (whiteboard_commits_undone w [1; 2; 3] 2) as [Ho _]; [simpl; lia|].
  exact Ho.
Defined.

End WhiteboardFacts.

(** * The canvas of the single-page whiteboard *)
Module WhiteboardCanvasFacts.
Import Board WhiteboardCanvas.

Section Facts.
Context `{Numeric}.
Implicit Types (st : state) (ps : list (point * Z)).

(** What a move leaves alone while the pen is down. *)
Lemma handleMouseMove_pen st p t :
  tool st = pen → isDrawingRef st = true →
  let r := handleMouseMove st (Some p) t in
  doc r.1 = doc st ∧ tool r.1 = pen ∧ color r.1 = color st
  ∧ strokeWidth r.1 = strokeWidth st ∧ isDrawingRef r.1 = true
  ∧ socketRef r.1 = socketRef st
  ∧ currentLineRef r.1 = currentLineRef st ++ [pt_x p; pt_y p]
  ∧ drawn r.2
    = if socketRef st
      then [DrawLine ("line-" +:+ pretty t) (currentLineRef st ++ [pt_x p; pt_y p])
                     (color st) (strokeWidth st)]
      else [].
Proof.
  intros Ht Hd. unfold handleMouseMove, emit. rewrite Ht, Hd. simpl.
  split_and!; try done. by destruct (socketRef st).
Qed.

Lemma drawn_app (a b : list outbound) : drawn (a ++ b) = drawn a ++ drawn b.
Proof. unfold drawn. by rewrite omap_app. Qed.

Lemma moves_pen ps : ∀ st,
  tool st = pen → isDrawingRef st = true →
  let r := moves st ps in
  doc r.1 = doc st ∧ tool r.1 = pen ∧ color r.1 = color st
  ∧ strokeWidth r.1 = strokeWidth st ∧ isDrawingRef r.1 = true
  ∧ socketRef r.1 = socketRef st
  ∧ currentLineRef r.1 = currentLineRef st ++ Gestures.coords ps.*1
  ∧ length (drawn r.2) = (if socketRef st then length ps else 0)
  ∧ ∀ i p t, socketRef st = true → ps !! i = Some (p, t) →
      drawn r.2 !! i
      = Some (DrawLine ("line-" +:+ pretty t)
                (currentLineRef st ++ Gestures.coords (take (S i) ps).*1)
                (color st) (strokeWidth st)).
Proof.
  induction ps as [|[p t] ps IH]; intros st Ht Hd; cbv zeta.
  - simpl. rewrite app_nil_r. split_and!; try done. by destruct (socketRef st).
  - destruct (handleMouseMove_pen st p t Ht Hd)
      as (Hdoc & Ht1 & Hc & Hw & Hd1 & Hs & Hl & Hout).
    destruct (IH (handleMouseMove st (Some p) t).1 Ht1 Hd1)
      as (Hdoc' & Ht' & Hc' & Hw' & Hd' & Hs' & Hl' & Hlen' & Hout').
    change (moves st ((p, t) :: ps))
      with ((moves (handleMouseMove st (Some p) t).1 ps).1,
            (handleMouseMove st (Some p) t).2
              ++ (moves (handleMouseMove st (Some p) t).1 ps).2).
    cbn [fst snd]. split_and!; try congruence.
    + rewrite Hl', Hl. simpl. by rewrite <-app_assoc.
    + rewrite drawn_app, length_app, Hlen', Hout, Hs.
      by destruct (socketRef st).
    + intros i q u Hsock Hi. rewrite drawn_app, Hout, Hsock.
      destruct i as [|i]; simpl in Hi.
      * injection Hi as <- <-. simpl. done.
      * rewrite lookup_app_r by (simpl; lia). cbn [length].
        replace (S i - 1) with i by lia.
        rewrite (Hout' i q u) by congruence.
        rewrite Hl, Hc, Hw. simpl. by rewrite <-app_assoc.
Qed.

End Facts.

(** X23. In the single-page whiteboard a pen stroke is sent once per
    move and once more on release: with the pen selected and the socket
    connected, a press, [n] moves and a release emit [n + 1] [draw] events
    (the [i]-th carrying the path up to the [i]-th move, the last the whole
    path), while the sender's own board gains one line; a peer, whose
    listener appends every [drawUpdate], gains [n + 1] lines. *)
Theorem whiteboard_stroke_sent_per_move `{Numeric} (st : state) (p0 : point)
    (ps : list (point * Z)) (pend : option point) (now : Z) (peer : state) :
  tool st = pen → socketRef st = true →
  let r := gesture st p0 ps pend now in
  let whole := DrawLine ("line-" +:+ pretty now)
                 (Gestures.coords (p0 :: ps.*1)) (color st) (strokeWidth st) in
  Whiteboard.objects r.1 = Whiteboard.objects st ++ [whole]
  ∧ length (drawn r.2) = length ps + 1
  ∧ last (drawn r.2) = Some whole
  ∧ (∀ i p t, ps !! i = Some (p, t) →
       drawn r.2 !! i
       = Some (DrawLine ("line-" +:+ pretty t)
                 (Gestures.coords (p0 :: (take (S i) ps).*1))
                 (color st) (strokeWidth st)))
  ∧ Whiteboard.objects (foldl (λ s d, onDrawUpdate d s) peer (drawn r.2))
    = Whiteboard.objects peer ++ drawn r.2.
Proof.
  intros Ht Hsock r whole.
  set (st0 := handleMouseDown st (Some p0)).
  assert (st0 = {| doc := doc st; tool := tool st; color := color st;
                   strokeWidth := strokeWidth st; isDrawingRef := true;
                   currentLineRef := [pt_x p0; pt_y p0];
                   rectStart := rectStart st; drawingRect := drawingRect st;
                   socketRef := socketRef st |}) as Hst0.
  { unfold st0, handleMouseDown. by rewrite Ht. }
  destruct (moves_pen ps st0) as (Hdoc & Ht1 & Hc & Hw & Hd1 & Hs & Hl & Hlen & Hout);
    [by rewrite Hst0..|].
  rewrite Hst0 in Hdoc, Hc, Hw, Hs, Hl, Hlen, Hout. simpl in Hdoc, Hc, Hw, Hs, Hl, Hlen, Hout.
  rewrite <-Hst0 in Hdoc, Hc, Hw, Hs, Hl, Hlen, Hout.
  rewrite Hsock in Hlen, Hs.
  set (st1 := (moves st0 ps).1) in *.
  assert (handleMouseUp st1 pend now
          = ({| doc := Whiteboard.commit whole (doc st); tool := pen; color := color st;
                strokeWidth := strokeWidth st; isDrawingRef := false;
                currentLineRef := []; rectStart := rectStart st1;
                drawingRect := drawingRect st1; socketRef := true |},
             [EmitDraw whole])) as Hup.
  { unfold handleMouseUp, emit. rewrite Ht1, Hd1, Hs, Hl, Hc, Hw, Hdoc. done. }
  assert (r = ((handleMouseUp st1 pend now).1,
               (moves st0 ps).2 ++ (handleMouseUp st1 pend now).2)) as Hr by done.
  rewrite Hup in Hr. simpl in Hr. rewrite Hr. cbn [fst snd].
  rewrite drawn_app. simpl. split_and!.
  - done.
  - rewrite length_app, Hlen. simpl. lia.
  - by rewrite last_snoc.
  - intros i p t Hi. rewrite lookup_app_l
      by (rewrite Hlen; by eapply lookup_lt_Some).
    by rewrite (Hout i p t Hsock Hi).
  - generalize (drawn (moves st0 ps).2 ++ [whole]). intros ds. revert peer.
    induction ds as [|d ds IH]; intros peer; simpl; [by rewrite app_nil_r|].
    rewrite IH. simpl. by rewrite <-app_assoc.
Qed.

Lemma whiteboard_stroke_sent_per_move_witness :
  let st := @Build_state Z_numeric
              {| Whiteboard.objects := []; Whiteboard.undoStack := [];
                 Whiteboard.redoStack := [] |}
              pen "#000000" 3%Z false [] None None true in
  let r := gesture st (@Point Z_numeric 0 0)%Z
             [(@Point Z_numeric 1 1, 10); (@Point Z_numeric 2 2, 11)]%Z None 12%Z in
  length (Whiteboard.objects r.1) = 1 ∧ length (drawn r.2) = 3.
Proof.
  intros st r.
  destruct (whiteboard_stroke_sent_per_move st (@Point Z_numeric 0 0)%Z
              [(@Point Z_numeric 1 1, 10); (@Point Z_numeric 2 2, 11)]%Z None 12%Z st)
    as (Ho & Hn & _); [reflexivity|reflexivity|].
  split; [|exact Hn]. fold r in Ho. by rewrite Ho.
Defined.

End WhiteboardCanvasFacts.

(** * The board routes *)
Module BoardsFacts.
Import Boards.

Section Facts.
Context {uuid : Type} `{Countable uuid} {obj page : Type}.
Context (page_objects : page → option (list obj)).
Context (mk_page : string → string → list obj → page).
Context (board_name_default : option string).

Notation db := (@db uuid _ _ obj page).
Notation request := (@request uuid obj page).
Notation handle := (handle page_objects mk_page board_name_default).
Notation exec := (exec page_objects mk_page board_name_default).
Implicit Types (d : db) (q : request) (user : option uuid).

Lemma handle_hasPages d user q : hasPages (handle d user q).1 = hasPages d.
Proof.
  destruct q; simpl.
  - unfold listBoards. by destruct user.
  - unfold createBoard. destruct user; [|done]. by destruct (boards d !! fresh).
  - unfold saveBoard. destruct user; [|done]. simpl.
    destruct (boards d !! boardId); [|done]. by case_bool_decide.
  - unfold loadBoard. destruct user; [|done]. by destruct (boards d !! boardId).
  - unfold deleteBoard. destruct user; [|done].
    destruct (boards d !! boardId); [|done]. by case_bool_decide.
Qed.

(** A request touches at most the row it names, and that one only for
    its owner. *)
Lemma handle_foreign_row d user q id r :
  boards d !! id = Some r → user ≠ Some (owner_id r) →
  boards (handle d user q).1 !! id = Some r.
Proof.
  intros Hr Hu. destruct q; simpl.
  - unfold listBoards. by destruct user.
  - unfold createBoard. destruct user; [|done].
    destruct (boards d !! fresh) eqn:Hf; [done|]. simpl.
    rewrite lookup_insert_ne; [done|]. intros ->. congruence.
  - unfold saveBoard. destruct user as [u|]; [|done]. simpl.
    destruct (boards d !! boardId) as [r'|] eqn:Hb; [|done].
    case_bool_decide as Ho; [|done]. simpl.
    rewrite lookup_insert_ne; [done|]. intros ->. congruence.
  - unfold loadBoard. destruct user; [|done]. by destruct (boards d !! boardId).
  - unfold deleteBoard. destruct user as [u|]; [|done].
    destruct (boards d !! boardId) as [r'|] eqn:Hb; [|done].
    case_bool_decide as Ho; [|done]. simpl.
    rewrite lookup_delete_ne; [done|]. intros ->. congruence.
Qed.

Lemma handle_owner_fixed d user q id r r' :
  boards d !! id = Some r → boards (handle d user q).1 !! id = Some r' →
  owner_id r' = owner_id r.
Proof.
  intros Hr. destruct q; simpl.
  - unfold listBoards. destruct user; simpl; congruence.
  - unfold createBoard. destruct user; [|simpl; congruence].
    destruct (boards d !! fresh) eqn:Hf; [simpl; congruence|]. simpl.
    rewrite lookup_insert_ne; [congruence|]. intros ->. congruence.
  - unfold saveBoard. destruct user as [u|]; [|simpl; congruence]. simpl.
    destruct (boards d !! boardId) as [r0|] eqn:Hb; [|congruence].
    case_bool_decide as Ho; [|congruence]. simpl.
    destruct (decide (boardId = id)) as [->|Hne].
    + rewrite lookup_insert_eq. intros [= <-]. destruct (hasPages d); simpl; congruence.
    + rewrite lookup_insert_ne by done. congruence.
  - unfold loadBoard. destruct user; [|simpl; congruence].
    destruct (boards d !! boardId); simpl; congruence.
  - unfold deleteBoard. destruct user as [u|]; [|simpl; congruence].
    destruct (boards d !! boardId) as [r0|] eqn:Hb; [|simpl; congruence].
    case_bool_decide as Ho; [|simpl; congruence]. simpl.
    destruct (decide (boardId = id)) as [->|Hne].
    + by rewrite lookup_delete_eq.
    + rewrite lookup_delete_ne by done. congruence.
Qed.

Lemma exec_foreign_row (tr : list (option uuid * request)) : ∀ d id r,
  boards d !! id = Some r → Forall (λ p, p.1 ≠ Some (owner_id r)) tr →
  boards (exec d tr) !! id = Some r.
Proof.
  induction tr as [|[user q] tr IH]; intros d id r Hr Htr; [done|].
  apply Forall_cons in Htr as [Hu Htr]. simpl in *.
  apply IH; [|done]. by apply handle_foreign_row.
Qed.

Lemma db_eta d : {| boards := boards d; hasPages := hasPages d |} = d.
Proof. by destruct d. Qed.

Lemma newer_first_total : Total (@newer_first uuid).
Proof. intros a b. unfold newer_first. lia. Qed.

End Facts.

Lemma js_or_js_or (o : option string) (d : string) :
  d ≠ "" → js_or (Some (js_or o d)) d = js_or o d.
Proof.
  intros Hd. unfold js_or at 1.
  by rewrite CoordinatorFacts.truthy_str_true by (by apply CoordinatorMore.js_or_not_empty).
Qed.

(** X24. Only its owner changes a board: along any sequence of requests
    none of which is made by the owner of a board, that board's row stays
    as it is. A save by another user answers success all the same, without
    touching anything; a delete by another user is refused; and no request
    ever changes the owner of an existing board. *)
Theorem only_owner_changes_board {uuid : Type} `{Countable uuid} {obj page : Type}
    (page_objects : page → option (list obj))
    (mk_page : string → string → list obj → page)
    (board_name_default : option string)
    (d : @db uuid _ _ obj page) (id : uuid) (r : row)
    (tr : list (option uuid * request)) :
  boards d !! id = Some r →
  Forall (λ p, p.1 ≠ Some (owner_id r)) tr →
  boards (exec page_objects mk_page board_name_default d tr) !! id = Some r
  ∧ (∀ u b now, u ≠ owner_id r →
       saveBoard page_objects d (Some u) id b now = (d, Saved id)
       ∧ status (obj:=obj) (page:=page) (Saved id) = 200)
  ∧ (∀ u, u ≠ owner_id r →
       deleteBoard d (Some u) id
       = (d, NotFound "Board not found or not authorized"))
  ∧ (∀ user q r',
       boards (handle page_objects mk_page board_name_default d user q).1 !! id
       = Some r' →
       owner_id r' = owner_id r).
Proof.
  intros Hr Htr. split_and!.
  - by apply exec_foreign_row.
  - intros u b now Hu. split; [|done]. unfold saveBoard. rewrite Hr.
    by rewrite bool_decide_false.
  - intros u Hu. unfold deleteBoard. rewrite Hr. by rewrite bool_decide_false.
  - intros user q r'. by apply handle_owner_fixed.
Qed.

Lemma only_owner_changes_board_witness :
  let page_objects := λ p : list nat, Some p in
  let mk_page := λ (_ _ : string) (os : list nat), os in
  let r := {| owner_id := "alice"; objects := Some [1]; pages := None;
              board_name := None; updated_at := 1 |} in
  let d := {| boards := {["b1" := r]}; hasPages := false |} in
  let tr := [(Some "bob", SaveBoard "b1" {| r_objects := Some [2]; r_pages := None;
                                            r_boardName := None |} 5%Z);
             (None, DeleteBoard "b1"); (Some "bob", DeleteBoard "b1");
             (Some "bob", CreateBoard "b2" 6%Z)] in
  boards (exec page_objects mk_page None d tr) !! "b1" = Some r.
Proof.
  intros page_objects mk_page r d tr.
  apply (only_owner_changes_board page_objects mk_page None d "b1" r tr).
  - reflexivity.
  - repeat constructor; simpl; discriminate.
Defined.

(** X25. Whoever created a board is the one its clients make host: a
    board created by user [u] is served to every signed-in user, owner or
    not, with [u] as its owner, and the host detection run on that response
    sets [isHost] for the user [u] and for nobody else. *)
Theorem creator_is_detected_as_host `{Board.Numeric}
    (board_name_default : option string)
    (d : @db string _ _ Board.CanvasObject Board.Page) (u v fresh : string)
    (now : Z) (st : Board.state) :
  boards d !! fresh = None → u ≠ "" →
  let d1 := (createBoard board_name_default d (Some u) fresh now).1 in
  let resp := (loadBoard Board.Build_Page d1 (Some v) fresh).2 in
  resp = Loaded fresh u [] [Board.Build_Page "page-1" "Page 1" []]
           (js_or (if hasPages d then board_name_default else None) "Untitled Board")
           now
  ∧ (Board.isHost (Board.session (Persist.detectHost resp (Some v) st)) = true
     ↔ Board.isHost (Board.session st) = true ∨ v = u).
Proof.
  intros Hfresh Hu d1 resp.
  assert (resp = Loaded fresh u [] [Board.Build_Page "page-1" "Page 1" []]
           (js_or (if hasPages d then board_name_default else None) "Untitled Board")
           now) as Hresp.
  { subst resp d1. unfold createBoard, loadBoard. rewrite Hfresh. simpl.
    rewrite lookup_insert_eq. simpl. by destruct (hasPages d). }
  split; [done|]. rewrite Hresp. unfold Persist.detectHost, Board.hostDetected. simpl.
  rewrite !(CoordinatorFacts.truthy_str_true u) by done. simpl.
  destruct (decide (u = v)) as [<-|Hne].
  - rewrite !(CoordinatorFacts.truthy_str_true u) by done.
    rewrite bool_decide_true by done. simpl. split; [by right|done].
  - destruct (truthy_str v) eqn:Hv; simpl.
    + rewrite Hv, bool_decide_false by done. simpl.
      split; [by left|]. intros [Hh|Hvu]; [done|congruence].
    + split; [by left|]. intros [Hh|Hvu]; [done|congruence].
Qed.

Lemma creator_is_detected_as_host_witness :
  let d := {| boards := ∅; hasPages := false |}
           : @db string _ _ (@Board.CanvasObject Board.Z_numeric) Board.Page in
  let st := Board.init (H:=Board.Z_numeric) (Some "b1") (Some "X") "#00d4ff" in
  let d1 := (createBoard None d (Some "alice") "b1" 7%Z).1 in
  Board.isHost (Board.session (Persist.detectHost (loadBoard Board.Build_Page d1 (Some "alice") "b1").2
                  (Some "alice") st)) = true
  ∧ Board.isHost (Board.session (Persist.detectHost (loadBoard Board.Build_Page d1 (Some "bob") "b1").2
                    (Some "bob") st)) = false.
Proof.
  intros d st d1.
  destruct (creator_is_detected_as_host None d "alice" "alice" "b1" 7%Z st)
    as [_ Ha]; [reflexivity|done|].
  split; [apply Ha; by right|reflexivity].
Defined.

(** The board list is the caller's own boards, newest first: the
    rows returned for a signed-in user are sorted by update time,
    descending, name each board once, and are exactly the boards that user
    owns, each with its update time; the request changes nothing. *)
Lemma list_boards_own_sorted {uuid : Type} `{Countable uuid} {obj page : Type}
    (d : @db uuid _ _ obj page) (u : uuid) :
  ∃ rows, listBoards d (Some u) = (d, BoardList rows)
    ∧ Sorted newer_first rows
    ∧ NoDup rows.*1
    ∧ ∀ id t, (id, t) ∈ rows
        ↔ ∃ r, boards d !! id = Some r ∧ owner_id r = u ∧ updated_at r = t.
Proof.
  eexists. split; [done|].
  set (m := filter (λ p, owner_id p.2 = u) (boards d)).
  pose proof (merge_sort_Permutation (@newer_first uuid)
                ((λ p, (p.1, updated_at p.2)) <$> map_to_list m)) as Hperm.
  split_and!.
  - apply Sorted_merge_sort, newer_first_total.
  - rewrite Hperm, <-list_fmap_compose.
    rewrite (list_fmap_ext _ fst (map_to_list m)) by done.
    apply NoDup_fst_map_to_list.
  - intros id t. rewrite Hperm, list_elem_of_fmap. split.
    + intros ([id' r] & [= -> ->] & Hin). exists r.
      apply elem_of_map_to_list in Hin. unfold m in Hin.
      apply map_lookup_filter_Some in Hin as [Hr Ho]. done.
    + intros (r & Hr & Ho & Ht). exists (id, r). split; [by rewrite <-Ht|].
      apply elem_of_map_to_list. unfold m. by apply map_lookup_filter_Some.
Qed.

(** Creating a board and deleting it again leaves the table as it
    was: with an id not in use, the create request answers 201 with that
    id, the board then loads as an empty one, and the owner's delete request
    removes the row, after which the board is not found. *)
Lemma create_delete_roundtrip {uuid : Type} `{Countable uuid} {obj page : Type}
    (mk_page : string → string → list obj → page)
    (board_name_default : option string)
    (d : @db uuid _ _ obj page) (u : uuid) (fresh : uuid) (now : Z) :
  boards d !! fresh = None →
  let r1 := createBoard board_name_default d (Some u) fresh now in
  r1.2 = Created fresh ∧ status r1.2 = 201
  ∧ (∃ name, (loadBoard mk_page r1.1 (Some u) fresh).2
             = Loaded fresh u [] [mk_page "page-1" "Page 1" []] name now)
  ∧ deleteBoard r1.1 (Some u) fresh = (d, Deleted fresh)
  ∧ (loadBoard mk_page d (Some u) fresh).2 = NotFound "Board not found".
Proof.
  intros Hfresh r1. subst r1. unfold createBoard. rewrite Hfresh. simpl.
  split_and!; try done.
  - exists (js_or (if hasPages d then board_name_default else None) "Untitled Board").
    unfold loadBoard. simpl. rewrite lookup_insert_eq. simpl.
    by destruct (hasPages d).
  - unfold deleteBoard. simpl. rewrite lookup_insert_eq. simpl.
    rewrite bool_decide_true by done. f_equal. unfold setBoards. simpl.
    rewrite delete_insert_eq. rewrite delete_id by done. by destruct d.
  - unfold loadBoard. by rewrite Hfresh.
Qed.

Lemma create_delete_roundtrip_witness :
  let mk_page := λ (_ _ : string) (os : list nat), os in
  let d := {| boards := ∅; hasPages := false |} : @db string _ _ nat (list nat) in
  let r1 := createBoard None d (Some "alice") "b1" 7%Z in
  deleteBoard r1.1 (Some "alice") "b1" = (d, Deleted "b1")
  ∧ (loadBoard mk_page r1.1 (Some "bob") "b1").2
    = Loaded "b1" "alice" [] [[]] "Untitled Board" 7%Z.
Proof.
  intros mk_page d r1.
  destruct (create_delete_roundtrip mk_page None d "alice" "b1" 7%Z)
    as (_ & _ & _ & Hdel & _); [reflexivity|].
  split; [exact Hdel|reflexivity].
Defined.

End BoardsFacts.

(** * Saving and loading, end to end *)
Module PersistFacts.
Import Board BoardFacts BoardMore.

(** X26. With the [pages] and [board_name] columns present, saving and
    reloading gives the pages back: after the owner's client posts its
    board and any signed-in user's client loads it, that client holds the
    same pages with the same objects, shows the first of them, and reads the
    saved board name; its undo and redo stacks stay as they were, for
    history is not stored. *)
Theorem save_reload_keeps_pages `{Numeric}
    (d : @Boards.db string _ _ CanvasObject Page) (u v id pid : string)
    (r : Boards.row) (st st0 : state) (name bn : string) (now : Z) :
  Boards.hasPages d = true → Boards.boards d !! id = Some r →
  Boards.owner_id r = u → pages st ≠ [] →
  let d1 := (Boards.saveBoard Persist.page_objects d (Some u) id
               (Persist.requestBody (BoardPages.saveBody st name)) now).1 in
  let data := Persist.responseData (Boards.loadBoard Build_Page d1 (Some v) id).2 in
  let st' := BoardPages.onBoardLoaded pid data st0 in
  pages st' = pages st
  ∧ Some (currentPageId st') = page_id <$> head (pages st)
  ∧ BoardPages.loadedBoardName data bn = js_or (Some name) "Untitled Board"
  ∧ undoStack st' = undoStack st0 ∧ redoStack st' = redoStack st0.
Proof.
  intros Hcol Hr Hu Hne d1 data st'.
  assert (data = Some {| BoardPages.l_pages := Some (pages st);
                         BoardPages.l_objects := Some (objects st);
                         BoardPages.l_boardName :=
                           Some (js_or (Some name) "Untitled Board");
                         BoardPages.l_ownerId := Some u |}) as Hdata.
  { subst data d1. unfold Boards.saveBoard, Boards.loadBoard. rewrite Hr, Hcol.
    rewrite bool_decide_true by done. cbn -[js_or]. rewrite lookup_insert_eq.
    cbn -[js_or]. destruct (pages st) as [|p ps] eqn:Hp; [done|]. cbn -[js_or].
    rewrite BoardsFacts.js_or_js_or by done. by rewrite Hu. }
  subst st'. rewrite Hdata. unfold BoardPages.onBoardLoaded, BoardPages.loadedBoardName.
  cbn -[js_or]. destruct (pages st) as [|p ps] eqn:Hp; [done|]. cbn -[js_or].
  split_and!; try done.
  unfold js_or at 1.
  by rewrite CoordinatorFacts.truthy_str_true
    by (by apply CoordinatorMore.js_or_not_empty).
Qed.

Lemma save_reload_keeps_pages_witness :
  let st0 := init (H:=Z_numeric) (Some "b1") (Some "X") "#00d4ff" in
  let o1 := @RectShape Z_numeric "rect-1" 0%Z 0%Z 5%Z 5%Z "#51cf66" in
  let o2 := @RectShape Z_numeric "rect-2" 1%Z 1%Z 5%Z 5%Z "#51cf66" in
  let st := onDrawUpdate "page-5" o2
              (onDrawUpdate "page-1" o1 (BoardPages.addPage st0 5%Z)) in
  let r := {| Boards.owner_id := "alice"; Boards.objects := Some [];
              Boards.pages := Some []; Boards.board_name := None;
              Boards.updated_at := 1%Z |} in
  let d := {| Boards.boards := {["b1" := r]}; Boards.hasPages := true |} in
  let d1 := (Boards.saveBoard Persist.page_objects d (Some "alice") "b1"
               (Persist.requestBody (BoardPages.saveBody st "Plan")) 9%Z).1 in
  let data := Persist.responseData
                (Boards.loadBoard Build_Page d1 (Some "bob") "b1").2 in
  length (pages st) = 2
  ∧ pages (BoardPages.onBoardLoaded "page-1" data st0) = pages st
  ∧ BoardPages.loadedBoardName data "Untitled Board" = "Plan".
Proof.
  intros st0 o1 o2 st r d d1 data.
  destruct (save_reload_keeps_pages d "alice" "bob" "b1" "page-1" r st st0
              "Plan" "Untitled Board" 9%Z)
    as (Hp & _ & Hn & _); [reflexivity|reflexivity|reflexivity| |].
  - vm_compute. discriminate.
  - split; [reflexivity|]. split; [exact Hp|exact Hn].
Defined.

(** X27. With the table as the server creates it, without the [pages]
    and [board_name] columns, saving and reloading collapses the board: the
    client that loads it gets one page, [page-1], holding the objects of all
    saved pages one after another, and the name [Untitled Board] whatever
    name was saved. *)
Theorem save_reload_collapses_pages `{Numeric}
    (d : @Boards.db string _ _ CanvasObject Page) (u v id pid : string)
    (r : Boards.row) (st st0 : state) (name bn : string) (now : Z) :
  Boards.hasPages d = false → Boards.boards d !! id = Some r →
  Boards.owner_id r = u → Boards.pages r = None → Boards.board_name r = None →
  let d1 := (Boards.saveBoard Persist.page_objects d (Some u) id
               (Persist.requestBody (BoardPages.saveBody st name)) now).1 in
  let data := Persist.responseData (Boards.loadBoard Build_Page d1 (Some v) id).2 in
  let st' := BoardPages.onBoardLoaded pid data st0 in
  pages st' = [ {| page_id := "page-1"; page_name := "Page 1";
                   page_objects := flat_map page_objects (pages st) |} ]
  ∧ currentPageId st' = "page-1"
  ∧ BoardPages.loadedBoardName data bn = "Untitled Board".
Proof.
  intros Hcol Hr Hu Hpg Hbn d1 data st'.
  assert (data = Some {| BoardPages.l_pages :=
                           Some [ {| page_id := "page-1"; page_name := "Page 1";
                                     page_objects := flat_map page_objects (pages st) |} ];
                         BoardPages.l_objects := Some (flat_map page_objects (pages st));
                         BoardPages.l_boardName := Some "Untitled Board";
                         BoardPages.l_ownerId := Some u |}) as Hdata.
  { subst data d1. unfold Boards.saveBoard, Boards.loadBoard. rewrite Hr, Hcol.
    rewrite bool_decide_true by done. simpl. rewrite lookup_insert_eq. simpl.
    rewrite Hpg, Hbn, Hu. done. }
  subst st'. by rewrite Hdata.
Qed.

Lemma save_reload_collapses_pages_witness :
  let st0 := init (H:=Z_numeric) (Some "b1") (Some "X") "#00d4ff" in
  let o1 := @RectShape Z_numeric "rect-1" 0%Z 0%Z 5%Z 5%Z "#51cf66" in
  let o2 := @RectShape Z_numeric "rect-2" 1%Z 1%Z 5%Z 5%Z "#51cf66" in
  let st := onDrawUpdate "page-5" o2
              (onDrawUpdate "page-1" o1 (BoardPages.addPage st0 5%Z)) in
  let r := {| Boards.owner_id := "alice"; Boards.objects := Some [];
              Boards.pages := None; Boards.board_name := None;
              Boards.updated_at := 1%Z |} in
  let d := {| Boards.boards := {["b1" := r]}; Boards.hasPages := false |} in
  let d1 := (Boards.saveBoard Persist.page_objects d (Some "alice") "b1"
               (Persist.requestBody (BoardPages.saveBody st "Plan")) 9%Z).1 in
  let data := Persist.responseData
                (Boards.loadBoard Build_Page d1 (Some "bob") "b1").2 in
  length (pages st) = 2
  ∧ pages (BoardPages.onBoardLoaded "page-1" data st0)
    = [ {| page_id := "page-1"; page_name := "Page 1"; page_objects := [o1; o2] |} ]
  ∧ BoardPages.loadedBoardName data "Plan" = "Untitled Board".
Proof.
  intros st0 o1 o2 st r d d1 data.
  destruct (save_reload_collapses_pages d "alice" "bob" "b1" "page-1" r st st0
              "Plan" "Plan" 9%Z)
    as (Hp & _ & Hn); [reflexivity..|].
  split; [reflexivity|]. split; [|exact Hn].
  fold d1 data in Hp. rewrite Hp. reflexivity.
Defined.

End PersistFacts.

(** * Client and coordinator together *)
Module WireFacts.
Import Board BoardFacts BoardMore.

Section Facts.
Context `{Numeric}.
Implicit Types (st : state).

Lemma delivered_socket_to {data : Type} (cst : Coordinator.state) (c b : string)
    (m : @Coordinator.message data) (c' : string) :
  Wire.delivered cst [Coordinator.socket_to c b m] c'
  = if decide (c' ∈ Coordinator.room_sockets cst b ∧ c' ≠ c) then [m] else [].
Proof.
  unfold Wire.delivered. rewrite filter_cons, filter_nil.
  unfold Coordinator.recipients. simpl.
  destruct (decide (c' ∈ Coordinator.room_sockets cst b ∖ {[c]})) as [Hin|Hnot];
    case_decide as Hd; try done; set_solver.
Qed.

(** A local action that changes a page of a connected client emits
    exactly one event for the coordinator, carrying the object it appended. *)
Lemma local_action_emits_object st ev :
  is_local_action ev → socketRef st = true →
  pages (step st ev).1 ≠ pages st →
  ∃ obj e, omap Wire.toCoordinator (step st ev).2 = [e]
    ∧ (e = Coordinator.Draw obj ∨ e = Coordinator.AddObject obj)
    ∧ pages (step st ev).1
      = pages (setObjects (currentPageId st) (λ prev, prev ++ [obj]) st).
Proof.
  intros Hev Hsock. destruct ev; try done; simpl.
  - unfold handleMouseDown, emit. rewrite Hsock.
    destruct (negb (canDraw st) || isReadOnly); [done|].
    destruct pos as [pos|]; [|done].
    destruct (tool st); try done. intros _.
    eexists _, _. split; [done|]. split; [by right|done].
  - unfold handleMouseUp, finalShape, strokeObject, emit. rewrite Hsock.
    destruct (tool st), (isDrawingRef st), (shapeStart st), pos; simpl;
      repeat case_bool_decide; simpl; try done; intros _;
      (eexists _, _; split; [done|]; split; [by (left + right)|done]).
  - unfold handleTextSubmit, emit. rewrite Hsock.
    destruct (js_blank (textInput st)), (textPos st); try done. intros _.
    eexists _, _. split; [done|]. split; [by right|done].
Qed.

End Facts.

(** X7. Nothing the coordinator sends changes who may draw: whatever
    event it handles, in whatever state, none of the messages it delivers
    to a client changes that client's role, draw permission or allowed set;
    and the [setDrawPermission] event the host's client emits when toggling
    a participant is dropped without any effect. *)
Theorem coordinator_never_grants `{Numeric} (cst : Coordinator.state) (c : string)
    (ev : @Coordinator.event CanvasObject) (cl pid userId : string) (st : state) :
  Forall (λ m, session (Wire.onCanvasMessage pid m st) = session st)
         (Wire.delivered (Coordinator.step cst c ev).1
                         (Coordinator.step cst c ev).2 cl)
  ∧ Forall (λ e, Coordinator.step cst c e = (cst, []))
           (omap Wire.toCoordinator (toggleAllowUser userId st).2).
Proof.
  split.
  - unfold Wire.delivered. apply Forall_fmap, Forall_forall. intros e He.
    apply list_elem_of_filter in He as [_ He].
    pose proof (CoordinatorFacts.step_emits_no_unlistened cst c ev e He) as Hm.
    simpl. destruct (Coordinator.msg e); simpl in *; done.
  - unfold toggleAllowUser, emit. simpl. destruct (socketRef st); simpl;
      [|by apply Forall_nil]. apply Forall_singleton.
    unfold Coordinator.step. by destruct (Coordinator.sockets cst !! c).
Qed.

(** X30. A drawing made by one participant reaches the others as drawn:
    when a connected client in a room completes a local action that changes
    its page, the one event it emits passes the coordinator unchanged, the
    sender gets no echo, and a peer in the room whose pages agreed with the
    sender's before, applying what it receives to the page the sender drew
    on, has the sender's pages afterwards. *)
Theorem local_action_reaches_peers `{Numeric} (sa sp : state) (ev : event)
    (cst : Coordinator.state) (a peer b : string) (sk : Coordinator.socket) :
  is_local_action ev → socketRef sa = true →
  pages (step sa ev).1 ≠ pages sa →
  Coordinator.sockets cst !! a = Some sk →
  Coordinator.currentRoom sk = Some b → b ≠ "" →
  peer ∈ Coordinator.room_sockets cst b → peer ≠ a →
  pages sp = pages sa →
  ∃ e, omap Wire.toCoordinator (step sa ev).2 = [e]
    ∧ (Coordinator.step cst a e).1 = cst
    ∧ Wire.delivered cst (Coordinator.step cst a e).2 a = []
    ∧ pages (foldl (λ s m, Wire.onCanvasMessage (currentPageId sa) m s) sp
               (Wire.delivered cst (Coordinator.step cst a e).2 peer))
      = pages (step sa ev).1.
Proof.
  intros Hev Hsock Hne Hsk Hroom Hb Hpeer Hpa Hsync.
  destruct (local_action_emits_object sa ev Hev Hsock Hne)
    as (obj & e & Hout & He & Hpages).
  exists e. split; [done|].
  assert (∃ m, Coordinator.relayed sk e = Some (b, m)
               ∧ Wire.onCanvasMessage (currentPageId sa) m sp
                 = setObjects (currentPageId sa) (λ prev, prev ++ [obj]) sp)
    as (m & Hrel & Hm).
  { destruct He as [-> | ->]; simpl; rewrite Hroom; eexists; split; done. }
  destruct (CoordinatorFacts.relay_delivers cst a sk e b m Hsk Hrel Hb)
    as (Hst & Hemit & _).
  rewrite Hemit, !delivered_socket_to.
  rewrite decide_False by tauto. rewrite decide_True by done.
  split_and!; [done|done|]. simpl. rewrite Hm, Hpages.
  unfold setObjects. simpl. by rewrite Hsync.
Qed.

Lemma local_action_reaches_peers_witness :
  let sa0 := init (H:=Z_numeric) (Some "abc123") (Some "A") "#00d4ff" in
  let sa := exec sa0 [DrawPermission true; MouseDown (Some (Point 10 10)) 1]%Z in
  let sp := init (H:=Z_numeric) (Some "abc123") (Some "P") "#ff6b6b" in
  let cst := Coordinator.exec (data:=CanvasObject) Coordinator.init
               [("a", Coordinator.Connection); ("p", Coordinator.Connection);
                ("a", Coordinator.JoinRoom "abc123" None None);
                ("p", Coordinator.JoinRoom "abc123" None None)] in
  let ev := MouseUp (Some (@Point Z_numeric 20%Z 20%Z)) 2%Z in
  ∃ e, omap Wire.toCoordinator (step sa ev).2 = [e]
    ∧ pages (foldl (λ s m, Wire.onCanvasMessage "page-1" m s) sp
               (Wire.delivered cst (Coordinator.step cst "a" e).2 "p"))
      = pages (step sa ev).1.
Proof.
  intros sa0 sa sp cst ev.
  destruct (local_action_reaches_peers sa sp ev cst "a" "p" "abc123"
              {| Coordinator.currentRoom := Some "abc123";
                 Coordinator.userName := Some "User-a";
                 Coordinator.userColor := Some "#00d4ff";
                 Coordinator.rooms := {["abc123"]} |})
    as (e & He & _ & _ & Hp).
  - done.
  - reflexivity.
  - vm_compute. discriminate.
  - vm_compute. reflexivity.
  - reflexivity.
  - done.
  - by_compute.
  - done.
  - reflexivity.
  - exists e. split; [exact He|exact Hp].
Defined.




(** X29. A participant who leaves disappears from the others' screens:
    when a registered member of a room disconnects, every client still in
    the room, applying what the coordinator delivers, drops that
    participant's cursor and holds a member list without it. *)
Theorem departed_peer_disappears `{Numeric}
    (tr : list (string * @Coordinator.event number)) (c : string)
    (sk : Coordinator.socket) (b : string) (u : Coordinator.user)
    (peer : string) (pr : BoardSocial.presence) :
  let cst := Coordinator.exec Coordinator.init tr in
  Coordinator.sockets cst !! c = Some sk →
  Coordinator.currentRoom sk = Some b →
  b ≠ "" →
  obj_get c (Coordinator.members cst b) = Some u →
  let r := Coordinator.step cst c Coordinator.Disconnect in
  peer ∈ Coordinator.room_sockets r.1 b →
  let pr' := foldl (λ p m, Wire.onPresenceMessage m p) pr
               (Wire.delivered r.1 r.2 peer) in
  BoardSocial.remoteCursors pr' !! c = None
  ∧ BoardSocial.roomUsers pr'
    = obj_values (obj_delete c (Coordinator.members cst b))
  ∧ c ∉ Coordinator.user_id <$> BoardSocial.roomUsers pr'.
Proof.
  intros cst Hc Hcur Hb Hu r Hpeer pr'.
  destruct (CoordinatorMore.disconnect_emissions tr c sk b u Hc Hcur Hb Hu)
    as (_ & _ & Hdel).
  subst pr'. fold cst r in Hdel. rewrite (Hdel peer Hpeer). simpl.
  split_and!; [by rewrite lookup_delete_eq|done|].
  assert (∃ m, Coordinator.roomUsers cst !! b = Some m) as [m Hm].
  { unfold Coordinator.members in Hu.
    destruct (Coordinator.roomUsers cst !! b); [by eexists|done]. }
  assert (Coordinator.members cst b = m) as ->
    by (unfold Coordinator.members; by rewrite Hm).
  destruct (CoordinatorMore.exec_well_formed tr b m Hm) as [_ Hall].
  rewrite CoordinatorFacts.obj_values_ids.
  - rewrite elem_of_obj_keys_delete. tauto.
  - apply Forall_obj_delete. eapply Forall_impl; [exact Hall|]. by intros p (? & _).
Qed.

Lemma departed_peer_disappears_witness :
  let tr := [("X", Coordinator.Connection); ("Y", Coordinator.Connection);
             ("X", Coordinator.JoinRoom "abc123" (Some "Xavier") None);
             ("Y", Coordinator.JoinRoom "abc123" (Some "Yara") None);
             ("X", Coordinator.CursorMove (data:=@number Z_numeric) 1%Z 2%Z None None)] in
  let r := Coordinator.step (Coordinator.exec Coordinator.init tr) "X"
             Coordinator.Disconnect in
  let pr := BoardSocial.onCursorUpdate
              {| BoardSocial.rc_userId := "X"; BoardSocial.rc_name := "Xavier";
                 BoardSocial.rc_color := "#00d4ff";
                 BoardSocial.rc_x := 1%Z; BoardSocial.rc_y := 2%Z |}
              {| BoardSocial.remoteCursors := ∅; BoardSocial.roomUsers := [] |} in
  let pr' := foldl (λ p m, Wire.onPresenceMessage (H:=Z_numeric) m p) pr
               (Wire.delivered r.1 r.2 "Y") in
  is_Some (BoardSocial.remoteCursors pr !! "X")
  ∧ BoardSocial.remoteCursors pr' !! "X" = None
  ∧ BoardSocial.roomUsers pr'
    = [ {| Coordinator.user_id := "Y"; Coordinator.user_name := "Yara";
           Coordinator.user_color := "#00d4ff" |} ].
Proof.
  intros tr r pr pr'.
  destruct (departed_peer_disappears (H:=Z_numeric) tr "X"
              {| Coordinator.currentRoom := Some "abc123";
                 Coordinator.userName := Some "Xavier";
                 Coordinator.userColor := Some "#00d4ff";
                 Coordinator.rooms := {["abc123"]} |}
              "abc123"
              {| Coordinator.user_id := "X"; Coordinator.user_name := "Xavier";
                 Coordinator.user_color := "#00d4ff" |} "Y" pr)
    as (Hcur & Hus & _); [reflexivity|reflexivity|done|reflexivity|by_compute|].
  split; [by eexists|]. split; [exact Hcur|].
  fold tr r in Hus. fold pr' in Hus. rewrite Hus. reflexivity.
Defined.

End WireFacts.
